(** * The XID catalog generator (scripts/xid-gen-catelog.py)

    A shallow embedding of the generator's pipeline
    (sheet grid -> records -> emitted Go text -> file write) and of the
    Python built-ins it calls, followed by the properties of the
    specification.

    Conventions.
    - A Python [str] is a list of Unicode code points ([char := N]).
    - A Python [int] is a [Z].
    - A call that may raise returns a [result]; the [for] loops thread it.
    - The Unicode Character Database is not part of the script: the
      classification of the non-ASCII characters is a parameter
      ([UnicodeData]); the ASCII part is written out. *)

From Stdlib Require Import String Ascii.
From Stdlib Require Import List ZArith NArith Bool Lia.
From Stdlib Require Import Sorted Permutation.
Import ListNotations.

Set Implicit Arguments.

(** ** Strings *)

Definition char := N.
Definition str := list char.

(** An ASCII literal of the source as a [str]. *)
Definition lit (s : String.string) : str :=
  List.map N_of_ascii (list_ascii_of_string s).

Definition NL : char := 10%N.        (* "\n" *)
Definition TAB : char := 9%N.        (* "\t" *)
Definition DQ : char := 34%N.        (* the double quote *)
Definition BSL : char := 92%N.       (* the backslash *)

Fixpoint str_eqb (a b : str) : bool :=
  match a, b with
  | [], [] => true
  | x :: a', y :: b' => N.eqb x y && str_eqb a' b'
  | _, _ => false
  end.

(** [a < b] on strings: code point by code point, a proper prefix first. *)
Fixpoint str_ltb (a b : str) : bool :=
  match a, b with
  | _, [] => false
  | [], _ :: _ => true
  | x :: a', y :: b' => if N.eqb x y then str_ltb a' b' else N.ltb x y
  end.

Inductive str_lt : str -> str -> Prop :=
| str_lt_nil : forall y b, str_lt [] (y :: b)
| str_lt_head : forall x y a b, (x < y)%N -> str_lt (x :: a) (y :: b)
| str_lt_tail : forall x a b, str_lt a b -> str_lt (x :: a) (x :: b).

(** ** Exceptions *)

Inductive exn := ValueError | IndexError | TypeError.

Inductive result (A : Type) : Type :=
| Ok (a : A)
| Raise (e : exn).

Arguments Ok {A} a.
Arguments Raise {A} e.

Definition bind {A B} (m : result A) (k : A -> result B) : result B :=
  match m with
  | Ok a => k a
  | Raise e => Raise e
  end.

Notation "x <- m ;; k" := (bind m (fun x => k))
  (at level 61, m at next level, right associativity).

(** ** The Unicode classification of the non-ASCII characters *)

Record UnicodeData := {
  (* Py_UNICODE_ISSPACE on U+0080 and above *)
  uni_isspace : char -> bool;
  (* Py_UNICODE_TODECIMAL on U+007F and above: the value of a decimal digit *)
  uni_todecimal : char -> option N;
  (* Py_UNICODE_ISDIGIT on U+0080 and above *)
  uni_isdigit : char -> bool;
  uni_decimal_range : forall c d, uni_todecimal c = Some d -> (d < 10)%N;
  uni_decimal_isdigit : forall c d, uni_todecimal c = Some d -> uni_isdigit c = true
}.

(** The database on U+0080..U+00FF (Latin-1 Supplement): the spaces are
    NEL and NBSP, the digits are the superscripts two, three and one, and
    none of them is a decimal digit.  It is used to run the model on inputs
    whose characters are below U+0100. *)
Definition latin1_isspace (c : char) : bool := (N.eqb c 133 || N.eqb c 160)%N.
Definition latin1_todecimal (c : char) : option N := None.
Definition latin1_isdigit (c : char) : bool :=
  (N.eqb c 178 || N.eqb c 179 || N.eqb c 185)%N.

Definition latin1 : UnicodeData.
Proof.
  refine {| uni_isspace := latin1_isspace;
            uni_todecimal := latin1_todecimal;
            uni_isdigit := latin1_isdigit |}.
  - intros c d H; discriminate H.
  - intros c d H; discriminate H.
Defined.

(** ** Python built-ins *)

Section Builtins.

Variable U : UnicodeData.

Local Open Scope N_scope.

(** [str.isspace] on one character. *)
Definition isspace_char (c : char) : bool :=
  if c <? 128
  then ((9 <=? c) && (c <=? 13)) || ((28 <=? c) && (c <=? 32))
  else uni_isspace U c.

(** [str.isdigit] on one character. *)
Definition isdigit_char (c : char) : bool :=
  if c <? 128
  then (48 <=? c) && (c <=? 57)
  else uni_isdigit U c.

Fixpoint lstrip (s : str) : str :=
  match s with
  | c :: s' => if isspace_char c then lstrip s' else s
  | [] => []
  end.

Definition rstrip (s : str) : str := rev (lstrip (rev s)).

(** [s.strip()] *)
Definition strip (s : str) : str := rstrip (lstrip s).

(** [s.isdigit()]: false on the empty string. *)
Definition isdigit (s : str) : bool :=
  match s with
  | [] => false
  | _ :: _ => forallb isdigit_char s
  end.

(** [int(s, base)] follows CPython: the string is first brought to ASCII
    (a Unicode space becomes a blank, a Unicode decimal digit its ASCII
    digit, any other non-ASCII character a question mark), then read as
    blanks, sign, for base 16 the prefix 0x, digits with single
    underscores between them, blanks.  The integers are unbounded; the
    limit an interpreter may be configured to put on the number of decimal
    digits is not part of the model. *)
Definition to_ascii (c : char) : char :=
  if c <? 127 then c
  else if isspace_char c then 32
  else match uni_todecimal U c with
       | Some d => 48 + d
       | None => 63
       end.

Definition c_isspace (c : char) : bool :=
  ((9 <=? c) && (c <=? 13)) || (c =? 32).

Definition digit_value (c : char) : N :=
  if (48 <=? c) && (c <=? 57) then c - 48
  else if (97 <=? c) && (c <=? 122) then c - 97 + 10
  else if (65 <=? c) && (c <=? 90) then c - 65 + 10
  else 37.

Fixpoint skip_space (s : str) : str :=
  match s with
  | c :: s' => if c_isspace c then skip_space s' else s
  | [] => []
  end.

(** The digit loop: [prev_us] tells whether the previous character was an
    underscore; the result is the value read, the number of digits and the
    rest, or [None] for a doubled or trailing underscore. *)
Fixpoint scan_digits (base : N) (s : str) (prev_us : bool) (acc : N) (digits : nat)
  : option (N * nat * str) :=
  match s with
  | c :: s' =>
      if c =? 95 then
        if prev_us then None else scan_digits base s' true acc digits
      else if digit_value c <? base then
        scan_digits base s' false (acc * base + digit_value c) (S digits)
      else if prev_us then None else Some (acc, digits, s)
  | [] => if prev_us then None else Some (acc, digits, [])
  end.

Definition skip_sign (s : str) : bool * str :=
  match s with
  | c :: s' => if c =? 43 then (false, s')
               else if c =? 45 then (true, s')
               else (false, s)
  | [] => (false, [])
  end.

Definition skip_prefix (base : N) (s : str) : str :=
  match s with
  | z :: x :: s' =>
      if (z =? 48) && (base =? 16) && ((x =? 120) || (x =? 88)) then
        match s' with
        | u :: s'' => if u =? 95 then s'' else s'
        | [] => s'
        end
      else s
  | _ => s
  end.

Definition starts_with_underscore (s : str) : bool :=
  match s with
  | c :: _ => c =? 95
  | [] => false
  end.

Definition PyLong_FromString (base : N) (s : str) : option Z :=
  let '(neg, s1) := skip_sign (skip_space s) in
  let s2 := skip_prefix base s1 in
  if starts_with_underscore s2 then None
  else match scan_digits base s2 false 0 0 with
       | None => None
       | Some (_, O, _) => None
       | Some (n, S _, rest) =>
           match skip_space rest with
           | [] => Some (if neg then (- Z.of_N n)%Z else Z.of_N n)
           | _ :: _ => None
           end
       end.

(** [int(s, base)]; [None] stands for ValueError. *)
Definition py_int (base : N) (s : str) : option Z :=
  PyLong_FromString base (List.map to_ascii s).

Definition int_or_raise (base : N) (s : str) : result Z :=
  match py_int base s with
  | Some z => Ok z
  | None => Raise ValueError
  end.

End Builtins.

(** ** Lists *)

(** [x in l] *)
Fixpoint contains (x : str) (l : list str) : bool :=
  match l with
  | [] => false
  | y :: l' => str_eqb y x || contains x l'
  end.

(** [l.index(x)]: the first position of [x], ValueError when absent. *)
Fixpoint index_from (x : str) (l : list str) (i : nat) : result nat :=
  match l with
  | [] => Raise ValueError
  | y :: l' => if str_eqb y x then Ok i else index_from x l' (S i)
  end.

Definition index (l : list str) (x : str) : result nat := index_from x l 0.

(** [l[i]] for an index that is not negative. *)
Definition getitem {A} (l : list A) (i : nat) : result A :=
  match nth_error l i with
  | Some a => Ok a
  | None => Raise IndexError
  end.

(** [l[z]] for a Python int: a negative index counts from the end. *)
Definition getitem_int {A} (l : list A) (z : Z) : result A :=
  let n := Z.of_nat (length l) in
  if (z <? 0)%Z then
    if (z + n <? 0)%Z then Raise IndexError else getitem l (Z.to_nat (z + n))
  else getitem l (Z.to_nat z).

(** [if len(row) < len(header): row = row + [""] * (len(header) - len(row))] *)
Definition pad (width : nat) (row : list str) : list str :=
  if Nat.ltb (length row) width
  then row ++ repeat ([] : str) (width - length row)
  else row.

(** [not s] on a string *)
Definition is_empty (s : str) : bool :=
  match s with
  | [] => true
  | _ :: _ => false
  end.

(** [s or d] on strings *)
Definition or_default (s d : str) : str :=
  match s with
  | [] => d
  | _ :: _ => s
  end.

(** [l.sort(key=...)]: the stable sort; an element goes in front of the
    first later element whose key is not below its own. *)
Section Sort.

Variables (A K : Type) (key : A -> K) (ltb : K -> K -> bool).

Fixpoint insert_by (x : A) (l : list A) : list A :=
  match l with
  | [] => [x]
  | y :: l' => if ltb (key y) (key x) then y :: insert_by x l' else x :: l
  end.

Fixpoint sort_by (l : list A) : list A :=
  match l with
  | [] => []
  | x :: l' => insert_by x (sort_by l')
  end.

End Sort.

(** A [for] loop whose body appends at most one record and may raise. *)
Fixpoint collect {A B} (body : A -> result (option B)) (l : list A) : result (list B) :=
  match l with
  | [] => Ok []
  | a :: l' =>
      r <- body a ;;
      rest <- collect body l' ;;
      Ok (match r with Some b => b :: rest | None => rest end)
  end.

(** ** The sheet parser *)

(** A cell element: its attribute [t], and its child [v] with its text. *)
Record cell := {
  cell_t : option str;
  cell_v : option (option str)
}.

Definition sheet_xml := list (list cell).
Definition grid := list (list str).

Section Pipeline.

Variable U : UnicodeData.

Definition read_cell (shared_strings : list str) (c : cell) : result str :=
  match cell_v c with
  | None => Ok []
  | Some text =>
      match cell_t c with
      | Some t =>
          if str_eqb t (lit "s") then
            match text with
            | None => Raise TypeError
            | Some s =>
                idx <- int_or_raise U 10 s ;;
                getitem_int shared_strings idx
            end
          else Ok (match text with Some s => s | None => [] end)
      | None => Ok (match text with Some s => s | None => [] end)
      end
  end.

Fixpoint read_cells (shared_strings : list str) (cs : list cell) : result (list str) :=
  match cs with
  | [] => Ok []
  | c :: cs' =>
      v <- read_cell shared_strings c ;;
      vs <- read_cells shared_strings cs' ;;
      Ok (v :: vs)
  end.

Fixpoint read_sheet (sheet : sheet_xml) (shared_strings : list str) : result grid :=
  match sheet with
  | [] => Ok []
  | row :: sheet' =>
      values <- read_cells shared_strings row ;;
      rows <- read_sheet sheet' shared_strings ;;
      Ok (match values with [] => rows | _ :: _ => values :: rows end)
  end.

(** ** The catalog entry builder *)

Record entry := {
  code : Z;
  mnemonic : str;
  description : str;
  immediate : str;
  investigatory : str
}.

Definition col_type : str := lit "Type " ++ [NL] ++ lit "(XID)".
Definition col_code : str := lit "Code".
Definition col_mnemonic : str := lit "Mnemonic".
Definition col_description : str := lit "Description".
Definition col_immediate : str :=
  lit "Resolution Bucket " ++ [NL] ++ lit "(Immediate Action)".
Definition col_investigatory : str :=
  lit "Resolution Bucket " ++ [NL] ++ lit "(Investigatory Action)".

Record catalog_columns := {
  idx_type : nat;
  idx_code : nat;
  idx_mnemonic : nat;
  idx_desc : nat;
  idx_imm : nat;
  idx_inv : nat
}.

Definition catalog_indices (header : list str) : result catalog_columns :=
  i_type <- index header col_type ;;
  i_code <- index header col_code ;;
  i_mnemonic <- index header col_mnemonic ;;
  i_desc <- index header col_description ;;
  i_imm <- index header col_immediate ;;
  i_inv <- index header col_investigatory ;;
  Ok {| idx_type := i_type; idx_code := i_code; idx_mnemonic := i_mnemonic;
        idx_desc := i_desc; idx_imm := i_imm; idx_inv := i_inv |}.

(** The body of the loop over [rows[1:]]: [Ok None] is [continue]. *)
Definition catalog_row (width : nat) (ix : catalog_columns) (row0 : list str)
  : result (option entry) :=
  let row := pad width row0 in
  ty <- getitem row (idx_type ix) ;;
  if negb (str_eqb ty (lit "XID")) then Ok None else
  code_str <- getitem row (idx_code ix) ;;
  if is_empty code_str || negb (isdigit U code_str) then Ok None else
  c <- int_or_raise U 10 code_str ;;
  m <- getitem row (idx_mnemonic ix) ;;
  d <- getitem row (idx_desc ix) ;;
  imm <- getitem row (idx_imm ix) ;;
  inv <- getitem row (idx_inv ix) ;;
  Ok (Some {| code := c; mnemonic := strip U m; description := strip U d;
              immediate := strip U imm; investigatory := strip U inv |}).

Definition build_catalog_entries (rows : grid) : result (list entry) :=
  header <- getitem rows 0 ;;
  ix <- catalog_indices header ;;
  entries <- collect (catalog_row (length header) ix) (tl rows) ;;
  Ok (sort_by code Z.ltb entries).

(** ** The NVLink rule builder *)

(** The keys [action2], [hw_sw] and [local_remote] are in the dict only
    when their column is in the header: [None] is an absent key. *)
Record rule := {
  xid : Z;
  unit_ : str;
  intrinfo_v1 : str;
  intrinfo_v2 : str;
  error_status : Z;
  resolution : str;
  rule_investigatory : str;
  severity : str;
  action2 : option str;
  hw_sw : option str;
  local_remote : option str
}.

Definition col_xid : str := lit "Xid".
Definition col_subcode : str :=
  lit "Subcode V1(<R575)/V2(>=R575)" ++ [NL] ++
  lit "V1(<R575): IntrInfo[9:5]" ++ [NL] ++
  lit "V2(>=R575):IntrInfo[6:0]".
Definition col_intrinfo_v1 : str :=
  lit "(V1(<R575)) IntrInfo decode for Data Center Recovery Action " ++ [NL] ++
  lit "IntrInfo (binary; " ++ [DQ] ++ lit "-" ++ [DQ] ++ lit " user decode)".
Definition col_intrinfo_v2 : str :=
  lit "(V2(>=R575)) IntrInfo decode for Data Center Recovery Action" ++ [NL] ++
  lit "IntrInfo (binary; " ++ [DQ] ++ lit "-" ++ [DQ] ++ lit " user decode)".
Definition col_error_status : str := lit "Error Status (hex)".
Definition col_resolution : str :=
  lit "Resolution Bucket " ++ [NL] ++ lit "(Data Center Recovery Action)".
Definition col_action2 : str := lit "Action 2".
Definition col_severity : str :=
  lit "Severity (for items with '*' please see Customer User Guide tab)".
Definition col_hw_sw : str := lit "HW/SW".
Definition col_local_remote : str :=
  lit "Local/Remote (for items with '*' please see Customer User Guide tab)".

Record nvlink_columns := {
  idx_xid : nat;
  idx_subcode : nat;
  idx_intrinfo_v1 : nat;
  idx_intrinfo_v2 : nat;
  idx_error_status : nat;
  idx_resolution : nat;
  idx_action2 : option nat;
  idx_investigatory : nat;
  idx_severity : nat;
  idx_hw_sw : option nat;
  idx_local_remote : option nat
}.

(** [header.index(name) if name in header else None] *)
Definition optional_index (header : list str) (name : str) : result (option nat) :=
  if contains name header
  then i <- index header name ;; Ok (Some i)
  else Ok None.

Definition nvlink_indices (header : list str) : result nvlink_columns :=
  i_xid <- index header col_xid ;;
  i_subcode <- index header col_subcode ;;
  i_v1 <- index header col_intrinfo_v1 ;;
  i_v2 <- index header col_intrinfo_v2 ;;
  i_es <- index header col_error_status ;;
  i_res <- index header col_resolution ;;
  i_a2 <- optional_index header col_action2 ;;
  i_inv <- index header col_investigatory ;;
  i_sev <- index header col_severity ;;
  i_hw <- optional_index header col_hw_sw ;;
  i_lr <- optional_index header col_local_remote ;;
  Ok {| idx_xid := i_xid; idx_subcode := i_subcode; idx_intrinfo_v1 := i_v1;
        idx_intrinfo_v2 := i_v2; idx_error_status := i_es;
        idx_resolution := i_res; idx_action2 := i_a2;
        idx_investigatory := i_inv; idx_severity := i_sev;
        idx_hw_sw := i_hw; idx_local_remote := i_lr |}.

(** The value stored under an optional key: the trimmed cell when the
    column exists. *)
Definition optional_cell (row : list str) (i : option nat) : result (option str) :=
  match i with
  | Some n => v <- getitem row n ;; Ok (Some (strip U v))
  | None => Ok None
  end.

(** The body of the loop over [rows[1:]]: [Ok None] is [continue]; the
    ValueError of the hexadecimal conversion is caught, the one of
    [int(xid_str)] is not. *)
Definition nvlink_row (width : nat) (ix : nvlink_columns) (row0 : list str)
  : result (option rule) :=
  let row := pad width row0 in
  x <- getitem row (idx_xid ix) ;;
  let xid_str := strip U x in
  s <- getitem row (idx_subcode ix) ;;
  let subcode := strip U s in
  if is_empty xid_str || negb (isdigit U xid_str) || is_empty subcode
  then Ok None else
  e <- getitem row (idx_error_status ix) ;;
  let error_status_str := or_default (strip U e) (lit "0x0") in
  match py_int U 16 error_status_str with
  | None => Ok None
  | Some es =>
      xv <- int_or_raise U 10 xid_str ;;
      v1 <- getitem row (idx_intrinfo_v1 ix) ;;
      v2 <- getitem row (idx_intrinfo_v2 ix) ;;
      res <- getitem row (idx_resolution ix) ;;
      inv <- getitem row (idx_investigatory ix) ;;
      sev <- getitem row (idx_severity ix) ;;
      a2 <- optional_cell row (idx_action2 ix) ;;
      hw <- optional_cell row (idx_hw_sw ix) ;;
      lr <- optional_cell row (idx_local_remote ix) ;;
      Ok (Some {| xid := xv; unit_ := subcode;
                  intrinfo_v1 := strip U v1; intrinfo_v2 := strip U v2;
                  error_status := es; resolution := strip U res;
                  rule_investigatory := strip U inv; severity := strip U sev;
                  action2 := a2; hw_sw := hw; local_remote := lr |})
  end.

(** The sort key [(r["xid"], r["unit"], r["error_status"])] and the
    comparison of two such tuples: the first differing component decides. *)
Definition rule_key (r : rule) : Z * str * Z := (xid r, unit_ r, error_status r).

Definition key_ltb (a b : Z * str * Z) : bool :=
  let '(x1, u1, e1) := a in
  let '(x2, u2, e2) := b in
  if negb (Z.eqb x1 x2) then Z.ltb x1 x2
  else if negb (str_eqb u1 u2) then str_ltb u1 u2
  else Z.ltb e1 e2.

Definition build_nvlink_rules (rows : grid) : result (list rule) :=
  header <- getitem rows 0 ;;
  ix <- nvlink_indices header ;;
  rules <- collect (nvlink_row (length header) ix) (tl rows) ;;
  Ok (sort_by rule_key key_ltb rules).

End Pipeline.

(** ** The emitter *)

(** [s.replace(old, new)] for a pattern [old] of one character, as in its
    three calls. *)
Fixpoint replace_char (old : char) (new : str) (s : str) : str :=
  match s with
  | [] => []
  | c :: s' => (if N.eqb c old then new else [c]) ++ replace_char old new s'
  end.

Definition escape_go_string (value : str) : str :=
  let escaped :=
    replace_char NL [BSL; 110%N]
      (replace_char DQ [BSL; DQ]
        (replace_char BSL [BSL; BSL] value)) in
  [DQ] ++ escaped ++ [DQ].

(** The digits of [n] in [base], most significant first; the number of
    bits of [n] bounds the number of steps. *)
Definition digit_char (d : N) : char :=
  if (d <? 10)%N then (48 + d)%N else (87 + d)%N.

Fixpoint digits_fuel (fuel : nat) (base n : N) (acc : str) : str :=
  match fuel with
  | O => acc
  | S fuel' =>
      let acc' := digit_char (n mod base) :: acc in
      if N.eqb (n / base) 0 then acc' else digits_fuel fuel' base (n / base) acc'
  end.

Definition digits (base n : N) : str :=
  digits_fuel (S (N.to_nat (N.log2 n))) base n [].

(** [str(z)], the text of [{z}] in an f-string. *)
Definition str_of_int (z : Z) : str :=
  if (z <? 0)%Z then 45%N :: digits 10 (Z.to_N (- z)) else digits 10 (Z.to_N z).

Definition zfill (width : nat) (s : str) : str :=
  repeat 48%N (width - length s) ++ s.

(** [{z:08x}]: lowercase hexadecimal, zero-padded to width 8, the sign
    counted in the width and written before the zeros. *)
Definition format_08x (z : Z) : str :=
  if (z <? 0)%Z then 45%N :: zfill 7 (digits 16 (Z.to_N (- z)))
  else zfill 8 (digits 16 (Z.to_N z)).

(** ["\n".join(lines)] *)
Fixpoint join (sep : str) (l : list str) : str :=
  match l with
  | [] => []
  | [x] => x
  | x :: l' => x ++ sep ++ join sep l'
  end.

Definition entry_line (e : entry) : str :=
  [TAB] ++ lit "{" ++
  lit "Code: " ++ str_of_int (code e) ++ lit ", " ++
  lit "Mnemonic: " ++ escape_go_string (mnemonic e) ++ lit ", " ++
  lit "Description: " ++ escape_go_string (description e) ++ lit ", " ++
  lit "ImmediateResolution: " ++ escape_go_string (immediate e) ++ lit ", " ++
  lit "InvestigatoryResolution: " ++ escape_go_string (investigatory e) ++ lit "," ++
  lit "},".

(** [if key in rule and rule[key]: line += prefix + escape_go_string(rule[key])] *)
Definition append_optional (line prefix : str) (v : option str) : str :=
  match v with
  | Some (c :: s) => line ++ prefix ++ escape_go_string (c :: s)
  | _ => line
  end.

Definition rule_line (r : rule) : str :=
  let line :=
    [TAB] ++ lit "{" ++
    lit "Xid: " ++ str_of_int (xid r) ++ lit ", " ++
    lit "Unit: " ++ escape_go_string (unit_ r) ++ lit ", " ++
    lit "IntrinfoPatternV1: " ++ escape_go_string (intrinfo_v1 r) ++ lit ", " ++
    lit "IntrinfoPatternV2: " ++ escape_go_string (intrinfo_v2 r) ++ lit ", " ++
    lit "ErrorStatus: 0x" ++ format_08x (error_status r) ++ lit ", " ++
    lit "Resolution: " ++ escape_go_string (resolution r) ++ lit ", " ++
    lit "Investigatory: " ++ escape_go_string (rule_investigatory r) ++ lit ", " ++
    lit "Severity: " ++ escape_go_string (severity r) in
  let line := append_optional line (lit ", Action2: ") (action2 r) in
  let line := append_optional line (lit ", HwSw: ") (hw_sw r) in
  let line := append_optional line (lit ", LocalRemote: ") (local_remote r) in
  line ++ lit "},".

Definition generated_at_line (timestamp : str) : str :=
  lit "// Generated at " ++ timestamp ++
  lit ". Source: https://docs.nvidia.com/deploy/xid-errors/analyzing-xid-catalog.html".

(** The lines of [write_go]; [now] is the text of
    [datetime.datetime.utcnow().isoformat(timespec="seconds")]. *)
Definition write_go_lines (now : str) (entries : list entry) (rules : list rule)
  : list str :=
  let timestamp := now ++ lit "Z" in
  [ lit "// Code generated by gen-catalog/gen.py; DO NOT EDIT.";
    generated_at_line timestamp;
    [];
    lit "package xid";
    [];
    lit "// catalogEntries mirrors NVIDIA's XID catalog (sheet: " ++ [DQ] ++
      lit "Catalog" ++ [DQ] ++ lit ").";
    lit "var catalogEntries = []catalogEntry{" ]
  ++ List.map entry_line entries
  ++ [ lit "}";
       [];
       lit "// nvlinkRules captures the NVLink5-specific decode table (sheet: " ++
         [DQ] ++ lit "XID 144-150 Decode" ++ [DQ] ++ lit ").";
       lit "var nvlinkRules = []nvlinkRule{" ]
  ++ List.map rule_line rules
  ++ [ lit "}"; [] ].

Definition write_go (now : str) (entries : list entry) (rules : list rule) : str :=
  join [NL] (write_go_lines now entries rules).

(** ** The run *)

(** What the run leaves behind: the exit of [main] or an exception nobody
    catches. *)
Inductive outcome :=
| Returned (status : Z)
| Uncaught (e : exn).

(** The exit status of the process: the interpreter turns an uncaught
    exception into status 1. *)
Definition exit_status (o : outcome) : Z :=
  match o with
  | Returned status => status
  | Uncaught _ => 1%Z
  end.

(** The input of a run: the arguments, whether the first path is a file,
    the parts of the archive (taken as a readable archive that holds both
    sheets), the clock, and the content of the output path ([None]: no
    such file). *)
Record world := {
  argv : list str;
  xlsx_is_file : bool;
  shared_strings : list str;
  sheet1_xml : sheet_xml;
  sheet2_xml : sheet_xml;
  clock : str;
  output_file : option str
}.

(** The stages of [main] after the argument checks: the text to write. *)
Definition generate (U : UnicodeData) (w : world) : result str :=
  sheet1 <- read_sheet U (sheet1_xml w) (shared_strings w) ;;
  sheet2 <- read_sheet U (sheet2_xml w) (shared_strings w) ;;
  entries <- build_catalog_entries U sheet1 ;;
  rules <- build_nvlink_rules U sheet2 ;;
  Ok (write_go (clock w) entries rules).

(** [main]: the outcome and the content of the output path afterwards. *)
Definition main (U : UnicodeData) (w : world) : outcome * option str :=
  if negb (Nat.eqb (length (argv w)) 3) then (Returned 1%Z, output_file w)
  else if negb (xlsx_is_file w) then (Returned 1%Z, output_file w)
  else match generate U w with
       | Raise e => (Uncaught e, output_file w)
       | Ok go_code => (Returned 0%Z, Some go_code)
       end.

(** ** Reading a literal back *)

(** The character an escape sequence of one character stands for in an
    interpreted string literal of Go. *)
Definition unescape_char (c : char) : option char :=
  if N.eqb c 97 then Some 7%N            (* \a *)
  else if N.eqb c 98 then Some 8%N       (* \b *)
  else if N.eqb c 102 then Some 12%N     (* \f *)
  else if N.eqb c 110 then Some 10%N     (* \n *)
  else if N.eqb c 114 then Some 13%N     (* \r *)
  else if N.eqb c 116 then Some 9%N      (* \t *)
  else if N.eqb c 118 then Some 11%N     (* \v *)
  else if N.eqb c BSL then Some BSL
  else if N.eqb c DQ then Some DQ
  else None.

(** The text between the quotes, up to the closing quote, which has to be
    the last character: a newline is not allowed, a backslash starts an
    escape; the numeric escapes (octal, \x, \u, \U) are not read. *)
Fixpoint decode_body (s : str) : option str :=
  match s with
  | [] => None
  | c :: s' =>
      if N.eqb c DQ then
        match s' with [] => Some [] | _ :: _ => None end
      else if N.eqb c NL then None
      else if N.eqb c BSL then
        match s' with
        | e :: s'' =>
            match unescape_char e, decode_body s'' with
            | Some d, Some t => Some (d :: t)
            | _, _ => None
            end
        | [] => None
        end
      else
        match decode_body s' with
        | Some t => Some (c :: t)
        | None => None
        end
  end.

Definition decode_go_string (s : str) : option str :=
  match s with
  | c :: body => if N.eqb c DQ then decode_body body else None
  | [] => None
  end.

(** ** The fields of a rule literal *)

(** The fields the specification expects in a rule literal, in order, each
    with its rendered value: the eight mandatory ones, then the optional
    ones whose value is present and not empty. *)
Definition optional_field (name : str) (v : option str) : list (str * str) :=
  match v with
  | Some (c :: s) => [(name, escape_go_string (c :: s))]
  | _ => []
  end.

Definition mandatory_fields (r : rule) : list (str * str) :=
  [ (lit "Xid", str_of_int (xid r));
    (lit "Unit", escape_go_string (unit_ r));
    (lit "IntrinfoPatternV1", escape_go_string (intrinfo_v1 r));
    (lit "IntrinfoPatternV2", escape_go_string (intrinfo_v2 r));
    (lit "ErrorStatus", lit "0x" ++ format_08x (error_status r));
    (lit "Resolution", escape_go_string (resolution r));
    (lit "Investigatory", escape_go_string (rule_investigatory r));
    (lit "Severity", escape_go_string (severity r)) ].

Definition rule_fields (r : rule) : list (str * str) :=
  mandatory_fields r
  ++ optional_field (lit "Action2") (action2 r)
  ++ optional_field (lit "HwSw") (hw_sw r)
  ++ optional_field (lit "LocalRemote") (local_remote r).

Definition render_field (f : str * str) : str := fst f ++ lit ": " ++ snd f.

Definition render_literal (fields : list (str * str)) : str :=
  [TAB] ++ lit "{" ++ join (lit ", ") (List.map render_field fields) ++ lit "},".

(** ** The orders of the emitted lists *)

Definition entry_le (a b : entry) : Prop := (code a <= code b)%Z.

(** [(xid, unit, error_status)] of [a] is not above that of [b],
    lexicographically. *)
Definition rule_le (a b : rule) : Prop :=
  (xid a < xid b)%Z \/
  (xid a = xid b /\
   (str_lt (unit_ a) (unit_ b) \/
    (unit_ a = unit_ b /\ (error_status a <= error_status b)%Z))).

(** The value of a text of lowercase hexadecimal digits; [None] when a
    character is not such a digit. *)
Definition hex_digit_value (c : char) : option N :=
  if ((48 <=? c) && (c <=? 57))%N then Some (c - 48)%N
  else if ((97 <=? c) && (c <=? 102))%N then Some (c - 87)%N
  else None.

Fixpoint hex_value_from (acc : N) (s : str) : option N :=
  match s with
  | [] => Some acc
  | c :: s' =>
      match hex_digit_value c with
      | Some d => hex_value_from (acc * 16 + d) s'
      | None => None
      end
  end.

Definition hex_value (s : str) : option N := hex_value_from 0 s.

(** ** Rows, cell by cell *)

(** The cell of column [i] in a row once padded to the header's width. *)
Definition cell_at (width : nat) (row : list str) (i : nat) : str :=
  nth i (pad width row) [].

Definition catalog_in_range (width : nat) (ix : catalog_columns) : Prop :=
  (idx_type ix < width /\ idx_code ix < width /\ idx_mnemonic ix < width /\
   idx_desc ix < width /\ idx_imm ix < width /\ idx_inv ix < width)%nat.

Definition option_in_range (width : nat) (i : option nat) : Prop :=
  match i with
  | Some n => (n < width)%nat
  | None => True
  end.

Definition nvlink_in_range (width : nat) (ix : nvlink_columns) : Prop :=
  (idx_xid ix < width /\ idx_subcode ix < width /\ idx_intrinfo_v1 ix < width /\
   idx_intrinfo_v2 ix < width /\ idx_error_status ix < width /\
   idx_resolution ix < width /\ idx_investigatory ix < width /\
   idx_severity ix < width)%nat /\
  option_in_range width (idx_action2 ix) /\
  option_in_range width (idx_hw_sw ix) /\
  option_in_range width (idx_local_remote ix).

(** A character [int] reads as a decimal digit. *)
Definition isdecimal_char (U : UnicodeData) (c : char) : bool :=
  if (c <? 128)%N then ((48 <=? c) && (c <=? 57))%N
  else negb (uni_isspace U c) &&
       match uni_todecimal U c with Some _ => true | None => false end.

Definition ascii_digit (c : char) : Prop := (48 <= c <= 57)%N.

(** ** Sample sheets *)

Definition catalog_header : list str :=
  [col_type; col_code; col_mnemonic; col_description; col_immediate;
   col_investigatory].

Definition nvlink_header : list str :=
  [col_xid; col_subcode; col_intrinfo_v1; col_intrinfo_v2; col_error_status;
   col_resolution; col_action2; col_investigatory; col_severity; col_hw_sw;
   col_local_remote].

(** The header of the rule sheet without the column "Action 2". *)
Definition nvlink_header_no_action2 : list str :=
  [col_xid; col_subcode; col_intrinfo_v1; col_intrinfo_v2; col_error_status;
   col_resolution; col_investigatory; col_severity; col_hw_sw;
   col_local_remote].

Definition catalog_row_79 : list str :=
  [lit "XID"; lit "79"; lit "GPU has fallen off the bus"; lit "..."; lit "Reset";
   lit "Check PCIe"].

Definition catalog_row_13 : list str :=
  [lit "XID"; lit "13"; lit " Graphics Engine Exception "; lit "..."; lit "Restart";
   lit "Check app"].

(** A second row with code 79. *)
Definition catalog_row_79_again : list str :=
  [lit "XID"; lit "79"; lit "duplicate"; lit "..."; lit "Reset"; lit "Check PCIe"].

(** A row whose type is not XID, and a short row. *)
Definition catalog_row_other : list str :=
  [lit "SXID"; lit "20"; lit "other"; lit "..."; lit "None"; lit "None"].
Definition catalog_row_short : list str := [lit "XID"].

(** A row whose code is the single character SUPERSCRIPT TWO (U+00B2). *)
Definition catalog_row_superscript : list str :=
  [lit "XID"; [178%N]; lit "squared"; lit "..."; lit "Reset"; lit "Check"].

Definition catalog_sheet : grid :=
  [catalog_header; catalog_row_79; catalog_row_other; catalog_row_13;
   catalog_row_short].

Definition catalog_sheet_duplicate : grid :=
  [catalog_header; catalog_row_79; catalog_row_13; catalog_row_79_again].

Definition catalog_sheet_superscript : grid :=
  [catalog_header; catalog_row_79; catalog_row_superscript].

Definition nvlink_row_with (x u status : str) : list str :=
  [x; u; lit "0---1"; lit "-0--1"; status; lit "RESET_GPU"; lit "act";
   lit "CHECK_LINK"; lit "Fatal"; lit "HW"; lit "Local"].

Definition nvlink_sheet : grid :=
  [nvlink_header;
   nvlink_row_with (lit "145") (lit "RLW") (lit "0x1A");
   nvlink_row_with (lit "144") (lit "TLW") (lit "N/A");
   nvlink_row_with (lit " 144 ") (lit "NETIR") (lit "");
   nvlink_row_with (lit "144") (lit "") (lit "0x2")].

Definition nvlink_sheet_superscript : grid :=
  [nvlink_header; nvlink_row_with [178%N] (lit "RLW") (lit "0x1A")].

Definition nvlink_sheet_wide_status : grid :=
  [nvlink_header; nvlink_row_with (lit "145") (lit "RLW") (lit "0x100000000")].

Definition nvlink_sheet_no_action2 : grid :=
  [nvlink_header_no_action2;
   [lit "145"; lit "RLW"; lit "0---1"; lit "-0--1"; lit "0x1A"; lit "RESET_GPU";
    lit "CHECK_LINK"; lit "Fatal"; lit ""; lit "Local"]].

(** The records the two builders make of a padded row, given the integers
    read from it. *)
Definition entry_of_row (U : UnicodeData) (width : nat) (ix : catalog_columns)
  (row : list str) (c : Z) : entry :=
  {| code := c;
     mnemonic := strip U (cell_at width row (idx_mnemonic ix));
     description := strip U (cell_at width row (idx_desc ix));
     immediate := strip U (cell_at width row (idx_imm ix));
     investigatory := strip U (cell_at width row (idx_inv ix)) |}.

Definition optional_value (U : UnicodeData) (width : nat) (row : list str)
  (i : option nat) : option str :=
  match i with
  | Some n => Some (strip U (cell_at width row n))
  | None => None
  end.

Definition rule_of_row (U : UnicodeData) (width : nat) (ix : nvlink_columns)
  (row : list str) (xv es : Z) : rule :=
  {| xid := xv;
     unit_ := strip U (cell_at width row (idx_subcode ix));
     intrinfo_v1 := strip U (cell_at width row (idx_intrinfo_v1 ix));
     intrinfo_v2 := strip U (cell_at width row (idx_intrinfo_v2 ix));
     error_status := es;
     resolution := strip U (cell_at width row (idx_resolution ix));
     rule_investigatory := strip U (cell_at width row (idx_investigatory ix));
     severity := strip U (cell_at width row (idx_severity ix));
     action2 := optional_value U width row (idx_action2 ix);
     hw_sw := optional_value U width row (idx_hw_sw ix);
     local_remote := optional_value U width row (idx_local_remote ix) |}.

(** The text the hexadecimal conversion is given:
    [row[idx_error_status].strip() or "0x0"]. *)
Definition error_status_text (U : UnicodeData) (width : nat) (ix : nvlink_columns)
  (row : list str) : str :=
  or_default (strip U (cell_at width row (idx_error_status ix))) (lit "0x0").

(** The entries of the sample rows. *)
Definition entry_79 : entry :=
  {| code := 79; mnemonic := lit "GPU has fallen off the bus";
     description := lit "..."; immediate := lit "Reset";
     investigatory := lit "Check PCIe" |}.

Definition entry_13 : entry :=
  {| code := 13; mnemonic := lit "Graphics Engine Exception";
     description := lit "..."; immediate := lit "Restart";
     investigatory := lit "Check app" |}.

Definition entry_79_again : entry :=
  {| code := 79; mnemonic := lit "duplicate";
     description := lit "..."; immediate := lit "Reset";
     investigatory := lit "Check PCIe" |}.

(** The columns of the sample header of the rule sheet. *)
Definition nvlink_sample_columns : nvlink_columns :=
  {| idx_xid := 0; idx_subcode := 1; idx_intrinfo_v1 := 2; idx_intrinfo_v2 := 3;
     idx_error_status := 4; idx_resolution := 5; idx_action2 := Some 6;
     idx_investigatory := 7; idx_severity := 8; idx_hw_sw := Some 9;
     idx_local_remote := Some 10 |}.

Definition nvlink_row_1A : list str :=
  nvlink_row_with (lit "145") (lit "RLW") (lit "0x1A").
Definition nvlink_row_NA : list str :=
  nvlink_row_with (lit "144") (lit "TLW") (lit "N/A").
Definition nvlink_row_blank : list str :=
  nvlink_row_with (lit " 144 ") (lit "NETIR") (lit "  ").

(** The column names each builder looks up without a guard. *)
Definition catalog_required : list str :=
  [col_type; col_code; col_mnemonic; col_description; col_immediate;
   col_investigatory].

Definition nvlink_required : list str :=
  [col_xid; col_subcode; col_intrinfo_v1; col_intrinfo_v2; col_error_status;
   col_resolution; col_investigatory; col_severity].

(** A sheet whose cells hold their values inline, and a run on two such
    sheets with an output file already there. *)
Definition inline_sheet (g : grid) : sheet_xml :=
  List.map (List.map (fun s => {| cell_t := None; cell_v := Some (Some s) |})) g.

Definition sample_world (g1 g2 : grid) : world :=
  {| argv := [lit "gen.py"; lit "Xid-Catalog.xlsx"; lit "catalog_generated.go"];
     xlsx_is_file := true;
     shared_strings := [];
     sheet1_xml := inline_sheet g1;
     sheet2_xml := inline_sheet g2;
     clock := lit "2025-01-01T00:00:00";
     output_file := Some (lit "package xid") |}.

(** A catalog sheet whose header has no column "Code". *)
Definition catalog_sheet_no_code : grid :=
  [[col_type; col_mnemonic; col_description; col_immediate; col_investigatory];
   [lit "XID"; lit "GPU has fallen off the bus"; lit "..."; lit "Reset";
    lit "Check PCIe"]].

(** What the three replacements of [escape_go_string] make of one
    character. *)
Definition escape_char (c : char) : str :=
  if N.eqb c BSL then [BSL; BSL]
  else if N.eqb c DQ then [BSL; DQ]
  else if N.eqb c NL then [BSL; 110%N]
  else [c].

(** A mnemonic with a double quote, a newline and a backslash. *)
Definition quoted_mnemonic : str :=
  lit "say " ++ [DQ] ++ lit "hi" ++ [DQ] ++ [NL] ++ lit "C:" ++ [BSL] ++ lit "n".

(** The names of the mandatory fields of a rule literal, in order. *)
Definition mandatory_names : list str :=
  [lit "Xid"; lit "Unit"; lit "IntrinfoPatternV1"; lit "IntrinfoPatternV2";
   lit "ErrorStatus"; lit "Resolution"; lit "Investigatory"; lit "Severity"].

(** The header has the column [name] and the trimmed cell of the row under
    it is not empty. *)
Definition column_filled (U : UnicodeData) (header row : list str) (name : str)
  : bool :=
  match index header name with
  | Ok i =>
      match strip U (cell_at (length header) row i) with
      | [] => false
      | _ :: _ => true
      end
  | Raise _ => false
  end.

Definition name_if (b : bool) (name : str) : list str :=
  if b then [name] else [].

(** ** The text around the timestamp *)

(** The first line of the output with its newline, and everything after
    the second line: neither mentions the clock. *)
Definition write_go_head : str :=
  lit "// Code generated by gen-catalog/gen.py; DO NOT EDIT." ++ [NL].

Definition write_go_rest_lines (entries : list entry) (rules : list rule)
  : list str :=
  [ [];
    lit "package xid";
    [];
    lit "// catalogEntries mirrors NVIDIA's XID catalog (sheet: " ++ [DQ] ++
      lit "Catalog" ++ [DQ] ++ lit ").";
    lit "var catalogEntries = []catalogEntry{" ]
  ++ List.map entry_line entries
  ++ [ lit "}";
       [];
       lit "// nvlinkRules captures the NVLink5-specific decode table (sheet: " ++
         [DQ] ++ lit "XID 144-150 Decode" ++ [DQ] ++ lit ").";
       lit "var nvlinkRules = []nvlinkRule{" ]
  ++ List.map rule_line rules
  ++ [ lit "}"; [] ].

Definition write_go_tail (entries : list entry) (rules : list rule) : str :=
  [NL] ++ join [NL] (write_go_rest_lines entries rules).

(** Two runs read the same archive. *)
Definition same_archive (w w' : world) : Prop :=
  argv w = argv w' /\ xlsx_is_file w = xlsx_is_file w' /\
  shared_strings w = shared_strings w' /\
  sheet1_xml w = sheet1_xml w' /\ sheet2_xml w = sheet2_xml w'.

(** ** Cells that refer to the shared strings *)

Definition shared_cell (text : str) : cell :=
  {| cell_t := Some (lit "s"); cell_v := Some (Some text) |}.

(** The text of a cell is no index into the table: [int] does not read it,
    or the integer is outside the indices of the list (the negative ones
    included). *)
Definition bad_index (U : UnicodeData) (shared : list str) (text : str) : Prop :=
  match py_int U 10 text with
  | None => True
  | Some idx =>
      (idx < - Z.of_nat (length shared))%Z \/ (Z.of_nat (length shared) <= idx)%Z
  end.

Definition sample_shared : list str := [lit "XID"; lit "Code"].

Definition sheet_out_of_range : sheet_xml :=
  [[shared_cell (lit "0"); shared_cell (lit "1")];
   [shared_cell (lit "0"); shared_cell (lit "7")]].

Definition sheet_not_numeric : sheet_xml :=
  [[shared_cell (lit "0"); shared_cell (lit "one")]].

Definition world_with_sheet1 (sheet : sheet_xml) : world :=
  {| argv := [lit "gen.py"; lit "Xid-Catalog.xlsx"; lit "catalog_generated.go"];
     xlsx_is_file := true;
     shared_strings := sample_shared;
     sheet1_xml := sheet;
     sheet2_xml := inline_sheet nvlink_sheet;
     clock := lit "2025-01-01T00:00:00";
     output_file := Some (lit "package xid") |}.

(** The row of the sheet without "Action 2": its "HW/SW" cell is empty. *)
Definition nvlink_row_no_action2 : list str :=
  [lit "145"; lit "RLW"; lit "0---1"; lit "-0--1"; lit "0x1A"; lit "RESET_GPU";
   lit "CHECK_LINK"; lit "Fatal"; lit ""; lit "Local"].

Definition nvlink_no_action2_columns : nvlink_columns :=
  {| idx_xid := 0; idx_subcode := 1; idx_intrinfo_v1 := 2; idx_intrinfo_v2 := 3;
     idx_error_status := 4; idx_resolution := 5; idx_action2 := None;
     idx_investigatory := 6; idx_severity := 7; idx_hw_sw := Some 8;
     idx_local_remote := Some 9 |}.

Definition rule_no_action2 : rule :=
  {| xid := 145; unit_ := lit "RLW"; intrinfo_v1 := lit "0---1";
     intrinfo_v2 := lit "-0--1"; error_status := 26;
     resolution := lit "RESET_GPU"; rule_investigatory := lit "CHECK_LINK";
     severity := lit "Fatal"; action2 := None; hw_sw := Some [];
     local_remote := Some (lit "Local") |}.

(** A text between double quotes. *)
Definition quoted (s : String.string) : str := [DQ] ++ lit s ++ [DQ].

(** The same run at another time, the output path empty. *)
Definition sample_world_later (g1 g2 : grid) : world :=
  {| argv := argv (sample_world g1 g2);
     xlsx_is_file := xlsx_is_file (sample_world g1 g2);
     shared_strings := shared_strings (sample_world g1 g2);
     sheet1_xml := sheet1_xml (sample_world g1 g2);
     sheet2_xml := sheet2_xml (sample_world g1 g2);
     clock := lit "2026-06-30T12:00:00";
     output_file := None |}.

(** ** The shared-string part *)

(** An element of a parsed document: its tag, its text and its children. *)
Unset Elimination Schemes.
Inductive xml := Element (tag : str) (text : option str) (children : list xml).
Set Elimination Schemes.

Definition xml_tag (e : xml) : str := match e with Element t _ _ => t end.
Definition xml_text (e : xml) : option str := match e with Element _ t _ => t end.
Definition xml_children (e : xml) : list xml := match e with Element _ _ cs => cs end.

(** A tag of the namespace [NS["main"]]. *)
Definition main_tag (name : String.string) : str :=
  lit "{http://schemas.openxmlformats.org/spreadsheetml/2006/main}" ++ lit name.

(** [e.findall("main:name", NS)]: the children of [e] with that tag. *)
Definition findall_children (tag : str) (e : xml) : list xml :=
  filter (fun c => str_eqb (xml_tag c) tag) (xml_children e).

(** The elements below [e], in document order. *)
Fixpoint descendants (e : xml) : list xml :=
  match e with
  | Element _ _ cs => flat_map (fun c => c :: descendants c) cs
  end.

(** [e.findall(".//main:name", NS)] *)
Definition findall_descendants (tag : str) (e : xml) : list xml :=
  filter (fun c => str_eqb (xml_tag c) tag) (descendants e).

(** The inner loop: the texts of the [t] elements below [si] that have
    one. *)
Definition text_fragments (si : xml) : list str :=
  flat_map (fun node => match xml_text node with
                        | Some (c :: s) => [c :: s]
                        | _ => []
                        end)
           (findall_descendants (main_tag "t") si).

(** [load_shared_strings]; [None] is an archive without the part
    xl/sharedStrings.xml. *)
Definition load_shared_strings (part : option xml) : list str :=
  match part with
  | None => []
  | Some root =>
      List.map (fun si => concat (text_fragments si))
               (findall_children (main_tag "si") root)
  end.

(** A cell whose value [read_sheet] looks up in the shared strings, and the
    value of a cell it does not look up. *)
Definition needs_lookup (c : cell) : bool :=
  match cell_v c, cell_t c with
  | Some _, Some t => str_eqb t (lit "s")
  | _, _ => false
  end.

Definition literal_value (c : cell) : str :=
  match cell_v c with
  | Some (Some s) => s
  | _ => []
  end.

(** Sample shared strings: a plain item, an item of two runs with a
    phonetic run, and an item without text. *)
Definition t_node (s : String.string) : xml := Element (main_tag "t") (Some (lit s)) [].

Definition sample_shared_part : xml :=
  Element (main_tag "sst") None
    [ Element (main_tag "si") None [t_node "XID"];
      Element (main_tag "si") None
        [ Element (main_tag "r") None [t_node "Co"];
          Element (main_tag "r") None
            [Element (main_tag "rPr") None []; t_node "de"] ];
      Element (main_tag "si") None [Element (main_tag "t") None []];
      Element (main_tag "si") None [t_node "Mnemonic"] ].

Definition sheet_mixed : sheet_xml :=
  [ [ {| cell_t := Some (lit "str"); cell_v := Some (Some (lit "Type")) |};
      {| cell_t := None; cell_v := None |};
      {| cell_t := Some (lit "s"); cell_v := None |};
      {| cell_t := None; cell_v := Some None |} ];
    [];
    [ {| cell_t := Some (lit "n"); cell_v := Some (Some (lit "79")) |} ] ].

(** [not values] on a row of values *)
Definition is_empty_row (row : list str) : bool :=
  match row with
  | [] => true
  | _ :: _ => false
  end.

(** ** Properties of the records *)

(** A text neither begins nor ends with a whitespace character. *)
Definition trimmed (U : UnicodeData) (s : str) : Prop :=
  (forall c t, s = c :: t -> isspace_char U c = false) /\
  (forall c t, s = t ++ [c] -> isspace_char U c = false).

Definition trimmed_option (U : UnicodeData) (v : option str) : Prop :=
  match v with
  | Some s => trimmed U s
  | None => True
  end.

Definition entry_trimmed (U : UnicodeData) (e : entry) : Prop :=
  trimmed U (mnemonic e) /\ trimmed U (description e) /\
  trimmed U (immediate e) /\ trimmed U (investigatory e).

Definition rule_trimmed (U : UnicodeData) (r : rule) : Prop :=
  trimmed U (unit_ r) /\ trimmed U (intrinfo_v1 r) /\ trimmed U (intrinfo_v2 r) /\
  trimmed U (resolution r) /\ trimmed U (rule_investigatory r) /\
  trimmed U (severity r) /\ trimmed_option U (action2 r) /\
  trimmed_option U (hw_sw r) /\ trimmed_option U (local_remote r).

(** Two sort keys of rules are equal. *)
Definition key_eqb (a b : Z * str * Z) : bool :=
  let '(x1, u1, e1) := a in
  let '(x2, u2, e2) := b in
  Z.eqb x1 x2 && str_eqb u1 u2 && Z.eqb e1 e2.

(** [name] is at position [i] of the header and nowhere before. *)
Definition first_position (header : list str) (name : str) (i : nat) : Prop :=
  nth_error header i = Some name /\
  forall j, (j < i)%nat -> nth_error header j <> Some name.

Definition first_position_option (header : list str) (name : str)
  (i : option nat) : Prop :=
  match i with
  | Some n => first_position header name n
  | None => ~ In name header
  end.

(** Two rows hold the same cells under the columns of the header, a
    missing cell counting as an empty one. *)
Definition same_cells (width : nat) (row row' : list str) : Prop :=
  forall i, (i < width)%nat -> nth i row [] = nth i row' [].

(** A catalog sheet with a column named twice and a row with cells beyond
    the header. *)
Definition catalog_header_twice : list str :=
  [col_type; col_code; col_mnemonic; col_code; col_description; col_immediate;
   col_investigatory].

Definition catalog_row_79_long : list str :=
  catalog_row_79 ++ [lit "beyond"; lit "the header"].

Definition rule_145_1A : rule :=
  {| xid := 145; unit_ := lit "RLW"; intrinfo_v1 := lit "0---1";
     intrinfo_v2 := lit "-0--1"; error_status := 26;
     resolution := lit "RESET_GPU"; rule_investigatory := lit "CHECK_LINK";
     severity := lit "Fatal"; action2 := Some (lit "act");
     hw_sw := Some (lit "HW"); local_remote := Some (lit "Local") |}.

Definition rule_145_1A_again : rule :=
  {| xid := 145; unit_ := lit "RLW"; intrinfo_v1 := lit "1---0";
     intrinfo_v2 := lit "-0--1"; error_status := 26;
     resolution := lit "RESET_GPU"; rule_investigatory := lit "CHECK_LINK";
     severity := lit "Fatal"; action2 := Some (lit "act");
     hw_sw := Some (lit "HW"); local_remote := Some (lit "Local") |}.

Definition nvlink_sheet_ties : grid :=
  [nvlink_header;
   [lit "145"; lit "RLW"; lit "1---0"; lit "-0--1"; lit "1a"; lit "RESET_GPU";
    lit "act"; lit "CHECK_LINK"; lit "Fatal"; lit "HW"; lit "Local"];
   nvlink_row_1A].

(** A sheet whose rows have no cells. *)
Definition sheet_without_cells : sheet_xml := [[]; []].

Definition catalog_sample_columns : catalog_columns :=
  {| idx_type := 0; idx_code := 1; idx_mnemonic := 2; idx_desc := 3;
     idx_imm := 4; idx_inv := 5 |}.

(** ** The lines of the output *)

(** A text without a newline character. *)
Definition one_line (s : str) : bool := forallb (fun c => negb (N.eqb c NL)) s.

(** [text.split("\n")] *)
Fixpoint split_lines (s : str) : list str :=
  match s with
  | [] => [[]]
  | c :: s' =>
      if N.eqb c NL then [] :: split_lines s'
      else match split_lines s' with
           | l :: ls => (c :: l) :: ls
           | [] => [[c]]
           end
  end.

(** A row whose error status is negative, and its rule. *)
Definition nvlink_sheet_negative_status : grid :=
  [nvlink_header; nvlink_row_with (lit "145") (lit "RLW") (lit "-1a")].

(** The value of a text of digits in [base], read from the left with the
    digit values of [int]. *)
Definition digits_value (base : N) (s : str) : N :=
  fold_left (fun acc c => (acc * base + digit_value c)%N) s 0%N.

(** A character [int] takes for a digit of [base]. *)
Definition digit_of (base : N) (c : char) : Prop :=
  c <> 95%N /\ (c < 127)%N /\ (digit_value c < base)%N.

Definition rule_negative_status : rule :=
  {| xid := 145; unit_ := lit "RLW"; intrinfo_v1 := lit "0---1";
     intrinfo_v2 := lit "-0--1"; error_status := -26;
     resolution := lit "RESET_GPU"; rule_investigatory := lit "CHECK_LINK";
     severity := lit "Fatal"; action2 := Some (lit "act");
     hw_sw := Some (lit "HW"); local_remote := Some (lit "Local") |}.

(** ** Reading an entry line back *)

Definition and_then {A B} (m : option A) (k : A -> option B) : option B :=
  match m with
  | Some a => k a
  | None => None
  end.

(** The rest of [s] behind the text [prefix]. *)
Fixpoint expect (prefix s : str) : option str :=
  match prefix, s with
  | [], _ => Some s
  | p :: prefix', c :: s' => if N.eqb p c then expect prefix' s' else None
  | _ :: _, [] => None
  end.

Definition is_ascii_digit (c : char) : bool := ((48 <=? c) && (c <=? 57))%N.

Definition is_hex_digit (c : char) : bool :=
  (((48 <=? c) && (c <=? 57)) || ((97 <=? c) && (c <=? 102)))%N.

(** The longest run of characters that satisfy [p] at the front of a text,
    and the rest. *)
Fixpoint span (p : char -> bool) (s : str) : str * str :=
  match s with
  | c :: s' =>
      if p c
      then let '(d, r) := span p s' in (c :: d, r)
      else ([], s)
  | [] => ([], [])
  end.

(** A minus sign at the front of a text, if there is one. *)
Definition read_sign (s : str) : bool * str :=
  match s with
  | c :: s' => if N.eqb c 45 then (true, s') else (false, s)
  | [] => (false, [])
  end.

(** A number at the front of a text: a minus sign or none, then digits of
    the base that satisfy [p]. *)
Definition read_number (base : N) (p : char -> bool) (s : str) : option (Z * str) :=
  let '(neg, s1) := read_sign s in
  match span p s1 with
  | ([], _) => None
  | (d, rest) =>
      Some (if neg then (- Z.of_N (digits_value base d))%Z
            else Z.of_N (digits_value base d), rest)
  end.

(** A decimal integer at the front of a text, and what the format 08x
    writes. *)
Definition read_int (s : str) : option (Z * str) := read_number 10 is_ascii_digit s.
Definition read_08x (s : str) : option (Z * str) := read_number 16 is_hex_digit s.

(** A string literal at the front of a text: as [decode_body], up to the
    closing quote, with the rest behind it. *)
Fixpoint read_body (s : str) : option (str * str) :=
  match s with
  | [] => None
  | c :: s' =>
      if N.eqb c DQ then Some ([], s')
      else if N.eqb c NL then None
      else if N.eqb c BSL then
        match s' with
        | e :: s'' =>
            match unescape_char e, read_body s'' with
            | Some d, Some (t, r) => Some (d :: t, r)
            | _, _ => None
            end
        | [] => None
        end
      else
        match read_body s' with
        | Some (t, r) => Some (c :: t, r)
        | None => None
        end
  end.

Definition read_literal (s : str) : option (str * str) :=
  match s with
  | c :: body => if N.eqb c DQ then read_body body else None
  | [] => None
  end.

(** The entry of a line of the table [catalogEntries]. *)
Definition parse_entry_line (line : str) : option entry :=
  and_then (expect ([TAB] ++ lit "{Code: ") line) (fun s =>
  and_then (read_int s) (fun '(c, s) =>
  and_then (expect (lit ", Mnemonic: ") s) (fun s =>
  and_then (read_literal s) (fun '(m, s) =>
  and_then (expect (lit ", Description: ") s) (fun s =>
  and_then (read_literal s) (fun '(d, s) =>
  and_then (expect (lit ", ImmediateResolution: ") s) (fun s =>
  and_then (read_literal s) (fun '(imm, s) =>
  and_then (expect (lit ", InvestigatoryResolution: ") s) (fun s =>
  and_then (read_literal s) (fun '(inv, s) =>
  and_then (expect (lit ",},") s) (fun s =>
  match s with
  | [] => Some {| code := c; mnemonic := m; description := d;
                  immediate := imm; investigatory := inv |}
  | _ :: _ => None
  end))))))))))).

(** An entry whose texts hold quotes, commas and field names. *)
Definition entry_tricky : entry :=
  {| code := 79;
     mnemonic := lit "a" ++ [DQ] ++ lit ", Description: " ++ [DQ; BSL];
     description := [NL] ++ lit ",},";
     immediate := [];
     investigatory := [BSL; DQ] |}.

(** ** Reading a rule line back *)

(** An optional field at the front of a text: its value when the text goes
    on with [prefix], nothing otherwise. *)
Definition read_optional (prefix s : str) : option (option str * str) :=
  match expect prefix s with
  | Some s' => and_then (read_literal s') (fun '(v, r) => Some (Some v, r))
  | None => Some (None, s)
  end.

(** What the emitter shows of an optional value: an empty text is not
    told from an absent key. *)
Definition shown_option (v : option str) : option str :=
  match v with
  | Some (c :: s) => Some (c :: s)
  | _ => None
  end.

Definition shown_rule (r : rule) : rule :=
  {| xid := xid r; unit_ := unit_ r; intrinfo_v1 := intrinfo_v1 r;
     intrinfo_v2 := intrinfo_v2 r; error_status := error_status r;
     resolution := resolution r; rule_investigatory := rule_investigatory r;
     severity := severity r;
     action2 := shown_option (action2 r);
     hw_sw := shown_option (hw_sw r);
     local_remote := shown_option (local_remote r) |}.

(** The text [append_optional] adds to a line. *)
Definition optional_text (prefix : str) (v : option str) : str :=
  match v with
  | Some (c :: s) => prefix ++ escape_go_string (c :: s)
  | _ => []
  end.

(** The rule of a line of the table [nvlinkRules]. *)
Definition parse_rule_line (line : str) : option rule :=
  and_then (expect ([TAB] ++ lit "{Xid: ") line) (fun s =>
  and_then (read_int s) (fun '(x, s) =>
  and_then (expect (lit ", Unit: ") s) (fun s =>
  and_then (read_literal s) (fun '(u, s) =>
  and_then (expect (lit ", IntrinfoPatternV1: ") s) (fun s =>
  and_then (read_literal s) (fun '(v1, s) =>
  and_then (expect (lit ", IntrinfoPatternV2: ") s) (fun s =>
  and_then (read_literal s) (fun '(v2, s) =>
  and_then (expect (lit ", ErrorStatus: 0x") s) (fun s =>
  and_then (read_08x s) (fun '(es, s) =>
  and_then (expect (lit ", Resolution: ") s) (fun s =>
  and_then (read_literal s) (fun '(res, s) =>
  and_then (expect (lit ", Investigatory: ") s) (fun s =>
  and_then (read_literal s) (fun '(inv, s) =>
  and_then (expect (lit ", Severity: ") s) (fun s =>
  and_then (read_literal s) (fun '(sev, s) =>
  and_then (read_optional (lit ", Action2: ") s) (fun '(a2, s) =>
  and_then (read_optional (lit ", HwSw: ") s) (fun '(hw, s) =>
  and_then (read_optional (lit ", LocalRemote: ") s) (fun '(lr, s) =>
  and_then (expect (lit "},") s) (fun s =>
  match s with
  | [] => Some {| xid := x; unit_ := u; intrinfo_v1 := v1; intrinfo_v2 := v2;
                  error_status := es; resolution := res;
                  rule_investigatory := inv; severity := sev;
                  action2 := a2; hw_sw := hw; local_remote := lr |}
  | _ :: _ => None
  end)))))))))))))))))))).

(** A rule whose texts hold field names, and whose error status is
    negative. *)
Definition rule_tricky : rule :=
  {| xid := 149; unit_ := lit ", Action2: " ++ [DQ] ++ lit "x" ++ [DQ];
     intrinfo_v1 := []; intrinfo_v2 := lit "},"; error_status := -1;
     resolution := [BSL]; rule_investigatory := [NL]; severity := [DQ];
     action2 := Some []; hw_sw := None;
     local_remote := Some (lit ", HwSw: ") |}.

(** * Properties *)

(** ** Strings and their order *)

Lemma str_eqb_eq (a b : str) : str_eqb a b = true <-> a = b.
Proof.
  revert b; induction a as [|x a IH]; intros [|y b]; simpl; split;
    try congruence; try reflexivity.
  - intros H. apply andb_true_iff in H as [Hx Ha].
    apply N.eqb_eq in Hx. apply IH in Ha. congruence.
  - intros H. injection H as -> ->. rewrite N.eqb_refl. simpl. now apply IH.
Qed.

Lemma str_eqb_refl (a : str) : str_eqb a a = true.
Proof. now apply str_eqb_eq. Qed.

Lemma str_eqb_neq (a b : str) : str_eqb a b = false <-> a <> b.
Proof.
  split.
  - intros H E. apply str_eqb_eq in E. congruence.
  - intros H. destruct (str_eqb a b) eqn:E; [|reflexivity].
    apply str_eqb_eq in E. contradiction.
Qed.

Lemma str_ltb_lt (a b : str) : str_ltb a b = true <-> str_lt a b.
Proof.
  revert b; induction a as [|x a IH]; intros [|y b]; simpl.
  - split; [discriminate | intros H; inversion H].
  - split; [constructor | reflexivity].
  - split; [discriminate | intros H; inversion H].
  - destruct (N.eqb_spec x y) as [->|Hxy].
    + rewrite IH. split.
      * apply str_lt_tail.
      * intros H; inversion H; subst; [lia | assumption].
    + rewrite N.ltb_lt. split.
      * apply str_lt_head.
      * intros H; inversion H; subst; [assumption | contradiction].
Qed.

Lemma str_lt_irrefl (a : str) : ~ str_lt a a.
Proof.
  induction a as [|x a IH]; intros H; inversion H; subst; [lia | auto].
Qed.

Lemma str_lt_trans (a b c : str) : str_lt a b -> str_lt b c -> str_lt a c.
Proof.
  intros Hab; revert c; induction Hab; intros c Hbc; inversion Hbc; subst.
  - constructor.
  - constructor.
  - apply str_lt_head; lia.
  - now apply str_lt_head.
  - now apply str_lt_head.
  - apply str_lt_tail; auto.
Qed.

Lemma str_lt_total (a b : str) : str_lt a b \/ a = b \/ str_lt b a.
Proof.
  revert b; induction a as [|x a IH]; intros [|y b].
  - auto.
  - left; constructor.
  - right; right; constructor.
  - destruct (N.lt_total x y) as [H|[->|H]].
    + left; now apply str_lt_head.
    + destruct (IH b) as [H|[->|H]].
      * left; now apply str_lt_tail.
      * auto.
      * right; right; now apply str_lt_tail.
    + right; right; now apply str_lt_head.
Qed.

(** ** The stable sort *)

Section SortPerm.

Variables (A K : Type) (key : A -> K) (ltb : K -> K -> bool).

Lemma insert_by_perm (x : A) (l : list A) :
  Permutation (x :: l) (insert_by key ltb x l).
Proof.
  induction l as [|y l IH]; simpl.
  - reflexivity.
  - destruct (ltb (key y) (key x)).
    + rewrite perm_swap. now apply perm_skip.
    + reflexivity.
Qed.

Lemma sort_by_perm (l : list A) : Permutation l (sort_by key ltb l).
Proof.
  induction l as [|x l IH]; simpl.
  - reflexivity.
  - rewrite <- insert_by_perm. now apply perm_skip.
Qed.

End SortPerm.

Section SortSorted.

Variables (A K : Type) (key : A -> K) (ltb : K -> K -> bool).
Variable le : A -> A -> Prop.
Hypothesis ltb_true_le : forall a b, ltb (key a) (key b) = true -> le a b.
Hypothesis ltb_false_le : forall a b, ltb (key a) (key b) = false -> le b a.
Hypothesis le_trans : forall a b c, le a b -> le b c -> le a c.

Lemma insert_by_hdrel (a x : A) (l : list A) :
  HdRel le a l -> le a x -> HdRel le a (insert_by key ltb x l).
Proof.
  intros Hl Hx. destruct l as [|y l]; simpl.
  - now constructor.
  - destruct (ltb (key y) (key x)).
    + constructor. now inversion Hl.
    + now constructor.
Qed.

Lemma insert_by_sorted (x : A) (l : list A) :
  Sorted le l -> Sorted le (insert_by key ltb x l).
Proof.
  induction l as [|y l IH]; simpl; intros Hs.
  - repeat constructor.
  - destruct (ltb (key y) (key x)) eqn:E.
    + inversion Hs; subst. constructor.
      * now apply IH.
      * apply insert_by_hdrel; [assumption | now apply ltb_true_le].
    + constructor; [assumption | constructor; now apply ltb_false_le].
Qed.

Lemma sort_by_sorted (l : list A) : Sorted le (sort_by key ltb l).
Proof.
  induction l as [|x l IH]; simpl.
  - constructor.
  - now apply insert_by_sorted.
Qed.

Lemma sort_by_strongly_sorted (l : list A) :
  StronglySorted le (sort_by key ltb l).
Proof.
  apply Sorted_StronglySorted.
  - exact le_trans.
  - apply sort_by_sorted.
Qed.

End SortSorted.

(** ** The two sort keys *)

Lemma code_ltb_true (a b : entry) : Z.ltb (code a) (code b) = true -> entry_le a b.
Proof. unfold entry_le. rewrite Z.ltb_lt. lia. Qed.

Lemma code_ltb_false (a b : entry) : Z.ltb (code a) (code b) = false -> entry_le b a.
Proof. unfold entry_le. rewrite Z.ltb_ge. lia. Qed.

Lemma entry_le_trans (a b c : entry) : entry_le a b -> entry_le b c -> entry_le a c.
Proof. unfold entry_le. lia. Qed.

Lemma key_ltb_true (a b : rule) :
  key_ltb (rule_key a) (rule_key b) = true -> rule_le a b.
Proof.
  unfold key_ltb, rule_key, rule_le.
  destruct (Z.eqb_spec (xid a) (xid b)) as [Ex|Ex]; simpl.
  - destruct (str_eqb (unit_ a) (unit_ b)) eqn:Eu; simpl.
    + apply str_eqb_eq in Eu. rewrite Z.ltb_lt. intros H. right. split; [assumption|].
      right. split; [assumption | lia].
    + rewrite str_ltb_lt. intros H. right. split; [assumption | now left].
  - rewrite Z.ltb_lt. now left.
Qed.

Lemma key_ltb_false (a b : rule) :
  key_ltb (rule_key a) (rule_key b) = false -> rule_le b a.
Proof.
  unfold key_ltb, rule_key, rule_le.
  destruct (Z.eqb_spec (xid a) (xid b)) as [Ex|Ex]; simpl.
  - destruct (str_eqb (unit_ a) (unit_ b)) eqn:Eu; simpl.
    + apply str_eqb_eq in Eu. rewrite Z.ltb_ge. intros H. right.
      split; [congruence|]. right. split; [congruence | lia].
    + apply str_eqb_neq in Eu. intros H. right. split; [congruence|]. left.
      destruct (str_lt_total (unit_ a) (unit_ b)) as [L|[E|L]].
      * apply str_ltb_lt in L. congruence.
      * contradiction.
      * assumption.
  - rewrite Z.ltb_ge. intros H. left. lia.
Qed.

Lemma rule_le_trans (a b c : rule) : rule_le a b -> rule_le b c -> rule_le a c.
Proof.
  unfold rule_le.
  intros [H1|[E1 [U1|[V1 W1]]]] [H2|[E2 [U2|[V2 W2]]]];
    try (left; lia).
  - right. split; [lia|]. left. eapply str_lt_trans; eassumption.
  - right. split; [lia|]. left. now rewrite <- V2.
  - right. split; [lia|]. left. now rewrite V1.
  - right. split; [lia|]. right. split; [congruence | lia].
Qed.

(** ** The error monad and the loops *)

Lemma bind_ok {A B} (m : result A) (k : A -> result B) (b : B) :
  bind m k = Ok b -> exists a, m = Ok a /\ k a = Ok b.
Proof. destruct m as [a|e]; simpl; [eauto | discriminate]. Qed.

Lemma collect_app {A B} (body : A -> result (option B)) (l1 l2 : list A) :
  collect body (l1 ++ l2) =
  (r1 <- collect body l1 ;; r2 <- collect body l2 ;; Ok (r1 ++ r2)).
Proof.
  induction l1 as [|a l1 IH]; simpl.
  - destruct (collect body l2); reflexivity.
  - destruct (body a) as [r|e]; simpl; [|reflexivity].
    rewrite IH. destruct (collect body l1) as [r1|e1]; simpl; [|reflexivity].
    destruct (collect body l2) as [r2|e2]; simpl; [|reflexivity].
    destruct r; reflexivity.
Qed.

(** A row on which the body says [continue] leaves the loop's result as it
    is without the row. *)
Lemma collect_skip {A B} (body : A -> result (option B)) (l1 l2 : list A) (a : A) :
  body a = Ok None -> collect body (l1 ++ a :: l2) = collect body (l1 ++ l2).
Proof.
  intros H. rewrite !collect_app. simpl. rewrite H. simpl.
  destruct (collect body l1); simpl; [|reflexivity].
  destruct (collect body l2); reflexivity.
Qed.

Lemma index_from_bound (x : str) (l : list str) (i n : nat) :
  index_from x l i = Ok n -> (i <= n < i + length l)%nat.
Proof.
  revert i; induction l as [|y l IH]; simpl; intros i H.
  - discriminate.
  - destruct (str_eqb y x).
    + injection H as <-. lia.
    + apply IH in H. lia.
Qed.

Lemma index_bound (l : list str) (x : str) (n : nat) :
  index l x = Ok n -> (n < length l)%nat.
Proof. intros H. apply index_from_bound in H. lia. Qed.

Lemma index_from_contains (x : str) (l : list str) (i : nat) :
  contains x l = false <-> index_from x l i = Raise ValueError.
Proof.
  revert i; induction l as [|y l IH]; simpl; intros i.
  - tauto.
  - destruct (str_eqb y x); simpl.
    + split; discriminate.
    + apply IH.
Qed.

Lemma index_missing (l : list str) (x : str) :
  contains x l = false -> index l x = Raise ValueError.
Proof. apply index_from_contains. Qed.

Lemma contains_In (x : str) (l : list str) : contains x l = true <-> In x l.
Proof.
  induction l as [|y l IH]; simpl.
  - split; [discriminate | tauto].
  - rewrite orb_true_iff, IH, str_eqb_eq. tauto.
Qed.

Lemma pad_length (width : nat) (row : list str) : (width <= length (pad width row))%nat.
Proof.
  unfold pad. destruct (Nat.ltb_spec (length row) width).
  - rewrite length_app, repeat_length. lia.
  - assumption.
Qed.

Lemma getitem_pad (width : nat) (row : list str) (i : nat) :
  (i < width)%nat -> getitem (pad width row) i = Ok (cell_at width row i).
Proof.
  intros H. unfold getitem, cell_at.
  rewrite (nth_error_nth' (pad width row) ([] : str)); [reflexivity|].
  pose proof (pad_length width row). lia.
Qed.

(** ** The rows of the two builders *)

Ltac bind_inv H :=
  repeat match type of H with
         | bind _ _ = Ok _ =>
             let a := fresh "a" in
             let Ha := fresh "Ha" in
             apply bind_ok in H as (a & Ha & H)
         end.

Lemma catalog_indices_in_range (header : list str) (ix : catalog_columns) :
  catalog_indices header = Ok ix -> catalog_in_range (length header) ix.
Proof.
  unfold catalog_indices. intros H. bind_inv H. injection H as <-.
  unfold catalog_in_range; simpl.
  repeat split; eapply index_bound; eassumption.
Qed.

Lemma optional_index_in_range (header : list str) (name : str) (i : option nat) :
  optional_index header name = Ok i -> option_in_range (length header) i.
Proof.
  unfold optional_index. destruct (contains name header).
  - intros H. bind_inv H. injection H as <-. simpl. eapply index_bound; eassumption.
  - intros H. injection H as <-. exact I.
Qed.

Lemma nvlink_indices_in_range (header : list str) (ix : nvlink_columns) :
  nvlink_indices header = Ok ix -> nvlink_in_range (length header) ix.
Proof.
  unfold nvlink_indices. intros H. bind_inv H. injection H as <-.
  unfold nvlink_in_range; simpl.
  repeat split;
    try (eapply index_bound; eassumption);
    eapply optional_index_in_range; eassumption.
Qed.

Lemma catalog_row_eq (U : UnicodeData) (width : nat) (ix : catalog_columns)
  (row : list str) :
  catalog_in_range width ix ->
  catalog_row U width ix row =
  if negb (str_eqb (cell_at width row (idx_type ix)) (lit "XID")) then Ok None
  else if is_empty (cell_at width row (idx_code ix))
          || negb (isdigit U (cell_at width row (idx_code ix))) then Ok None
  else match py_int U 10 (cell_at width row (idx_code ix)) with
       | None => Raise ValueError
       | Some c => Ok (Some (entry_of_row U width ix row c))
       end.
Proof.
  intros (Ht & Hc & Hm & Hd & Hi & Hv). unfold catalog_row.
  rewrite (getitem_pad row Ht). simpl.
  destruct (negb (str_eqb _ _)); [reflexivity|].
  rewrite (getitem_pad row Hc). cbn [bind].
  destruct (is_empty _ || negb (isdigit U _)); [reflexivity|].
  unfold int_or_raise. destruct (py_int U 10 _); cbn [bind]; [|reflexivity].
  rewrite (getitem_pad row Hm), (getitem_pad row Hd), (getitem_pad row Hi),
    (getitem_pad row Hv). reflexivity.
Qed.

Lemma optional_cell_eq (U : UnicodeData) (width : nat) (row : list str)
  (i : option nat) :
  option_in_range width i ->
  optional_cell U (pad width row) i = Ok (optional_value U width row i).
Proof.
  destruct i as [n|]; simpl; intros H; [|reflexivity].
  rewrite (getitem_pad row H). reflexivity.
Qed.

Lemma nvlink_row_eq (U : UnicodeData) (width : nat) (ix : nvlink_columns)
  (row : list str) :
  nvlink_in_range width ix ->
  nvlink_row U width ix row =
  if is_empty (strip U (cell_at width row (idx_xid ix)))
     || negb (isdigit U (strip U (cell_at width row (idx_xid ix))))
     || is_empty (strip U (cell_at width row (idx_subcode ix)))
  then Ok None
  else match py_int U 16 (error_status_text U width ix row) with
       | None => Ok None
       | Some es =>
           match py_int U 10 (strip U (cell_at width row (idx_xid ix))) with
           | None => Raise ValueError
           | Some xv => Ok (Some (rule_of_row U width ix row xv es))
           end
       end.
Proof.
  intros ((Hx & Hs & H1 & H2 & He & Hr & Hi & Hv) & Ha & Hh & Hl).
  unfold nvlink_row, error_status_text.
  rewrite (getitem_pad row Hx). cbn [bind].
  rewrite (getitem_pad row Hs). cbn [bind].
  destruct (is_empty _ || negb (isdigit U _) || is_empty _); [reflexivity|].
  rewrite (getitem_pad row He). cbn [bind].
  destruct (py_int U 16 _); [|reflexivity].
  unfold int_or_raise.
  destruct (py_int U 10 _); cbn [bind]; [|reflexivity].
  rewrite (getitem_pad row H1), (getitem_pad row H2), (getitem_pad row Hr),
    (getitem_pad row Hi), (getitem_pad row Hv). cbn [bind].
  rewrite !optional_cell_eq by assumption. cbn [bind].
  reflexivity.
Qed.

(** What a successful run of a builder went through. *)
Lemma build_catalog_entries_ok (U : UnicodeData) (rows : grid) (es : list entry) :
  build_catalog_entries U rows = Ok es ->
  exists header data ix raw,
    rows = header :: data /\
    catalog_indices header = Ok ix /\
    collect (catalog_row U (length header) ix) data = Ok raw /\
    es = sort_by code Z.ltb raw.
Proof.
  unfold build_catalog_entries. intros H. bind_inv H. injection H as <-.
  destruct rows as [|header data]; [discriminate|].
  injection Ha as <-. simpl in *. exists header, data, a0, a1. auto.
Qed.

Lemma build_nvlink_rules_ok (U : UnicodeData) (rows : grid) (rs : list rule) :
  build_nvlink_rules U rows = Ok rs ->
  exists header data ix raw,
    rows = header :: data /\
    nvlink_indices header = Ok ix /\
    collect (nvlink_row U (length header) ix) data = Ok raw /\
    rs = sort_by rule_key key_ltb raw.
Proof.
  unfold build_nvlink_rules. intros H. bind_inv H. injection H as <-.
  destruct rows as [|header data]; [discriminate|].
  injection Ha as <-. simpl in *. exists header, data, a0, a1. auto.
Qed.

(** C1. The list of catalog entries a builder returns is non-decreasing by
    code, and the list of NVLink rules is non-decreasing in the
    lexicographic order of (xid, unit, error status): every element is at
    most every later one. *)
Theorem emitted_lists_sorted (U : UnicodeData) (sheet1 sheet2 : grid) :
  (forall entries, build_catalog_entries U sheet1 = Ok entries ->
                   StronglySorted entry_le entries) /\
  (forall rules, build_nvlink_rules U sheet2 = Ok rules ->
                 StronglySorted rule_le rules).
Proof.
  split.
  - intros entries H.
    apply build_catalog_entries_ok in H as (header & data & ix & raw & _ & _ & _ & ->).
    apply sort_by_strongly_sorted.
    + apply code_ltb_true.
    + apply code_ltb_false.
    + apply entry_le_trans.
  - intros rules H.
    apply build_nvlink_rules_ok in H as (header & data & ix & raw & _ & _ & _ & ->).
    apply sort_by_strongly_sorted.
    + apply key_ltb_true.
    + apply key_ltb_false.
    + apply rule_le_trans.
Qed.

Lemma emitted_lists_sorted_witness :
  exists entries rules,
    build_catalog_entries latin1 catalog_sheet = Ok entries /\
    build_nvlink_rules latin1 nvlink_sheet = Ok rules /\
    List.map code entries = [13%Z; 79%Z] /\
    List.map rule_key rules = [(144%Z, lit "NETIR", 0%Z); (145%Z, lit "RLW", 26%Z)] /\
    StronglySorted entry_le entries /\ StronglySorted rule_le rules.
Proof.
  destruct (emitted_lists_sorted latin1 catalog_sheet nvlink_sheet) as [H1 H2].
  eexists. eexists.
  split; [vm_compute; reflexivity|].
  split; [vm_compute; reflexivity|].
  split; [reflexivity|].
  split; [reflexivity|].
  split; [apply H1; reflexivity | apply H2; reflexivity].
Defined.

(** ** Reading decimal digits *)

Lemma to_ascii_decimal (U : UnicodeData) (c : char) :
  isdecimal_char U c = true ->
  (48 <= to_ascii U c <= 57)%N.
Proof.
  unfold isdecimal_char, to_ascii, isspace_char.
  destruct (N.ltb_spec c 128) as [H|H].
  - intros D. apply andb_true_iff in D as [D1 D2].
    apply N.leb_le in D1, D2.
    destruct (N.ltb_spec c 127); lia.
  - destruct (N.ltb_spec c 127); [lia|].
    destruct (uni_isspace U c); [discriminate|]. cbn [negb andb].
    destruct (uni_todecimal U c) as [d|] eqn:E; [|discriminate].
    intros _. apply uni_decimal_range in E. lia.
Qed.

Lemma isdecimal_isdigit_char (U : UnicodeData) (c : char) :
  isdecimal_char U c = true -> isdigit_char U c = true.
Proof.
  unfold isdecimal_char, isdigit_char.
  destruct (N.ltb c 128); [tauto|].
  destruct (uni_isspace U c); [discriminate|]. simpl.
  destruct (uni_todecimal U c) as [d|] eqn:E; [|discriminate].
  intros _. eapply uni_decimal_isdigit; eassumption.
Qed.

Lemma scan_digits_all (s : str) (acc : N) (n : nat) :
  Forall ascii_digit s ->
  exists v, scan_digits 10 s false acc n = Some (v, (n + length s)%nat, []).
Proof.
  revert acc n; induction s as [|c s IH]; intros acc n H; simpl.
  - exists acc. now rewrite Nat.add_0_r.
  - inversion H as [|? ? Hc Hs]; subst. unfold ascii_digit in Hc.
    destruct (N.eqb_spec c 95); [lia|].
    assert (D : digit_value c = (c - 48)%N).
    { unfold digit_value.
      destruct (N.leb_spec 48 c); [|lia]. destruct (N.leb_spec c 57); [|lia].
      reflexivity. }
    rewrite D. destruct (N.ltb_spec (c - 48) 10); [|lia].
    destruct (IH (acc * 10 + (c - 48))%N (S n) Hs) as [v Hv].
    exists v. rewrite Hv, Nat.add_succ_r. reflexivity.
Qed.

Lemma PyLong_FromString_digits (s : str) :
  s <> [] -> Forall ascii_digit s ->
  exists v, PyLong_FromString 10 s = Some (Z.of_N v).
Proof.
  intros Hne H. destruct s as [|c s]; [contradiction|].
  pose proof (scan_digits_all 0%N 0 H) as [v Hv].
  inversion H as [|? ? Hc Hs]; subst. unfold ascii_digit in Hc.
  exists v. unfold PyLong_FromString.
  assert (Esp : skip_space (c :: s) = c :: s).
  { simpl. unfold c_isspace.
    destruct (N.leb_spec 9 c); destruct (N.leb_spec c 13);
      destruct (N.eqb_spec c 32); simpl; try reflexivity; lia. }
  rewrite Esp.
  assert (Esg : skip_sign (c :: s) = (false, c :: s)).
  { simpl. destruct (N.eqb_spec c 43); [lia|]. destruct (N.eqb_spec c 45); [lia|].
    reflexivity. }
  rewrite Esg.
  assert (Epf : skip_prefix 10 (c :: s) = c :: s).
  { simpl. destruct s; [reflexivity|]. rewrite andb_false_r. reflexivity. }
  rewrite Epf.
  assert (Eus : starts_with_underscore (c :: s) = false).
  { simpl. destruct (N.eqb_spec c 95); [lia | reflexivity]. }
  rewrite Eus, Hv. reflexivity.
Qed.

(** A text made of decimal digits only is read by [int]. *)
Lemma py_int_decimal (U : UnicodeData) (s : str) :
  s <> [] -> forallb (isdecimal_char U) s = true ->
  exists v, py_int U 10 s = Some (Z.of_N v).
Proof.
  intros Hne H. unfold py_int. apply PyLong_FromString_digits.
  - destruct s; [contradiction | discriminate].
  - rewrite forallb_forall in H. apply Forall_forall.
    intros a Ha. apply in_map_iff in Ha as (c & <- & Hc).
    apply to_ascii_decimal. now apply H.
Qed.

Lemma isdecimal_isdigit (U : UnicodeData) (s : str) :
  s <> [] -> forallb (isdecimal_char U) s = true -> isdigit U s = true.
Proof.
  intros Hne H. destruct s as [|c s]; [contradiction|].
  unfold isdigit. rewrite forallb_forall in *.
  intros x Hx. apply isdecimal_isdigit_char. now apply H.
Qed.

(** ** Which rows the builders keep *)

Lemma catalog_row_skipped (U : UnicodeData) (width : nat) (ix : catalog_columns)
  (row : list str) :
  catalog_in_range width ix ->
  cell_at width row (idx_type ix) <> lit "XID" \/
  isdigit U (cell_at width row (idx_code ix)) = false ->
  catalog_row U width ix row = Ok None.
Proof.
  intros Hr H. rewrite catalog_row_eq by assumption.
  destruct (str_eqb _ _) eqn:E; simpl; [|reflexivity].
  apply str_eqb_eq in E. destruct H as [H|H]; [contradiction|].
  rewrite H, orb_true_r. reflexivity.
Qed.

Lemma catalog_row_skipped_iff (U : UnicodeData) (width : nat) (ix : catalog_columns)
  (row : list str) :
  catalog_in_range width ix ->
  catalog_row U width ix row = Ok None <->
  cell_at width row (idx_type ix) <> lit "XID" \/
  isdigit U (cell_at width row (idx_code ix)) = false.
Proof.
  intros Hr. split; [|now apply catalog_row_skipped].
  rewrite catalog_row_eq by assumption.
  destruct (str_eqb _ _) eqn:E; cbn [negb].
  - destruct (cell_at width row (idx_code ix)) as [|c code_str] eqn:Ec.
    + intros _. right. reflexivity.
    + cbn [is_empty orb]. destruct (isdigit U (c :: code_str)); cbn [negb].
      * destruct (py_int U 10 _); discriminate.
      * intros _. now right.
  - intros _. left. now apply str_eqb_neq.
Qed.

Lemma catalog_row_emitted (U : UnicodeData) (width : nat) (ix : catalog_columns)
  (row : list str) :
  catalog_in_range width ix ->
  cell_at width row (idx_type ix) = lit "XID" ->
  cell_at width row (idx_code ix) <> [] ->
  forallb (isdecimal_char U) (cell_at width row (idx_code ix)) = true ->
  exists c, py_int U 10 (cell_at width row (idx_code ix)) = Some (Z.of_N c) /\
            catalog_row U width ix row = Ok (Some (entry_of_row U width ix row (Z.of_N c))).
Proof.
  intros Hr Ht Hne Hd. rewrite catalog_row_eq by assumption.
  rewrite Ht, str_eqb_refl. cbn [negb].
  rewrite (isdecimal_isdigit U Hne Hd).
  destruct (py_int_decimal U Hne Hd) as [c Hc]. exists c. rewrite Hc.
  destruct (cell_at width row (idx_code ix)); [contradiction | auto].
Qed.

Lemma catalog_row_kept (U : UnicodeData) (width : nat) (ix : catalog_columns)
  (row : list str) (e : entry) :
  catalog_in_range width ix ->
  catalog_row U width ix row = Ok (Some e) ->
  cell_at width row (idx_type ix) = lit "XID" /\
  isdigit U (cell_at width row (idx_code ix)) = true /\
  py_int U 10 (cell_at width row (idx_code ix)) = Some (code e).
Proof.
  intros Hr. rewrite catalog_row_eq by assumption.
  destruct (str_eqb _ _) eqn:E; simpl; [|discriminate].
  apply str_eqb_eq in E.
  destruct (isdigit U _); [|rewrite orb_true_r; discriminate].
  rewrite orb_false_r. destruct (is_empty _); [discriminate|].
  destruct (py_int U 10 _); [|discriminate].
  intros H. injection H as <-. auto.
Qed.

Lemma nvlink_row_skipped (U : UnicodeData) (width : nat) (ix : nvlink_columns)
  (row : list str) :
  nvlink_in_range width ix ->
  strip U (cell_at width row (idx_xid ix)) = [] \/
  isdigit U (strip U (cell_at width row (idx_xid ix))) = false \/
  strip U (cell_at width row (idx_subcode ix)) = [] ->
  nvlink_row U width ix row = Ok None.
Proof.
  intros Hr H. rewrite nvlink_row_eq by assumption.
  destruct H as [H|[H|H]]; rewrite H; cbn [is_empty negb orb].
  - reflexivity.
  - now rewrite orb_true_r.
  - now rewrite orb_true_r.
Qed.

(** C2, at the input where the code leaves it.  A catalog row of type XID
    whose code is the one character SUPERSCRIPT TWO passes both tests of
    the builder ([isdigit] holds of it), yet [int] does not read it: the
    row is neither turned into an entry nor skipped, the builder raises
    ValueError.  The rule builder does the same on such an xid. *)
Theorem superscript_code_aborts :
  cell_at 6 catalog_row_superscript 0 = lit "XID" /\
  cell_at 6 catalog_row_superscript 1 = [178%N] /\
  isdigit latin1 [178%N] = true /\
  py_int latin1 10 [178%N] = None /\
  build_catalog_entries latin1 catalog_sheet_superscript = Raise ValueError /\
  build_nvlink_rules latin1 nvlink_sheet_superscript = Raise ValueError.
Proof. repeat split; reflexivity. Qed.

(** ** Codes are not made unique *)

(** C7, as the code has it.  The builder keeps one entry for each
    qualifying row and removes none: the list it returns is a permutation
    of the entries of the qualifying rows in sheet order, so its codes are
    pairwise distinct exactly when those of the qualifying rows are. *)
Theorem catalog_codes_distinct_iff (U : UnicodeData) (rows : grid) (es : list entry) :
  build_catalog_entries U rows = Ok es ->
  exists header data ix raw,
    rows = header :: data /\
    catalog_indices header = Ok ix /\
    collect (catalog_row U (length header) ix) data = Ok raw /\
    Permutation raw es /\
    (NoDup (List.map code es) <-> NoDup (List.map code raw)).
Proof.
  intros H.
  apply build_catalog_entries_ok in H as (header & data & ix & raw & E & Hix & Hraw & ->).
  exists header, data, ix, raw. repeat split; try assumption.
  - apply sort_by_perm.
  - apply Permutation_NoDup, Permutation_map, Permutation_sym, sort_by_perm.
  - apply Permutation_NoDup, Permutation_map, sort_by_perm.
Qed.

Lemma catalog_codes_distinct_iff_witness :
  build_catalog_entries latin1 catalog_sheet = Ok [entry_13; entry_79] /\
  exists header data ix raw,
    catalog_sheet = header :: data /\
    catalog_indices header = Ok ix /\
    collect (catalog_row latin1 (length header) ix) data = Ok raw /\
    Permutation raw [entry_13; entry_79] /\
    (NoDup (List.map code [entry_13; entry_79]) <-> NoDup (List.map code raw)).
Proof.
  split.
  - reflexivity.
  - apply (@catalog_codes_distinct_iff latin1 catalog_sheet). reflexivity.
Defined.

(** C7 as stated fails: two qualifying rows with code 79 give two entries
    with code 79. *)
Lemma duplicate_codes_are_kept :
  build_catalog_entries latin1 catalog_sheet_duplicate
    = Ok [entry_13; entry_79; entry_79_again] /\
  entry_79 <> entry_79_again /\
  code entry_79 = code entry_79_again /\
  ~ (forall (U : UnicodeData) (rows : grid) (es : list entry),
        build_catalog_entries U rows = Ok es -> NoDup (List.map code es)).
Proof.
  split; [reflexivity|]. split; [discriminate|]. split; [reflexivity|].
  intros H.
  specialize (H latin1 catalog_sheet_duplicate [entry_13; entry_79; entry_79_again]
                eq_refl).
  inversion H as [|? ? _ H1]; subst.
  inversion H1 as [|? ? Hin _]; subst.
  apply Hin. left. reflexivity.
Qed.

(** ** The error status of a rule row *)

Lemma build_nvlink_rules_skip (U : UnicodeData) (header : list str)
  (ix : nvlink_columns) (before after : list (list str)) (row : list str) :
  nvlink_indices header = Ok ix ->
  nvlink_row U (length header) ix row = Ok None ->
  build_nvlink_rules U (header :: before ++ row :: after) =
  build_nvlink_rules U (header :: before ++ after).
Proof.
  intros Hix Hrow. unfold build_nvlink_rules. cbn [getitem nth_error bind tl].
  rewrite Hix. cbn [bind].
  now rewrite (@collect_skip _ _ _ before after row Hrow).
Qed.

(** C3. For a row that passes the xid and subcode tests: a blank error
    status cell is read as the literal 0x0, that is 0; a text that [int]
    reads in base 16 becomes the error status of the rule made of the row;
    a text it does not read makes the loop skip the row, and the builder
    returns what it returns on the sheet without that row. *)
Theorem error_status_handling (U : UnicodeData) (header : list str)
  (ix : nvlink_columns) (row : list str) :
  nvlink_indices header = Ok ix ->
  isdigit U (strip U (cell_at (length header) row (idx_xid ix))) = true ->
  strip U (cell_at (length header) row (idx_subcode ix)) <> [] ->
  let width := length header in
  let xid_str := strip U (cell_at width row (idx_xid ix)) in
  let text := error_status_text U width ix row in
  (strip U (cell_at width row (idx_error_status ix)) = [] ->
     text = lit "0x0" /\ py_int U 16 text = Some 0%Z) /\
  (forall v, py_int U 16 text = Some v ->
     nvlink_row U width ix row <> Ok None /\
     (forall r, nvlink_row U width ix row = Ok (Some r) -> error_status r = v) /\
     (forall x, py_int U 10 xid_str = Some x ->
        nvlink_row U width ix row = Ok (Some (rule_of_row U width ix row x v)))) /\
  (py_int U 16 text = None ->
     nvlink_row U width ix row = Ok None /\
     forall before after,
       build_nvlink_rules U (header :: before ++ row :: after) =
       build_nvlink_rules U (header :: before ++ after)).
Proof.
  intros Hix Hd Hs width xid_str text.
  pose proof (nvlink_indices_in_range _ Hix) as Hr.
  assert (Hrow : nvlink_row U width ix row =
                 match py_int U 16 text with
                 | None => Ok None
                 | Some es =>
                     match py_int U 10 xid_str with
                     | None => Raise ValueError
                     | Some xv => Ok (Some (rule_of_row U width ix row xv es))
                     end
                 end).
  { rewrite nvlink_row_eq by assumption. fold width. fold xid_str. fold text.
    subst xid_str width. rewrite Hd.
    destruct (strip U (cell_at (length header) row (idx_xid ix))) as [|c xs];
      [discriminate|].
    destruct (strip U (cell_at (length header) row (idx_subcode ix)));
      [contradiction | reflexivity]. }
  split; [|split].
  - intros Hblank. subst text. unfold error_status_text. fold width.
    rewrite Hblank. split; reflexivity.
  - intros v Hv. rewrite Hrow, Hv. repeat split.
    + destruct (py_int U 10 xid_str); discriminate.
    + intros r. destruct (py_int U 10 xid_str); [|discriminate].
      intros H. injection H as <-. reflexivity.
    + intros x ->. reflexivity.
  - intros Hn. rewrite Hn in Hrow. split; [assumption|].
    intros before after. eapply build_nvlink_rules_skip; eassumption.
Qed.

Lemma error_status_handling_witness :
  (error_status_text latin1 11 nvlink_sample_columns nvlink_row_blank = lit "0x0" /\
   nvlink_row latin1 11 nvlink_sample_columns nvlink_row_blank =
   Ok (Some (rule_of_row latin1 11 nvlink_sample_columns nvlink_row_blank 144 0))) /\
  nvlink_row latin1 11 nvlink_sample_columns nvlink_row_1A =
  Ok (Some (rule_of_row latin1 11 nvlink_sample_columns nvlink_row_1A 145 26)) /\
  build_nvlink_rules latin1 [nvlink_header; nvlink_row_1A; nvlink_row_NA; nvlink_row_blank] =
  build_nvlink_rules latin1 [nvlink_header; nvlink_row_1A; nvlink_row_blank].
Proof.
  assert (Hix : nvlink_indices nvlink_header = Ok nvlink_sample_columns)
    by reflexivity.
  split; [|split].
  - destruct (@error_status_handling latin1 nvlink_header nvlink_sample_columns
                nvlink_row_blank Hix eq_refl) as (H0 & Hv & _).
    + discriminate.
    + destruct (H0 eq_refl) as [Ht Hz]. split; [exact Ht|].
      apply (Hv 0%Z Hz). reflexivity.
  - destruct (@error_status_handling latin1 nvlink_header nvlink_sample_columns
                nvlink_row_1A Hix eq_refl) as (_ & Hv & _).
    + discriminate.
    + apply (Hv 26%Z eq_refl). reflexivity.
  - destruct (@error_status_handling latin1 nvlink_header nvlink_sample_columns
                nvlink_row_NA Hix eq_refl) as (_ & _ & Hn).
    + discriminate.
    + destruct (Hn eq_refl) as [_ Hb].
      exact (Hb [nvlink_row_1A] [nvlink_row_blank]).
Defined.

(** ** A header without a required column *)

Lemma index_cases (l : list str) (x : str) :
  (exists n, index l x = Ok n) \/ index l x = Raise ValueError.
Proof.
  unfold index. generalize 0%nat. induction l as [|y l IH]; simpl; intros i.
  - now right.
  - destruct (str_eqb y x); [left; eauto | apply IH].
Qed.

Lemma optional_index_total (header : list str) (name : str) :
  exists i, optional_index header name = Ok i.
Proof.
  unfold optional_index. destruct (contains name header) eqn:E; [|eauto].
  destruct (index_cases header name) as [[n ->]|H].
  - simpl. eauto.
  - apply index_from_contains in H. congruence.
Qed.

Lemma not_In_contains (x : str) (l : list str) : ~ In x l -> contains x l = false.
Proof.
  intros H. destruct (contains x l) eqn:E; [|reflexivity].
  apply contains_In in E. contradiction.
Qed.

Ltac step_index header :=
  match goal with
  | |- context [index header ?c] =>
      destruct (index_cases header c) as [[? ->] | ->]; cbn [bind];
      try reflexivity
  | |- context [optional_index header ?c] =>
      destruct (optional_index_total header c) as [? ->]; cbn [bind];
      try reflexivity
  end.

Lemma catalog_indices_missing (header : list str) (name : str) :
  In name catalog_required -> ~ In name header ->
  catalog_indices header = Raise ValueError.
Proof.
  intros Hin Hmiss. apply not_In_contains, index_missing in Hmiss.
  unfold catalog_indices.
  simpl in Hin; repeat destruct Hin as [<-|Hin]; try contradiction;
    rewrite Hmiss; repeat step_index header.
Qed.

Lemma nvlink_indices_missing (header : list str) (name : str) :
  In name nvlink_required -> ~ In name header ->
  nvlink_indices header = Raise ValueError.
Proof.
  intros Hin Hmiss. apply not_In_contains, index_missing in Hmiss.
  unfold nvlink_indices.
  simpl in Hin; repeat destruct Hin as [<-|Hin]; try contradiction;
    rewrite Hmiss; repeat step_index header.
Qed.

Lemma collect_raise {A B} (body : A -> result (option B)) (l : list A) (e : exn) :
  collect body l = Raise e -> exists a, In a l /\ body a = Raise e.
Proof.
  induction l as [|a l IH]; simpl; [discriminate|].
  destruct (body a) as [r|e'] eqn:E; simpl.
  - destruct (collect body l) as [rest|e'']; simpl; [discriminate|].
    intros H. injection H as ->. destruct (IH eq_refl) as (a' & Hin & Ha').
    eauto.
  - intros H. injection H as ->. eauto.
Qed.

(** The only exception of the catalog builder on a sheet that has a header
    row is ValueError. *)
Lemma build_catalog_entries_raise (U : UnicodeData) (header : list str)
  (data : list (list str)) (e : exn) :
  build_catalog_entries U (header :: data) = Raise e -> e = ValueError.
Proof.
  unfold build_catalog_entries. cbn [getitem nth_error bind tl].
  destruct (catalog_indices header) as [ix|e1] eqn:Eix; cbn [bind].
  - destruct (collect _ data) as [raw|e2] eqn:Ec; cbn [bind]; [discriminate|].
    intros H. injection H as ->.
    apply collect_raise in Ec as (row & _ & Hrow).
    rewrite catalog_row_eq in Hrow by now apply catalog_indices_in_range.
    destruct (negb _); [discriminate|].
    destruct (is_empty _ || negb _); [discriminate|].
    destruct (py_int U 10 _); [discriminate|]. now injection Hrow.
  - intros H. injection H as ->. revert Eix. unfold catalog_indices.
    repeat step_index header; try discriminate; intros H; now injection H.
Qed.

(** C4. When the header of a sheet lacks one of the column names its
    builder looks up, the builder raises the error of the failed lookup;
    nothing in [main] catches it: the run ends with an uncaught exception
    and a non-zero exit status, and the output path holds what it held
    before, since the text is written only after both builders have
    returned. *)
Theorem missing_column_aborts (U : UnicodeData) (w : world)
  (header : list str) (data : list (list str)) (name : str) :
  length (argv w) = 3%nat ->
  xlsx_is_file w = true ->
  (read_sheet U (sheet1_xml w) (shared_strings w) = Ok (header :: data) /\
   In name catalog_required /\ ~ In name header) \/
  (read_sheet U (sheet2_xml w) (shared_strings w) = Ok (header :: data) /\
   In name nvlink_required /\ ~ In name header) ->
  (In name catalog_required -> ~ In name header ->
   build_catalog_entries U (header :: data) = Raise ValueError) /\
  (In name nvlink_required -> ~ In name header ->
   build_nvlink_rules U (header :: data) = Raise ValueError) /\
  exists e, main U w = (Uncaught e, output_file w) /\
            exit_status (Uncaught e) <> 0%Z.
Proof.
  intros Hargv Hfile Hmiss.
  assert (Hc : In name catalog_required -> ~ In name header ->
               build_catalog_entries U (header :: data) = Raise ValueError).
  { intros Hin Hno. unfold build_catalog_entries. cbn [getitem nth_error bind].
    now rewrite (catalog_indices_missing _ Hin Hno). }
  assert (Hn : In name nvlink_required -> ~ In name header ->
               build_nvlink_rules U (header :: data) = Raise ValueError).
  { intros Hin Hno. unfold build_nvlink_rules. cbn [getitem nth_error bind].
    now rewrite (nvlink_indices_missing _ Hin Hno). }
  split; [exact Hc|]. split; [exact Hn|].
  assert (Hx : forall e, exit_status (Uncaught e) <> 0%Z) by (intros e; discriminate).
  unfold main, generate. rewrite Hargv, Hfile. cbn [Nat.eqb negb].
  destruct (read_sheet U (sheet1_xml w) _) as [s1|e1] eqn:E1; cbn [bind]; [|eauto].
  destruct (read_sheet U (sheet2_xml w) _) as [s2|e2] eqn:E2; cbn [bind]; [|eauto].
  destruct (build_catalog_entries U s1) as [es|e3] eqn:E3; cbn [bind]; [|eauto].
  destruct Hmiss as [(Hs & Hin & Hno)|(Hs & Hin & Hno)].
  - injection Hs as ->. rewrite (Hc Hin Hno) in E3. discriminate E3.
  - injection Hs as ->. rewrite (Hn Hin Hno). cbn [bind]. eauto.
Qed.

Lemma missing_column_aborts_witness :
  build_catalog_entries latin1 catalog_sheet_no_code = Raise ValueError /\
  main latin1 (sample_world catalog_sheet_no_code nvlink_sheet)
    = (Uncaught ValueError, Some (lit "package xid")).
Proof.
  assert (Hin : In col_code catalog_required) by (right; left; reflexivity).
  assert (Hno : ~ In col_code (hd [] catalog_sheet_no_code)).
  { simpl. intros H. repeat destruct H as [H|H]; try discriminate H; exact H. }
  destruct (@missing_column_aborts latin1
              (sample_world catalog_sheet_no_code nvlink_sheet)
              (hd [] catalog_sheet_no_code) (tl catalog_sheet_no_code) col_code
              eq_refl eq_refl (or_introl (conj eq_refl (conj Hin Hno))))
    as (Hc & _ & e & Hm & _).
  split; [exact (Hc Hin Hno)|].
  rewrite Hm. vm_compute in Hm. injection Hm as <-. reflexivity.
Defined.

(** ** Escaping and reading back *)

Lemma replace_char_app (old : char) (new a b : str) :
  replace_char old new (a ++ b) = replace_char old new a ++ replace_char old new b.
Proof.
  induction a as [|c a IH]; simpl; [reflexivity|].
  now rewrite IH, app_assoc.
Qed.

Lemma replace_char_other (old : char) (new : str) (c : char) :
  c <> old -> replace_char old new [c] = [c].
Proof.
  intros H. simpl. destruct (N.eqb_spec c old); [contradiction | reflexivity].
Qed.

Lemma escaped_char_by_char (s : str) :
  replace_char NL [BSL; 110%N]
    (replace_char DQ [BSL; DQ] (replace_char BSL [BSL; BSL] s))
  = flat_map escape_char s.
Proof.
  induction s as [|c s IH]; [reflexivity|].
  change (replace_char BSL [BSL; BSL] (c :: s))
    with ((if N.eqb c BSL then [BSL; BSL] else [c]) ++ replace_char BSL [BSL; BSL] s).
  rewrite !replace_char_app, IH. simpl flat_map. f_equal.
  unfold escape_char.
  destruct (N.eqb_spec c BSL) as [->|Hb]; [reflexivity|].
  destruct (N.eqb_spec c DQ) as [->|Hq]; [reflexivity|].
  destruct (N.eqb_spec c NL) as [->|Hn]; [reflexivity|].
  now rewrite !replace_char_other.
Qed.

Lemma decode_body_escaped (s : str) :
  decode_body (flat_map escape_char s ++ [DQ]) = Some s.
Proof.
  induction s as [|c s IH]; [reflexivity|].
  simpl flat_map. unfold escape_char at 1.
  destruct (N.eqb_spec c BSL) as [->|Hb].
  { change (decode_body (BSL :: BSL :: (flat_map escape_char s ++ [DQ]))
            = Some (BSL :: s)).
    cbn -[flat_map]. now rewrite IH. }
  destruct (N.eqb_spec c DQ) as [->|Hq].
  { change (decode_body (BSL :: DQ :: (flat_map escape_char s ++ [DQ]))
            = Some (DQ :: s)).
    cbn -[flat_map]. now rewrite IH. }
  destruct (N.eqb_spec c NL) as [->|Hn].
  { change (decode_body (BSL :: 110%N :: (flat_map escape_char s ++ [DQ]))
            = Some (NL :: s)).
    cbn -[flat_map]. now rewrite IH. }
  change (decode_body (c :: (flat_map escape_char s ++ [DQ])) = Some (c :: s)).
  cbn [decode_body].
  destruct (N.eqb_spec c DQ); [contradiction|].
  destruct (N.eqb_spec c NL); [contradiction|].
  destruct (N.eqb_spec c BSL); [contradiction|].
  now rewrite IH.
Qed.

(** C5. [escape_go_string] turns every backslash into two, every double
    quote into backslash-quote and every newline into backslash-n, and
    puts the result between double quotes; read back as a string literal,
    the text is the original string. *)
Theorem escape_go_string_round_trip (value : str) :
  escape_go_string value = [DQ] ++ flat_map escape_char value ++ [DQ] /\
  decode_go_string (escape_go_string value) = Some value.
Proof.
  assert (E : escape_go_string value = [DQ] ++ flat_map escape_char value ++ [DQ]).
  { unfold escape_go_string. now rewrite escaped_char_by_char. }
  split; [exact E|].
  rewrite E. cbn [app decode_go_string]. rewrite N.eqb_refl.
  apply decode_body_escaped.
Qed.

Example escape_quoted_mnemonic :
  escape_go_string quoted_mnemonic =
  [DQ] ++ lit "say " ++ [BSL; DQ] ++ lit "hi" ++ [BSL; DQ] ++ [BSL] ++ lit "nC:" ++
  [BSL; BSL] ++ lit "n" ++ [DQ] /\
  decode_go_string (escape_go_string quoted_mnemonic) = Some quoted_mnemonic.
Proof. split; reflexivity. Qed.

(** ** The rendering of the error status *)

Lemma digits_fuel_acc (fuel : nat) (base n : N) (acc : str) :
  digits_fuel fuel base n acc = digits_fuel fuel base n [] ++ acc.
Proof.
  revert n acc; induction fuel as [|fuel IH]; intros n acc; simpl; [reflexivity|].
  destruct (N.eqb (n / base) 0); [reflexivity|].
  rewrite IH, (IH _ [_]), <- app_assoc. reflexivity.
Qed.

Lemma hex_value_from_app (acc : N) (a b : str) :
  hex_value_from acc (a ++ b) =
  match hex_value_from acc a with
  | Some v => hex_value_from v b
  | None => None
  end.
Proof.
  revert acc; induction a as [|c a IH]; intros acc; simpl; [reflexivity|].
  destruct (hex_digit_value c); [apply IH | reflexivity].
Qed.

Lemma hex_digit_value_digit_char (d : N) :
  (d < 16)%N -> hex_digit_value (digit_char d) = Some d.
Proof.
  intros H. unfold hex_digit_value, digit_char.
  destruct (N.ltb_spec d 10).
  - destruct (N.leb_spec 48 (48 + d)); [|lia].
    destruct (N.leb_spec (48 + d) 57); [|lia].
    cbn [andb]. f_equal. lia.
  - destruct (N.leb_spec 48 (87 + d)); [|lia].
    destruct (N.leb_spec (87 + d) 57); [lia|].
    destruct (N.leb_spec 97 (87 + d)); [|lia].
    destruct (N.leb_spec (87 + d) 102); [|lia].
    cbn [andb]. f_equal. lia.
Qed.

Lemma hex_value_digits_fuel (fuel : nat) (n : N) :
  (n < 2 ^ N.of_nat fuel)%N ->
  hex_value (digits_fuel fuel 16 n []) = Some n.
Proof.
  unfold hex_value. revert n; induction fuel as [|fuel IH]; intros n Hn.
  - simpl in Hn. simpl. f_equal. lia.
  - cbn [digits_fuel].
    assert (Hd : (n mod 16 < 16)%N) by (apply N.mod_lt; lia).
    destruct (N.eqb_spec (n / 16) 0) as [Hz|Hz].
    + simpl. rewrite (hex_digit_value_digit_char Hd). f_equal.
      pose proof (N.div_mod n 16). lia.
    + rewrite digits_fuel_acc, hex_value_from_app, IH.
      * simpl. rewrite (hex_digit_value_digit_char Hd). f_equal.
        pose proof (N.div_mod n 16). lia.
      * rewrite Nat2N.inj_succ, N.pow_succ_r' in Hn.
        apply N.Div0.div_lt_upper_bound. lia.
Qed.

Lemma hex_value_digits (n : N) : hex_value (digits 16 n) = Some n.
Proof.
  unfold digits. apply hex_value_digits_fuel.
  rewrite Nat2N.inj_succ, N2Nat.id.
  destruct (N.eq_dec n 0) as [->|Hn]; [reflexivity|].
  apply N.log2_spec. lia.
Qed.

Lemma digits_fuel_S (fuel : nat) (base n : N) (acc : str) :
  digits_fuel (S fuel) base n acc =
  if N.eqb (n / base) 0 then digit_char (n mod base) :: acc
  else digits_fuel fuel base (n / base) (digit_char (n mod base) :: acc).
Proof. reflexivity. Qed.

Lemma digits_fuel_length (fuel : nat) (n : N) (k : nat) :
  (n < 16 ^ N.of_nat (S k))%N ->
  (length (digits_fuel fuel 16 n []) <= S k)%nat.
Proof.
  revert n k; induction fuel as [|fuel IH]; intros n k Hn.
  - simpl. lia.
  - rewrite digits_fuel_S. destruct (N.eqb_spec (n / 16) 0) as [Hz|Hz].
    + simpl. lia.
    + rewrite digits_fuel_acc, length_app. simpl length.
      destruct k as [|k].
      * exfalso. apply Hz. apply N.div_small. simpl in Hn. lia.
      * assert (Hq : (n / 16 < 16 ^ N.of_nat (S k))%N).
        { rewrite (Nat2N.inj_succ (S k)), N.pow_succ_r' in Hn.
          apply N.Div0.div_lt_upper_bound. lia. }
        specialize (IH _ _ Hq). lia.
Qed.

Lemma hex_value_zfill (width : nat) (s : str) :
  hex_value (zfill width s) = hex_value s.
Proof.
  unfold zfill, hex_value. induction (width - length s)%nat as [|k IH];
    [reflexivity|]. simpl. exact IH.
Qed.

Lemma format_08x_u32 (z : Z) :
  (0 <= z < 2 ^ 32)%Z ->
  length (format_08x z) = 8%nat /\
  hex_value (format_08x z) = Some (Z.to_N z).
Proof.
  intros Hz. unfold format_08x.
  destruct (Z.ltb_spec z 0); [lia|].
  split.
  - assert (Hl : (length (digits 16 (Z.to_N z)) <= 8)%nat).
    { unfold digits. apply digits_fuel_length.
      change (16 ^ N.of_nat 8)%N with 4294967296%N.
      change (2 ^ 32)%Z with 4294967296%Z in Hz.
      apply N2Z.inj_lt. rewrite Z2N.id by lia. exact (proj2 Hz). }
    unfold zfill. rewrite length_app, repeat_length.
    unfold str, char in *. lia.
  - rewrite hex_value_zfill. apply hex_value_digits.
Qed.

(** C6, as the code has it.  The ErrorStatus field of a rule literal is 0x
    followed by the error status in the format 08x; when the error status
    is between 0 and 2^32 - 1 these are exactly eight characters, all of
    them lowercase hexadecimal digits, whose value is the error status. *)
Theorem error_status_rendering (r : rule) :
  (0 <= error_status r < 2 ^ 32)%Z ->
  exists text,
    nth_error (rule_fields r) 4 = Some (lit "ErrorStatus", lit "0x" ++ text) /\
    length text = 8%nat /\
    hex_value text = Some (Z.to_N (error_status r)).
Proof.
  intros Hz. exists (format_08x (error_status r)).
  split; [reflexivity|]. now apply format_08x_u32.
Qed.

Lemma error_status_rendering_witness :
  (0 <= error_status rule_no_action2 < 2 ^ 32)%Z /\
  exists text,
    nth_error (rule_fields rule_no_action2) 4
      = Some (lit "ErrorStatus", lit "0x" ++ text) /\
    length text = 8%nat /\
    hex_value text = Some 26%N.
Proof.
  assert (H : (0 <= error_status rule_no_action2 < 2 ^ 32)%Z)
    by (simpl; lia).
  split; [exact H|].
  exact (error_status_rendering rule_no_action2 H).
Defined.

(** C6 as stated fails: the builder takes any integer [int] reads in base
    16; the cell 0x100000000 gives a rule whose error status is 2^32, not an
    unsigned 32-bit integer, and its rendering has nine digits. *)
Lemma wide_error_status_emitted :
  exists r,
    build_nvlink_rules latin1 nvlink_sheet_wide_status = Ok [r] /\
    error_status r = (2 ^ 32)%Z /\
    format_08x (error_status r) = lit "100000000" /\
    length (format_08x (error_status r)) = 9%nat /\
    ~ (forall (U : UnicodeData) (rows : grid) (rs : list rule) (r' : rule),
          build_nvlink_rules U rows = Ok rs -> In r' rs ->
          (0 <= error_status r' < 2 ^ 32)%Z /\
          length (format_08x (error_status r')) = 8%nat).
Proof.
  eexists. split; [vm_compute; reflexivity|].
  split; [reflexivity|]. split; [reflexivity|]. split; [reflexivity|].
  intros H.
  destruct (H latin1 nvlink_sheet_wide_status _ _ eq_refl (or_introl eq_refl))
    as [[_ Hlt] _].
  vm_compute in Hlt. discriminate Hlt.
Qed.

(** ** The fields of a rule literal *)

Lemma join_cons (sep x : str) (l : list str) :
  l <> [] -> join sep (x :: l) = x ++ sep ++ join sep l.
Proof. destruct l; [contradiction | reflexivity]. Qed.

Lemma rule_line_fields (r : rule) : rule_line r = render_literal (rule_fields r).
Proof.
  destruct r as [x u v1 v2 es res inv sev a2 hw lr].
  unfold rule_line, render_literal, rule_fields, mandatory_fields, render_field.
  cbn [xid unit_ intrinfo_v1 intrinfo_v2 error_status resolution
       rule_investigatory severity action2 hw_sw local_remote fst snd].
  generalize (str_of_int x) (escape_go_string u) (escape_go_string v1)
    (escape_go_string v2) (format_08x es) (escape_go_string res)
    (escape_go_string inv) (escape_go_string sev).
  intros sx su s1 s2 se sr si ss.
  destruct a2 as [[|c2 t2]|]; destruct hw as [[|ch th]|];
    destruct lr as [[|cl tl]|];
    cbn [append_optional optional_field List.map List.app fst snd join];
    repeat rewrite <- app_assoc; reflexivity.
Qed.

Lemma optional_index_eq (header : list str) (name : str) :
  optional_index header name =
  Ok (match index header name with Ok i => Some i | Raise _ => None end).
Proof.
  unfold optional_index. destruct (contains name header) eqn:E.
  - destruct (index_cases header name) as [[n Hn]|Hn].
    + rewrite Hn. reflexivity.
    + apply index_from_contains in Hn. congruence.
  - now rewrite (index_missing _ _ E).
Qed.

Lemma optional_field_names (U : UnicodeData) (header row : list str)
  (col name : str) :
  List.map fst
    (optional_field name
       (optional_value U (length header) row
          (match index header col with Ok i => Some i | Raise _ => None end)))
  = name_if (column_filled U header row col) name.
Proof.
  unfold column_filled, optional_value.
  destruct (index header col) as [i|e]; [|reflexivity].
  destruct (strip U _); reflexivity.
Qed.

Lemma nvlink_indices_optional (header : list str) (ix : nvlink_columns) :
  nvlink_indices header = Ok ix ->
  idx_action2 ix
    = match index header col_action2 with Ok i => Some i | Raise _ => None end /\
  idx_hw_sw ix
    = match index header col_hw_sw with Ok i => Some i | Raise _ => None end /\
  idx_local_remote ix
    = match index header col_local_remote with Ok i => Some i | Raise _ => None end.
Proof.
  unfold nvlink_indices. intros H. bind_inv H. injection H as <-.
  rewrite optional_index_eq in Ha5, Ha8, Ha9.
  injection Ha5 as <-. injection Ha8 as <-. injection Ha9 as <-.
  cbn [idx_action2 idx_hw_sw idx_local_remote]. auto.
Qed.

Lemma nvlink_row_rule (U : UnicodeData) (width : nat) (ix : nvlink_columns)
  (row : list str) (r : rule) :
  nvlink_in_range width ix ->
  nvlink_row U width ix row = Ok (Some r) ->
  r = rule_of_row U width ix row (xid r) (error_status r).
Proof.
  intros Hr. rewrite nvlink_row_eq by assumption.
  destruct (is_empty _ || negb _ || is_empty _); [discriminate|].
  destruct (py_int U 16 _); [|discriminate].
  destruct (py_int U 10 _); [|discriminate].
  intros H. injection H as <-. reflexivity.
Qed.

(** C8. The literal of a rule is its fields in order, each as name, colon,
    value, separated by commas: the eight mandatory fields, in the fixed
    order, then Action2, HwSw and LocalRemote, each one there exactly when
    the header has its column and the trimmed cell of the row is not
    empty.  A header without the column leaves the field out. *)
Theorem rule_literal_fields (U : UnicodeData) (header : list str)
  (ix : nvlink_columns) (row : list str) (r : rule) :
  nvlink_indices header = Ok ix ->
  nvlink_row U (length header) ix row = Ok (Some r) ->
  rule_line r = render_literal (rule_fields r) /\
  List.map fst (rule_fields r) =
    mandatory_names
    ++ name_if (column_filled U header row col_action2) (lit "Action2")
    ++ name_if (column_filled U header row col_hw_sw) (lit "HwSw")
    ++ name_if (column_filled U header row col_local_remote) (lit "LocalRemote") /\
  (~ In col_action2 header -> ~ In (lit "Action2") (List.map fst (rule_fields r))) /\
  (~ In col_hw_sw header -> ~ In (lit "HwSw") (List.map fst (rule_fields r))) /\
  (~ In col_local_remote header ->
   ~ In (lit "LocalRemote") (List.map fst (rule_fields r))).
Proof.
  intros Hix Hrow.
  pose proof (nvlink_indices_in_range _ Hix) as Hr.
  destruct (nvlink_indices_optional _ Hix) as (Ea & Eh & El).
  assert (Hn : List.map fst (rule_fields r) =
    mandatory_names
    ++ name_if (column_filled U header row col_action2) (lit "Action2")
    ++ name_if (column_filled U header row col_hw_sw) (lit "HwSw")
    ++ name_if (column_filled U header row col_local_remote) (lit "LocalRemote")).
  { rewrite (nvlink_row_rule U row Hr Hrow).
    unfold rule_fields. rewrite !map_app.
    cbn [rule_of_row action2 hw_sw local_remote].
    rewrite Ea, Eh, El, !optional_field_names. reflexivity. }
  assert (Hmiss : forall col name,
             In name [lit "Action2"; lit "HwSw"; lit "LocalRemote"] ->
             ~ In col header ->
             column_filled U header row col = false).
  { intros col name _ Hno. unfold column_filled.
    now rewrite (index_missing _ _ (not_In_contains _ _ Hno)). }
  split; [apply rule_line_fields|]. split; [exact Hn|].
  repeat split; intros Hno; rewrite Hn;
    [ rewrite (Hmiss col_action2 (lit "Action2"))
    | rewrite (Hmiss col_hw_sw (lit "HwSw"))
    | rewrite (Hmiss col_local_remote (lit "LocalRemote")) ];
    try assumption; try (simpl; tauto);
    destruct (column_filled U header row col_action2);
    destruct (column_filled U header row col_hw_sw);
    destruct (column_filled U header row col_local_remote);
    vm_compute; intros H;
    repeat (destruct H as [H|H]; [discriminate H|]); exact H.
Qed.

(** ** The output and the clock *)

Lemma write_go_split (now : str) (entries : list entry) (rules : list rule) :
  write_go now entries rules =
  write_go_head ++ generated_at_line (now ++ lit "Z") ++ write_go_tail entries rules.
Proof.
  unfold write_go, write_go_head, write_go_tail.
  change (write_go_lines now entries rules)
    with (lit "// Code generated by gen-catalog/gen.py; DO NOT EDIT."
          :: generated_at_line (now ++ lit "Z")
          :: write_go_rest_lines entries rules).
  rewrite join_cons by discriminate.
  rewrite join_cons by discriminate.
  now rewrite <- !app_assoc.
Qed.

Lemma generate_same_archive (U : UnicodeData) (w w' : world) :
  same_archive w w' ->
  generate U w =
  (sheet1 <- read_sheet U (sheet1_xml w') (shared_strings w') ;;
   sheet2 <- read_sheet U (sheet2_xml w') (shared_strings w') ;;
   entries <- build_catalog_entries U sheet1 ;;
   rules <- build_nvlink_rules U sheet2 ;;
   Ok (write_go (clock w) entries rules)).
Proof.
  intros (_ & _ & Hs & H1 & H2). unfold generate. now rewrite Hs, H1, H2.
Qed.

(** C9. The text [write_go] returns is a fixed first line, the line that
    carries the timestamp, and a rest that is a function of the two record
    lists alone; all lines but the second are the same whatever the clock.
    Two runs on the same archive therefore both fail with the same
    exception, or give texts that differ in the timestamp line only. *)
Theorem output_determined_up_to_timestamp (U : UnicodeData) (w w' : world) :
  same_archive w w' ->
  (forall now entries rules,
      write_go now entries rules =
      write_go_head ++ generated_at_line (now ++ lit "Z")
        ++ write_go_tail entries rules) /\
  (forall now now' entries rules i,
      i <> 1%nat ->
      nth_error (write_go_lines now entries rules) i =
      nth_error (write_go_lines now' entries rules) i) /\
  match generate U w, generate U w' with
  | Ok text, Ok text' =>
      exists tail,
        text = write_go_head ++ generated_at_line (clock w ++ lit "Z") ++ tail /\
        text' = write_go_head ++ generated_at_line (clock w' ++ lit "Z") ++ tail
  | Raise e, Raise e' => e = e'
  | _, _ => False
  end.
Proof.
  intros Hsame. split; [apply write_go_split|]. split.
  - intros now now' entries rules i Hi.
    destruct i as [|[|i]]; [reflexivity | contradiction | reflexivity].
  - rewrite (generate_same_archive U Hsame). unfold generate.
    destruct (read_sheet U (sheet1_xml w') _) as [s1|e]; cbn [bind]; [|reflexivity].
    destruct (read_sheet U (sheet2_xml w') _) as [s2|e]; cbn [bind]; [|reflexivity].
    destruct (build_catalog_entries U s1) as [entries|e]; cbn [bind]; [|reflexivity].
    destruct (build_nvlink_rules U s2) as [rules|e]; cbn [bind]; [|reflexivity].
    exists (write_go_tail entries rules). split; apply write_go_split.
Qed.

(** ** Cells that refer to the shared strings *)

Lemma read_cells_raise (U : UnicodeData) (shared : list str) (cs : list cell)
  (c : cell) (e : exn) :
  In c cs -> read_cell U shared c = Raise e ->
  exists e', read_cells U shared cs = Raise e'.
Proof.
  induction cs as [|c0 cs IH]; simpl; [contradiction|].
  intros [->|Hin] Hc.
  - rewrite Hc. simpl. eauto.
  - destruct (read_cell U shared c0); simpl; [|eauto].
    destruct (IH Hin Hc) as [e' ->]. simpl. eauto.
Qed.

Lemma read_sheet_raise (U : UnicodeData) (shared : list str) (sheet : sheet_xml)
  (row : list cell) (e : exn) :
  In row sheet -> read_cells U shared row = Raise e ->
  exists e', read_sheet U sheet shared = Raise e'.
Proof.
  induction sheet as [|row0 sheet IH]; simpl; [contradiction|].
  intros [->|Hin] Hr.
  - rewrite Hr. simpl. eauto.
  - destruct (read_cells U shared row0); simpl; [|eauto].
    destruct (IH Hin Hr) as [e' ->]. simpl. eauto.
Qed.

Lemma read_cell_bad_index (U : UnicodeData) (shared : list str) (c : cell)
  (text : str) :
  cell_t c = Some (lit "s") -> cell_v c = Some (Some text) ->
  bad_index U shared text ->
  read_cell U shared c = Raise ValueError \/ read_cell U shared c = Raise IndexError.
Proof.
  intros Ht Hv Hbad. unfold read_cell. rewrite Hv, Ht, str_eqb_refl.
  unfold bad_index in Hbad. unfold int_or_raise.
  destruct (py_int U 10 text) as [idx|]; cbn [bind]; [|now left].
  right. unfold getitem_int.
  destruct (Z.ltb_spec idx 0).
  - destruct (Z.ltb_spec (idx + Z.of_nat (length shared)) 0); [reflexivity|lia].
  - unfold getitem.
    destruct (nth_error shared (Z.to_nat idx)) eqn:E; [|reflexivity].
    assert (Hlt : (Z.to_nat idx < length shared)%nat).
    { apply nth_error_Some. congruence. }
    lia.
Qed.

(** C10. A cell marked as a shared-string reference whose text [int] does
    not read, or reads as an integer outside the indices of the table,
    makes the lookup raise; [read_sheet] does not catch it, neither does
    [main]: the run ends with the exception and the cell is neither dropped
    nor replaced by an empty string. *)
Theorem bad_shared_string_aborts (U : UnicodeData) (w : world)
  (sheet : sheet_xml) (row : list cell) (c : cell) (text : str) :
  sheet1_xml w = sheet \/ sheet2_xml w = sheet ->
  In row sheet -> In c row ->
  cell_t c = Some (lit "s") -> cell_v c = Some (Some text) ->
  bad_index U (shared_strings w) text ->
  length (argv w) = 3%nat -> xlsx_is_file w = true ->
  (read_cell U (shared_strings w) c = Raise ValueError \/
   read_cell U (shared_strings w) c = Raise IndexError) /\
  (exists e, read_sheet U sheet (shared_strings w) = Raise e) /\
  (exists e, main U w = (Uncaught e, output_file w)).
Proof.
  intros Hw Hrow Hc Ht Hv Hbad Hargv Hfile.
  pose proof (read_cell_bad_index U (shared_strings w) c Ht Hv Hbad) as Hcell.
  assert (Hs : exists e, read_sheet U sheet (shared_strings w) = Raise e).
  { destruct Hcell as [Hcell|Hcell];
      destruct (read_cells_raise U (shared_strings w) row c Hc Hcell) as [e He];
      exact (read_sheet_raise U (shared_strings w) sheet row Hrow He). }
  split; [exact Hcell|]. split; [exact Hs|].
  destruct Hs as [e He]. unfold main, generate.
  rewrite Hargv, Hfile. cbn [Nat.eqb negb].
  destruct Hw as [->| ->].
  - rewrite He. cbn [bind]. eauto.
  - destruct (read_sheet U (sheet1_xml w) _) as [s1|e1]; cbn [bind].
    + rewrite He. cbn [bind]. eauto.
    + eauto.
Qed.

Lemma bad_shared_string_aborts_witness :
  (read_cell latin1 sample_shared (shared_cell (lit "7")) = Raise IndexError /\
   main latin1 (world_with_sheet1 sheet_out_of_range)
     = (Uncaught IndexError, Some (lit "package xid"))) /\
  (read_cell latin1 sample_shared (shared_cell (lit "one")) = Raise ValueError /\
   main latin1 (world_with_sheet1 sheet_not_numeric)
     = (Uncaught ValueError, Some (lit "package xid"))).
Proof.
  split.
  - assert (Hrow : In [shared_cell (lit "0"); shared_cell (lit "7")] sheet_out_of_range)
      by (right; left; reflexivity).
    assert (Hc : In (shared_cell (lit "7"))
                    [shared_cell (lit "0"); shared_cell (lit "7")])
      by (right; left; reflexivity).
    assert (Hbad : bad_index latin1 sample_shared (lit "7"))
      by (vm_compute; right; discriminate).
    destruct (@bad_shared_string_aborts latin1 (world_with_sheet1 sheet_out_of_range)
                sheet_out_of_range _ _ (lit "7") (or_introl eq_refl) Hrow Hc
                eq_refl eq_refl Hbad eq_refl eq_refl) as (_ & _ & e & He).
    split; [reflexivity|]. rewrite He. vm_compute in He.
    injection He as <-. reflexivity.
  - assert (Hrow : In [shared_cell (lit "0"); shared_cell (lit "one")] sheet_not_numeric)
      by (left; reflexivity).
    assert (Hc : In (shared_cell (lit "one"))
                    [shared_cell (lit "0"); shared_cell (lit "one")])
      by (right; left; reflexivity).
    assert (Hbad : bad_index latin1 sample_shared (lit "one"))
      by (vm_compute; exact I).
    destruct (@bad_shared_string_aborts latin1 (world_with_sheet1 sheet_not_numeric)
                sheet_not_numeric _ _ (lit "one") (or_introl eq_refl) Hrow Hc
                eq_refl eq_refl Hbad eq_refl eq_refl) as (_ & _ & e & He).
    split; [reflexivity|]. rewrite He. vm_compute in He.
    injection He as <-. reflexivity.
Defined.

(** ** Sample runs *)

Lemma rule_literal_fields_witness :
  nvlink_row latin1 10 nvlink_no_action2_columns nvlink_row_no_action2
    = Ok (Some rule_no_action2) /\
  rule_line rule_no_action2 = render_literal (rule_fields rule_no_action2) /\
  List.map fst (rule_fields rule_no_action2) = mandatory_names ++ [lit "LocalRemote"] /\
  ~ In (lit "Action2") (List.map fst (rule_fields rule_no_action2)).
Proof.
  assert (Hrow : nvlink_row latin1 (length nvlink_header_no_action2)
                   nvlink_no_action2_columns nvlink_row_no_action2
                 = Ok (Some rule_no_action2)) by reflexivity.
  destruct (@rule_literal_fields latin1 nvlink_header_no_action2
              nvlink_no_action2_columns nvlink_row_no_action2 rule_no_action2
              eq_refl Hrow) as (Hline & Hnames & Ha2 & _).
  split; [exact Hrow|]. split; [exact Hline|]. split; [exact Hnames|].
  apply Ha2. simpl. intros H.
  repeat (destruct H as [H|H]; [discriminate H|]). exact H.
Defined.

Example rule_line_no_action2 :
  rule_line rule_no_action2 =
  [TAB] ++ lit "{Xid: 145, Unit: " ++ quoted "RLW" ++
  lit ", IntrinfoPatternV1: " ++ quoted "0---1" ++
  lit ", IntrinfoPatternV2: " ++ quoted "-0--1" ++
  lit ", ErrorStatus: 0x0000001a, Resolution: " ++ quoted "RESET_GPU" ++
  lit ", Investigatory: " ++ quoted "CHECK_LINK" ++
  lit ", Severity: " ++ quoted "Fatal" ++
  lit ", LocalRemote: " ++ quoted "Local" ++ lit "},".
Proof. reflexivity. Qed.

Example entry_line_79 :
  entry_line entry_79 =
  [TAB] ++ lit "{Code: 79, Mnemonic: " ++ quoted "GPU has fallen off the bus" ++
  lit ", Description: " ++ quoted "..." ++
  lit ", ImmediateResolution: " ++ quoted "Reset" ++
  lit ", InvestigatoryResolution: " ++ quoted "Check PCIe" ++ lit ",},".
Proof. reflexivity. Qed.

Lemma output_determined_up_to_timestamp_witness :
  exists text text' tail,
    generate latin1 (sample_world catalog_sheet nvlink_sheet) = Ok text /\
    generate latin1 (sample_world_later catalog_sheet nvlink_sheet) = Ok text' /\
    text = write_go_head
           ++ generated_at_line (lit "2025-01-01T00:00:00Z") ++ tail /\
    text' = write_go_head
            ++ generated_at_line (lit "2026-06-30T12:00:00Z") ++ tail.
Proof.
  assert (Hsame : same_archive (sample_world catalog_sheet nvlink_sheet)
                               (sample_world_later catalog_sheet nvlink_sheet))
    by (repeat split; reflexivity).
  pose proof (output_determined_up_to_timestamp latin1 Hsame) as (_ & _ & H).
  destruct (generate latin1 (sample_world catalog_sheet nvlink_sheet))
    as [text|e] eqn:E;
    [|vm_compute in E; discriminate E].
  destruct (generate latin1 (sample_world_later catalog_sheet nvlink_sheet))
    as [text'|e'] eqn:E';
    [|contradiction].
  destruct H as (tail & Ht & Ht').
  exists text, text', tail. repeat split; assumption.
Defined.

(** ** The built-ins on sample texts *)

Example int_79 : py_int latin1 10 (lit "79") = Some 79%Z.
Proof. reflexivity. Qed.

Example int_hex_1A : py_int latin1 16 (lit "0x1A") = Some 26%Z.
Proof. reflexivity. Qed.

Example int_hex_NA : py_int latin1 16 (lit "N/A") = None.
Proof. reflexivity. Qed.

Example int_hex_signed : py_int latin1 16 (lit "-0x_1a") = Some (-26)%Z.
Proof. reflexivity. Qed.

Example int_hex_prefix_only : py_int latin1 16 (lit "0x") = None.
Proof. reflexivity. Qed.

Example int_underscores :
  py_int latin1 10 (lit "1_000") = Some 1000%Z /\
  py_int latin1 10 (lit "1__0") = None /\
  py_int latin1 10 (lit "10_") = None.
Proof. repeat split; reflexivity. Qed.

Example strip_spaces : strip latin1 (lit "  a b ") = lit "a b".
Proof. reflexivity. Qed.

Example format_08x_negative : format_08x (-1) = lit "-0000001".
Proof. reflexivity. Qed.

Example str_of_int_samples :
  str_of_int 0 = lit "0" /\ str_of_int 145 = lit "145" /\ str_of_int (-12) = lit "-12".
Proof. repeat split; reflexivity. Qed.

(** The sample catalog sheet: the row of another type and the short row are
    skipped, the other two are sorted by code. *)
Example build_catalog_sheet :
  build_catalog_entries latin1 catalog_sheet = Ok [entry_13; entry_79].
Proof. reflexivity. Qed.

(** A negative index of a shared string counts from the end of the table. *)
Example shared_cell_negative :
  read_cell latin1 sample_shared (shared_cell (lit "-1")) = Ok (lit "Code").
Proof. reflexivity. Qed.

Example build_nvlink_sheet_no_action2 :
  build_nvlink_rules latin1 nvlink_sheet_no_action2 = Ok [rule_no_action2].
Proof. reflexivity. Qed.

(** * Further properties of the code *)

(** ** The sheet parser *)

Lemma read_cells_length (U : UnicodeData) (shared : list str) (cs : list cell)
  (vs : list str) :
  read_cells U shared cs = Ok vs -> length vs = length cs.
Proof.
  revert vs; induction cs as [|c cs IH]; simpl; intros vs H.
  - injection H as <-. reflexivity.
  - bind_inv H. injection H as <-. simpl. f_equal. now apply IH.
Qed.

(** The grid [read_sheet] returns has one row for each row element that
    has cells, in the order of the sheet, with one value for each cell;
    no row of the grid is empty. *)
Theorem read_sheet_shape (U : UnicodeData) (sheet : sheet_xml) (shared : list str)
  (g : grid) :
  read_sheet U sheet shared = Ok g ->
  List.map (@length str) g
    = filter (fun n => negb (Nat.eqb n 0)) (List.map (@length cell) sheet) /\
  Forall (fun row => row <> []) g.
Proof.
  revert g; induction sheet as [|row sheet IH]; simpl; intros g H.
  - injection H as <-. split; [reflexivity | constructor].
  - bind_inv H. injection H as <-.
    destruct (IH _ Ha0) as [Hl Hn].
    pose proof (read_cells_length _ _ _ Ha) as Hlen.
    destruct a as [|v vs]; simpl in Hlen.
    + rewrite <- Hlen. simpl. auto.
    + rewrite <- Hlen. simpl. split; [now f_equal|].
      constructor; [discriminate | assumption].
Qed.

Lemma read_sheet_shape_witness :
  read_sheet latin1 sheet_mixed sample_shared
    = Ok [[lit "Type"; []; []; []]; [lit "79"]] /\
  List.map (@length str) [[lit "Type"; []; []; []]; [lit "79"]]
    = filter (fun n => negb (Nat.eqb n 0)) (List.map (@length cell) sheet_mixed) /\
  Forall (fun row => row <> []) [[lit "Type"; ([] : str); []; []]; [lit "79"]].
Proof.
  split; [reflexivity|].
  exact (@read_sheet_shape latin1 sheet_mixed sample_shared _ eq_refl).
Defined.

Lemma read_cell_literal (U : UnicodeData) (shared : list str) (c : cell) :
  needs_lookup c = false -> read_cell U shared c = Ok (literal_value c).
Proof.
  unfold needs_lookup, read_cell, literal_value.
  destruct (cell_v c) as [text|]; [|reflexivity].
  destruct (cell_t c) as [t|]; [|destruct text; reflexivity].
  intros ->. destruct text; reflexivity.
Qed.

Lemma read_cells_literal (U : UnicodeData) (shared : list str) (cs : list cell) :
  forallb (fun c => negb (needs_lookup c)) cs = true ->
  read_cells U shared cs = Ok (List.map literal_value cs).
Proof.
  induction cs as [|c cs IH]; simpl; [reflexivity|].
  intros H. apply andb_true_iff in H as [Hc Hcs].
  apply negb_true_iff in Hc.
  rewrite (read_cell_literal U shared c Hc). cbn [bind].
  rewrite (IH Hcs). reflexivity.
Qed.

(** On a sheet none of whose cells is a shared-string reference with a
    value, [read_sheet] does not raise, whatever the shared strings are:
    each cell gives the text of its value, the empty string when it has
    none, and the rows without cells are left out. *)
Theorem read_sheet_without_lookup (U : UnicodeData) (sheet : sheet_xml)
  (shared : list str) :
  forallb (forallb (fun c => negb (needs_lookup c))) sheet = true ->
  read_sheet U sheet shared
    = Ok (filter (fun row => negb (is_empty_row row))
                 (List.map (List.map literal_value) sheet)).
Proof.
  induction sheet as [|row sheet IH]; simpl; [reflexivity|].
  intros H. apply andb_true_iff in H as [Hr Hs].
  rewrite (read_cells_literal U shared row Hr). cbn [bind].
  rewrite (IH Hs). cbn [bind].
  destruct row; reflexivity.
Qed.

Lemma read_sheet_without_lookup_witness :
  read_sheet latin1 sheet_mixed []
    = Ok [[lit "Type"; []; []; []]; [lit "79"]].
Proof.
  exact (@read_sheet_without_lookup latin1 sheet_mixed [] eq_refl).
Defined.

(** A shared-string cell whose text [int] reads as an index of the table
    gives the string at that index; an index from -len to -1 counts from
    the end of the table, as in any Python list. *)
Theorem shared_cell_lookup (U : UnicodeData) (shared : list str) (c : cell)
  (text : str) (idx : Z) :
  cell_t c = Some (lit "s") -> cell_v c = Some (Some text) ->
  py_int U 10 text = Some idx ->
  (- Z.of_nat (length shared) <= idx < Z.of_nat (length shared))%Z ->
  exists s,
    nth_error shared (Z.to_nat (idx mod Z.of_nat (length shared))) = Some s /\
    read_cell U shared c = Ok s.
Proof.
  intros Ht Hv Hi Hr. unfold read_cell. rewrite Hv, Ht, str_eqb_refl.
  unfold int_or_raise. rewrite Hi. cbn [bind]. unfold getitem_int, getitem.
  set (n := Z.of_nat (length shared)) in *.
  assert (Hm : (if (idx <? 0)%Z then idx + n else idx)%Z = (idx mod n)%Z).
  { destruct (Z.ltb_spec idx 0).
    - apply (Z.mod_unique_pos idx n (-1)); lia.
    - symmetry. apply Z.mod_small. lia. }
  assert (Hlt : (Z.to_nat (idx mod n) < length shared)%nat).
  { pose proof (Z.mod_pos_bound idx n). lia. }
  destruct (nth_error shared (Z.to_nat (idx mod n))) as [s|] eqn:E.
  - exists s. split; [reflexivity|].
    destruct (Z.ltb_spec idx 0).
    + destruct (Z.ltb_spec (idx + n) 0); [lia|]. now rewrite Hm, E.
    + now rewrite Hm, E.
  - apply nth_error_None in E. lia.
Qed.

Lemma shared_cell_lookup_witness :
  read_cell latin1 sample_shared (shared_cell (lit "-1")) = Ok (lit "Code") /\
  read_cell latin1 sample_shared (shared_cell (lit "1")) = Ok (lit "Code").
Proof.
  split.
  - destruct (@shared_cell_lookup latin1 sample_shared (shared_cell (lit "-1"))
                (lit "-1") (-1)%Z eq_refl eq_refl eq_refl) as (s & Hs & Hc).
    + simpl. lia.
    + rewrite Hc. vm_compute in Hs. injection Hs as <-. reflexivity.
  - destruct (@shared_cell_lookup latin1 sample_shared (shared_cell (lit "1"))
                (lit "1") 1%Z eq_refl eq_refl eq_refl) as (s & Hs & Hc).
    + simpl. lia.
    + rewrite Hc. vm_compute in Hs. injection Hs as <-. reflexivity.
Defined.

(** ** The shared strings *)

(** [load_shared_strings] returns one string for each [si] element, the
    ones without text included, so the index written in a cell is the
    position of the [si] element: the cell gets the texts of the [t]
    elements below that [si], joined in document order. *)
Theorem shared_strings_by_position (U : UnicodeData) (root si : xml) (c : cell)
  (text : str) (i : nat) :
  cell_t c = Some (lit "s") -> cell_v c = Some (Some text) ->
  py_int U 10 text = Some (Z.of_nat i) ->
  nth_error (findall_children (main_tag "si") root) i = Some si ->
  length (load_shared_strings (Some root))
    = length (findall_children (main_tag "si") root) /\
  read_cell U (load_shared_strings (Some root)) c = Ok (concat (text_fragments si)).
Proof.
  intros Ht Hv Hi Hsi.
  assert (Hlen : length (load_shared_strings (Some root))
                 = length (findall_children (main_tag "si") root))
    by apply length_map.
  split; [exact Hlen|].
  unfold read_cell. rewrite Hv, Ht, str_eqb_refl.
  unfold int_or_raise. rewrite Hi. cbn [bind]. unfold getitem_int.
  destruct (Z.ltb_spec (Z.of_nat i) 0); [lia|].
  rewrite Nat2Z.id. unfold getitem, load_shared_strings.
  rewrite nth_error_map, Hsi. reflexivity.
Qed.

Lemma shared_strings_by_position_witness :
  load_shared_strings (Some sample_shared_part)
    = [lit "XID"; lit "Code"; []; lit "Mnemonic"] /\
  read_cell latin1 (load_shared_strings (Some sample_shared_part))
    (shared_cell (lit "3")) = Ok (lit "Mnemonic").
Proof.
  split; [reflexivity|].
  destruct (@shared_strings_by_position latin1 sample_shared_part
              (Element (main_tag "si") None [t_node "Mnemonic"])
              (shared_cell (lit "3")) (lit "3") 3
              eq_refl eq_refl eq_refl eq_refl) as [_ H].
  exact H.
Defined.

(** Without the part xl/sharedStrings.xml the table is empty, and every
    shared-string cell that has a value makes the lookup raise. *)
Theorem no_shared_part_no_lookup (U : UnicodeData) (c : cell) (text : option str) :
  cell_t c = Some (lit "s") -> cell_v c = Some text ->
  load_shared_strings None = [] /\
  exists e, read_cell U (load_shared_strings None) c = Raise e.
Proof.
  intros Ht Hv. split; [reflexivity|].
  unfold read_cell. rewrite Hv, Ht, str_eqb_refl.
  destruct text as [s|]; [|eauto].
  unfold int_or_raise. destruct (py_int U 10 s) as [idx|]; cbn [bind]; [|eauto].
  unfold getitem_int. simpl length.
  destruct (Z.ltb_spec idx 0).
  - destruct (Z.ltb_spec (idx + Z.of_nat 0) 0); [eauto | lia].
  - unfold getitem. destruct (Z.to_nat idx); simpl; eauto.
Qed.

Lemma no_shared_part_no_lookup_witness :
  read_cell latin1 (load_shared_strings None) (shared_cell (lit "0"))
    = Raise IndexError.
Proof.
  destruct (@no_shared_part_no_lookup latin1 (shared_cell (lit "0"))
              (Some (lit "0")) eq_refl eq_refl) as (_ & e & He).
  rewrite He. vm_compute in He. injection He as <-. reflexivity.
Defined.

(** ** What the builders put into the records *)

Lemma collect_In {A B} (body : A -> result (option B)) (l : list A)
  (bs : list B) (b : B) :
  collect body l = Ok bs -> In b bs ->
  exists a, In a l /\ body a = Ok (Some b).
Proof.
  revert bs; induction l as [|a l IH]; simpl; intros bs H Hin.
  - injection H as <-. contradiction.
  - destruct (body a) as [r|e] eqn:Eb; cbn [bind] in H; [|discriminate].
    destruct (collect body l) as [rest|e] eqn:Ec; cbn [bind] in H; [|discriminate].
    injection H as <-.
    assert (Hrest : In b rest -> exists a0, In a0 (a :: l) /\ body a0 = Ok (Some b)).
    { intros Hr. destruct (IH _ eq_refl Hr) as (a' & Ha' & Hb).
      exists a'. split; [now right | exact Hb]. }
    destruct r as [b0|]; [|exact (Hrest Hin)].
    destruct Hin as [<-|Hin]; [|exact (Hrest Hin)].
    exists a. split; [now left | exact Eb].
Qed.

Lemma catalog_row_entry (U : UnicodeData) (width : nat) (ix : catalog_columns)
  (row : list str) (e : entry) :
  catalog_in_range width ix ->
  catalog_row U width ix row = Ok (Some e) ->
  e = entry_of_row U width ix row (code e).
Proof.
  intros Hr. rewrite catalog_row_eq by assumption.
  destruct (negb _); [discriminate|].
  destruct (is_empty _ || negb _); [discriminate|].
  destruct (py_int U 10 _); [|discriminate].
  intros H. injection H as <-. reflexivity.
Qed.

(** Every entry of a returned list was made of a data row of the sheet. *)
Lemma build_catalog_entries_In (U : UnicodeData) (rows : grid) (es : list entry)
  (e : entry) :
  build_catalog_entries U rows = Ok es -> In e es ->
  exists header data ix row,
    rows = header :: data /\ catalog_indices header = Ok ix /\ In row data /\
    catalog_row U (length header) ix row = Ok (Some e).
Proof.
  intros H Hin.
  apply build_catalog_entries_ok in H as (header & data & ix & raw & -> & Hix & Hc & ->).
  apply (Permutation_in _ (Permutation_sym (sort_by_perm code Z.ltb raw))) in Hin.
  destruct (collect_In _ _ e Hc Hin) as (row & Hrow & Hb).
  exists header, data, ix, row. auto.
Qed.

Lemma build_nvlink_rules_In (U : UnicodeData) (rows : grid) (rs : list rule)
  (r : rule) :
  build_nvlink_rules U rows = Ok rs -> In r rs ->
  exists header data ix row,
    rows = header :: data /\ nvlink_indices header = Ok ix /\ In row data /\
    nvlink_row U (length header) ix row = Ok (Some r).
Proof.
  intros H Hin.
  apply build_nvlink_rules_ok in H as (header & data & ix & raw & -> & Hix & Hc & ->).
  apply (Permutation_in _ (Permutation_sym (sort_by_perm rule_key key_ltb raw))) in Hin.
  destruct (collect_In _ _ r Hc Hin) as (row & Hrow & Hb).
  exists header, data, ix, row. auto.
Qed.

(** *** Trimmed texts *)

Lemma lstrip_head (U : UnicodeData) (s : str) (c : char) (t : str) :
  lstrip U s = c :: t -> isspace_char U c = false.
Proof.
  induction s as [|x s IH]; simpl; [discriminate|].
  destruct (isspace_char U x) eqn:E; [exact IH|].
  intros H. injection H as <- _. exact E.
Qed.

Lemma lstrip_suffix (U : UnicodeData) (s : str) :
  exists p, s = p ++ lstrip U s.
Proof.
  induction s as [|x s [p IH]]; simpl.
  - exists []. reflexivity.
  - destruct (isspace_char U x).
    + exists (x :: p). simpl. now f_equal.
    + exists []. reflexivity.
Qed.

Lemma strip_trimmed (U : UnicodeData) (s : str) : trimmed U (strip U s).
Proof.
  unfold trimmed, strip, rstrip. split; intros c t H.
  - apply (f_equal (@rev char)) in H. rewrite rev_involutive in H.
    simpl in H.
    destruct (lstrip_suffix U (rev (lstrip U s))) as [p Hp].
    rewrite H in Hp. apply (f_equal (@rev char)) in Hp.
    rewrite rev_involutive, !rev_app_distr in Hp. simpl in Hp.
    rewrite rev_involutive in Hp. simpl in Hp.
    eapply lstrip_head. exact Hp.
  - apply (f_equal (@rev char)) in H. rewrite rev_involutive in H.
    rewrite rev_app_distr in H. simpl in H.
    eapply lstrip_head. exact H.
Qed.

Lemma optional_value_trimmed (U : UnicodeData) (width : nat) (row : list str)
  (i : option nat) :
  trimmed_option U (optional_value U width row i).
Proof. destruct i; simpl; [apply strip_trimmed | exact I]. Qed.

(** The text fields of the records a builder returns are trimmed: none of
    them begins or ends with a whitespace character. *)
Theorem emitted_texts_trimmed (U : UnicodeData) (sheet1 sheet2 : grid) :
  (forall entries, build_catalog_entries U sheet1 = Ok entries ->
                   Forall (entry_trimmed U) entries) /\
  (forall rules, build_nvlink_rules U sheet2 = Ok rules ->
                 Forall (rule_trimmed U) rules).
Proof.
  split.
  - intros entries H. apply Forall_forall. intros e Hin.
    destruct (@build_catalog_entries_In U _ _ _ H Hin)
      as (header & data & ix & row & _ & Hix & _ & Hrow).
    rewrite (catalog_row_entry U row (catalog_indices_in_range _ Hix) Hrow).
    repeat split; apply strip_trimmed.
  - intros rules H. apply Forall_forall. intros r Hin.
    destruct (@build_nvlink_rules_In U _ _ _ H Hin)
      as (header & data & ix & row & _ & Hix & _ & Hrow).
    rewrite (nvlink_row_rule U row (nvlink_indices_in_range _ Hix) Hrow).
    unfold rule_trimmed. cbn [rule_of_row unit_ intrinfo_v1 intrinfo_v2 resolution
      rule_investigatory severity action2 hw_sw local_remote].
    repeat (split; [apply strip_trimmed|]).
    repeat split; apply optional_value_trimmed.
Qed.

Lemma emitted_texts_trimmed_witness :
  build_catalog_entries latin1 catalog_sheet = Ok [entry_13; entry_79] /\
  Forall (entry_trimmed latin1) [entry_13; entry_79] /\
  Forall (rule_trimmed latin1) [rule_no_action2].
Proof.
  destruct (emitted_texts_trimmed latin1 catalog_sheet nvlink_sheet_no_action2)
    as [H1 H2].
  split; [reflexivity|].
  split; [apply H1; reflexivity | apply H2; reflexivity].
Defined.

(** *** The integers of the records *)

Lemma skip_space_incl (s : str) (c : char) : In c (skip_space s) -> In c s.
Proof.
  induction s as [|x s IH]; simpl; [tauto|].
  destruct (c_isspace x); simpl; tauto.
Qed.

Lemma PyLong_FromString_unsigned (base : N) (s : str) (z : Z) :
  ~ In 45%N s -> PyLong_FromString base s = Some z -> (0 <= z)%Z.
Proof.
  intros Hno. unfold PyLong_FromString.
  assert (Hs : exists s1, skip_sign (skip_space s) = (false, s1)).
  { destruct (skip_space s) as [|c s'] eqn:E; simpl; [eauto|].
    destruct (N.eqb_spec c 43); [eauto|].
    destruct (N.eqb_spec c 45) as [->|]; [|eauto].
    exfalso. apply Hno. apply skip_space_incl. rewrite E. now left. }
  destruct Hs as [s1 ->].
  destruct (starts_with_underscore _); [discriminate|].
  destruct (scan_digits _ _ _ _ _) as [[[n [|k]] rest]|]; try discriminate.
  destruct (skip_space rest); [|discriminate].
  intros H. injection H as <-. lia.
Qed.

Lemma to_ascii_isdigit_not_minus (U : UnicodeData) (c : char) :
  isdigit_char U c = true -> to_ascii U c <> 45%N.
Proof.
  unfold isdigit_char, to_ascii, isspace_char.
  destruct (N.ltb_spec c 128) as [H|H].
  - intros D. apply andb_true_iff in D as [D1 D2].
    apply N.leb_le in D1, D2. destruct (N.ltb_spec c 127); lia.
  - intros _. destruct (N.ltb_spec c 127); [lia|].
    destruct (uni_isspace U c); [discriminate|].
    destruct (uni_todecimal U c); [lia | discriminate].
Qed.

(** What passes [isdigit] and is read by [int] is not negative. *)
Lemma py_int_isdigit_nonneg (U : UnicodeData) (s : str) (z : Z) :
  isdigit U s = true -> py_int U 10 s = Some z -> (0 <= z)%Z.
Proof.
  intros Hd. unfold py_int. apply PyLong_FromString_unsigned.
  intros Hin. apply in_map_iff in Hin as (c & Hc & Hin).
  destruct s as [|x s]; [discriminate|]. unfold isdigit in Hd.
  rewrite forallb_forall in Hd.
  exact (to_ascii_isdigit_not_minus U c (Hd c Hin) Hc).
Qed.

Lemma nvlink_row_kept (U : UnicodeData) (width : nat) (ix : nvlink_columns)
  (row : list str) (r : rule) :
  nvlink_in_range width ix ->
  nvlink_row U width ix row = Ok (Some r) ->
  isdigit U (strip U (cell_at width row (idx_xid ix))) = true /\
  py_int U 10 (strip U (cell_at width row (idx_xid ix))) = Some (xid r) /\
  py_int U 16 (error_status_text U width ix row) = Some (error_status r) /\
  unit_ r = strip U (cell_at width row (idx_subcode ix)) /\
  unit_ r <> [].
Proof.
  intros Hr. rewrite nvlink_row_eq by assumption.
  destruct (isdigit U _); [|rewrite orb_true_r; discriminate].
  destruct (strip U (cell_at width row (idx_subcode ix))) as [|d sub] eqn:Es;
    [rewrite orb_true_r; discriminate|].
  destruct (is_empty _ || _ || _); [discriminate|].
  destruct (py_int U 16 _); [|discriminate].
  destruct (py_int U 10 _); [|discriminate].
  intros H. injection H as <-. cbn [rule_of_row xid error_status unit_].
  rewrite Es. repeat split. discriminate.
Qed.

(** The code of every returned entry and the xid of every returned rule
    are not negative (a sign does not pass [isdigit]), and the unit of a
    rule is not empty. *)
Theorem emitted_integers_not_negative (U : UnicodeData) (sheet1 sheet2 : grid) :
  (forall entries, build_catalog_entries U sheet1 = Ok entries ->
                   Forall (fun e => (0 <= code e)%Z) entries) /\
  (forall rules, build_nvlink_rules U sheet2 = Ok rules ->
                 Forall (fun r => (0 <= xid r)%Z /\ unit_ r <> []) rules).
Proof.
  split.
  - intros entries H. apply Forall_forall. intros e Hin.
    destruct (@build_catalog_entries_In U _ _ _ H Hin)
      as (header & data & ix & row & _ & Hix & _ & Hrow).
    destruct (catalog_row_kept U row (catalog_indices_in_range _ Hix) Hrow)
      as (_ & Hd & Hi).
    exact (py_int_isdigit_nonneg U _ Hd Hi).
  - intros rules H. apply Forall_forall. intros r Hin.
    destruct (@build_nvlink_rules_In U _ _ _ H Hin)
      as (header & data & ix & row & _ & Hix & _ & Hrow).
    destruct (nvlink_row_kept U row (nvlink_indices_in_range _ Hix) Hrow)
      as (Hd & Hi & _ & _ & Hu).
    split; [exact (py_int_isdigit_nonneg U _ Hd Hi) | exact Hu].
Qed.

Lemma emitted_integers_not_negative_witness :
  Forall (fun e => (0 <= code e)%Z) [entry_13; entry_79] /\
  Forall (fun r => (0 <= xid r)%Z /\ unit_ r <> []) [rule_no_action2].
Proof.
  destruct (emitted_integers_not_negative latin1 catalog_sheet nvlink_sheet_no_action2)
    as [H1 H2].
  split; [apply H1; reflexivity | apply H2; reflexivity].
Defined.

(** *** The order of records with equal keys *)

Section SortStable.

Variables (A K : Type) (key : A -> K) (ltb : K -> K -> bool).
Variable p : A -> bool.
Hypothesis p_same_key :
  forall x y, p x = true -> p y = true -> ltb (key y) (key x) = false.

Lemma insert_by_filter (x : A) (l : list A) :
  filter p (insert_by key ltb x l) = filter p (x :: l).
Proof.
  induction l as [|y l IH]; [reflexivity|].
  cbn [insert_by]. destruct (ltb (key y) (key x)) eqn:E; [|reflexivity].
  cbn [filter]. rewrite IH. cbn [filter].
  destruct (p x) eqn:Px; [|reflexivity].
  destruct (p y) eqn:Py; [|reflexivity].
  rewrite (p_same_key Px Py) in E. discriminate E.
Qed.

Lemma sort_by_filter (l : list A) :
  filter p (sort_by key ltb l) = filter p l.
Proof.
  induction l as [|x l IH]; [reflexivity|].
  cbn [sort_by]. rewrite insert_by_filter. cbn [filter]. now rewrite IH.
Qed.

End SortStable.

Lemma key_ltb_same (a b : Z * str * Z) (k : Z * str * Z) :
  key_eqb a k = true -> key_eqb b k = true -> key_ltb b a = false.
Proof.
  destruct a as [[x1 u1] e1], b as [[x2 u2] e2], k as [[x u] e].
  unfold key_eqb, key_ltb. intros Ha Hb.
  apply andb_true_iff in Ha as [Ha Ha3]. apply andb_true_iff in Ha as [Ha1 Ha2].
  apply andb_true_iff in Hb as [Hb Hb3]. apply andb_true_iff in Hb as [Hb1 Hb2].
  apply Z.eqb_eq in Ha1, Ha3, Hb1, Hb3. apply str_eqb_eq in Ha2, Hb2. subst.
  rewrite Z.eqb_refl, str_eqb_refl. simpl. apply Z.ltb_irrefl.
Qed.

(** The sort of both builders is stable: the records with one and the
    same key come out in the order of their rows in the sheet. *)
Theorem equal_keys_keep_sheet_order (U : UnicodeData) (header : list str)
  (data : list (list str)) :
  (forall ix raw entries,
      catalog_indices header = Ok ix ->
      collect (catalog_row U (length header) ix) data = Ok raw ->
      build_catalog_entries U (header :: data) = Ok entries ->
      forall c, filter (fun e => Z.eqb (code e) c) entries
                = filter (fun e => Z.eqb (code e) c) raw) /\
  (forall ix raw rules,
      nvlink_indices header = Ok ix ->
      collect (nvlink_row U (length header) ix) data = Ok raw ->
      build_nvlink_rules U (header :: data) = Ok rules ->
      forall k, filter (fun r => key_eqb (rule_key r) k) rules
                = filter (fun r => key_eqb (rule_key r) k) raw).
Proof.
  split.
  - intros ix raw entries Hix Hraw H c.
    unfold build_catalog_entries in H. cbn [getitem nth_error bind tl] in H.
    rewrite Hix in H. cbn [bind] in H. rewrite Hraw in H. cbn [bind] in H.
    injection H as <-. apply sort_by_filter.
    intros x y Hx Hy. apply Z.eqb_eq in Hx, Hy. rewrite Hx, Hy.
    apply Z.ltb_irrefl.
  - intros ix raw rules Hix Hraw H k.
    unfold build_nvlink_rules in H. cbn [getitem nth_error bind tl] in H.
    rewrite Hix in H. cbn [bind] in H. rewrite Hraw in H. cbn [bind] in H.
    injection H as <-. apply sort_by_filter.
    intros x y Hx Hy. exact (key_ltb_same _ _ _ Hx Hy).
Qed.

Lemma equal_keys_keep_sheet_order_witness :
  filter (fun e => Z.eqb (code e) 79) [entry_13; entry_79; entry_79_again]
    = filter (fun e => Z.eqb (code e) 79) [entry_79; entry_13; entry_79_again] /\
  filter (fun r => key_eqb (rule_key r) (145%Z, lit "RLW", 26%Z))
         [rule_145_1A_again; rule_145_1A]
    = filter (fun r => key_eqb (rule_key r) (145%Z, lit "RLW", 26%Z))
             [rule_145_1A_again; rule_145_1A].
Proof.
  split.
  - exact (proj1 (equal_keys_keep_sheet_order latin1 catalog_header
                    (tl catalog_sheet_duplicate))
             catalog_sample_columns [entry_79; entry_13; entry_79_again]
             [entry_13; entry_79; entry_79_again] eq_refl eq_refl eq_refl 79%Z).
  - exact (proj2 (equal_keys_keep_sheet_order latin1 nvlink_header
                    (tl nvlink_sheet_ties))
             nvlink_sample_columns [rule_145_1A_again; rule_145_1A]
             [rule_145_1A_again; rule_145_1A] eq_refl eq_refl eq_refl
             (145%Z, lit "RLW", 26%Z)).
Defined.

(** *** Which column a name stands for *)

Lemma index_from_first (x : str) (l : list str) (i n : nat) :
  index_from x l i = Ok n ->
  exists k, n = (i + k)%nat /\ first_position l x k.
Proof.
  revert i; induction l as [|y l IH]; simpl; intros i H; [discriminate|].
  destruct (str_eqb y x) eqn:E.
  - injection H as <-. apply str_eqb_eq in E. subst y.
    exists 0%nat. split; [lia|]. split; [reflexivity|]. intros j Hj. lia.
  - apply str_eqb_neq in E. destruct (IH _ H) as (k & -> & Hk & Hbefore).
    exists (S k). split; [lia|]. split; [exact Hk|].
    intros [|j] Hj; simpl; [congruence|]. apply Hbefore. lia.
Qed.

Lemma index_first (l : list str) (x : str) (n : nat) :
  index l x = Ok n -> first_position l x n.
Proof.
  intros H. destruct (index_from_first _ _ _ H) as (k & -> & Hk). exact Hk.
Qed.

Lemma optional_index_first (header : list str) (name : str) (i : option nat) :
  optional_index header name = Ok i -> first_position_option header name i.
Proof.
  rewrite optional_index_eq. intros H. injection H as <-.
  destruct (index header name) as [n|e] eqn:E; simpl.
  - now apply index_first.
  - intros Hin. apply contains_In in Hin.
    destruct (index_cases header name) as [[n Hn]|Hn]; [congruence|].
    apply index_from_contains in Hn. congruence.
Qed.

(** Each column a builder reads is the leftmost column of the header that
    carries the name: a name that occurs twice stands for its first
    column, and an optional column is left out only when no column has its
    name. *)
Theorem columns_are_first_occurrences (header : list str) :
  (forall ix, catalog_indices header = Ok ix ->
     first_position header col_type (idx_type ix) /\
     first_position header col_code (idx_code ix) /\
     first_position header col_mnemonic (idx_mnemonic ix) /\
     first_position header col_description (idx_desc ix) /\
     first_position header col_immediate (idx_imm ix) /\
     first_position header col_investigatory (idx_inv ix)) /\
  (forall ix, nvlink_indices header = Ok ix ->
     first_position header col_xid (idx_xid ix) /\
     first_position header col_subcode (idx_subcode ix) /\
     first_position header col_intrinfo_v1 (idx_intrinfo_v1 ix) /\
     first_position header col_intrinfo_v2 (idx_intrinfo_v2 ix) /\
     first_position header col_error_status (idx_error_status ix) /\
     first_position header col_resolution (idx_resolution ix) /\
     first_position_option header col_action2 (idx_action2 ix) /\
     first_position header col_investigatory (idx_investigatory ix) /\
     first_position header col_severity (idx_severity ix) /\
     first_position_option header col_hw_sw (idx_hw_sw ix) /\
     first_position_option header col_local_remote (idx_local_remote ix)).
Proof.
  split.
  - intros ix H. unfold catalog_indices in H. bind_inv H. injection H as <-.
    cbn [idx_type idx_code idx_mnemonic idx_desc idx_imm idx_inv].
    repeat split; try (apply index_first; assumption);
      match goal with
      | Hi : index header ?c = Ok ?n |- forall j, (j < ?n)%nat -> _ <> Some ?c =>
          exact (proj2 (index_first _ _ Hi))
      end.
  - intros ix H. unfold nvlink_indices in H. bind_inv H. injection H as <-.
    cbn [idx_xid idx_subcode idx_intrinfo_v1 idx_intrinfo_v2 idx_error_status
         idx_resolution idx_action2 idx_investigatory idx_severity idx_hw_sw
         idx_local_remote].
    repeat match goal with
           | |- _ /\ _ => split
           end;
      try (apply index_first; assumption);
      apply optional_index_first; assumption.
Qed.

Lemma columns_are_first_occurrences_witness :
  exists ix,
    catalog_indices catalog_header_twice = Ok ix /\
    idx_code ix = 1%nat /\
    first_position catalog_header_twice col_code (idx_code ix).
Proof.
  destruct (columns_are_first_occurrences catalog_header_twice) as [H _].
  eexists. split; [reflexivity|]. split; [reflexivity|].
  exact (proj1 (proj2 (H _ eq_refl))).
Defined.

(** *** The exceptions of the builders *)

Lemma build_nvlink_rules_raise (U : UnicodeData) (header : list str)
  (data : list (list str)) (e : exn) :
  build_nvlink_rules U (header :: data) = Raise e -> e = ValueError.
Proof.
  unfold build_nvlink_rules. cbn [getitem nth_error bind tl].
  destruct (nvlink_indices header) as [ix|e1] eqn:Eix; cbn [bind].
  - destruct (collect _ data) as [raw|e2] eqn:Ec; cbn [bind]; [discriminate|].
    intros H. injection H as ->.
    apply collect_raise in Ec as (row & _ & Hrow).
    rewrite nvlink_row_eq in Hrow by now apply nvlink_indices_in_range.
    destruct (is_empty _ || _ || _); [discriminate|].
    destruct (py_int U 16 _); [|discriminate].
    destruct (py_int U 10 _); [discriminate|]. now injection Hrow.
  - intros H. injection H as ->. revert Eix. unfold nvlink_indices.
    repeat step_index header; try discriminate; intros H; now injection H.
Qed.

(** On a sheet that has a header row a builder raises nothing but
    ValueError (a missing column, or a code or xid that [int] does not
    read): padding keeps every cell it reads within the row, so no
    IndexError comes from a short row.  On a sheet without rows it raises
    IndexError, for [rows[0]]. *)
Theorem builders_exceptions (U : UnicodeData) :
  (forall header data e,
      build_catalog_entries U (header :: data) = Raise e -> e = ValueError) /\
  (forall header data e,
      build_nvlink_rules U (header :: data) = Raise e -> e = ValueError) /\
  build_catalog_entries U [] = Raise IndexError /\
  build_nvlink_rules U [] = Raise IndexError.
Proof.
  split; [apply build_catalog_entries_raise|].
  split; [apply build_nvlink_rules_raise|].
  split; reflexivity.
Qed.

Lemma builders_exceptions_witness :
  build_catalog_entries latin1 [catalog_header; catalog_row_short] = Ok [] /\
  build_catalog_entries latin1 catalog_sheet_superscript = Raise ValueError.
Proof.
  split; [reflexivity|].
  destruct (build_catalog_entries latin1 catalog_sheet_superscript) as [es|e] eqn:E.
  - vm_compute in E. discriminate E.
  - f_equal. exact (proj1 (builders_exceptions latin1) _ _ _ E).
Defined.

(** *** A sheet without cells *)

Lemma read_sheet_no_cells (U : UnicodeData) (sheet : sheet_xml) (shared : list str) :
  Forall (fun row => row = []) sheet -> read_sheet U sheet shared = Ok [].
Proof.
  induction 1 as [|row sheet Hrow _ IH]; [reflexivity|].
  subst row. simpl. rewrite IH. reflexivity.
Qed.

(** When the first worksheet has no cell at all, its grid is empty and the
    run ends with the IndexError of [rows[0]], the output path untouched;
    the same holds of the second worksheet once the catalog entries are
    built. *)
Theorem sheet_without_cells_aborts (U : UnicodeData) (w : world) :
  length (argv w) = 3%nat -> xlsx_is_file w = true ->
  (Forall (fun row => row = []) (sheet1_xml w) /\
   exists s2, read_sheet U (sheet2_xml w) (shared_strings w) = Ok s2) \/
  (Forall (fun row => row = []) (sheet2_xml w) /\
   exists s1 es, read_sheet U (sheet1_xml w) (shared_strings w) = Ok s1 /\
                 build_catalog_entries U s1 = Ok es) ->
  main U w = (Uncaught IndexError, output_file w).
Proof.
  intros Hargv Hfile H. unfold main, generate.
  rewrite Hargv, Hfile. cbn [Nat.eqb negb].
  destruct H as [[H1 [s2 H2]]|[H2 (s1 & es & H1 & Hb)]].
  - rewrite (read_sheet_no_cells U (shared_strings w) H1), H2. reflexivity.
  - rewrite H1, (read_sheet_no_cells U (shared_strings w) H2). cbn [bind].
    rewrite Hb. reflexivity.
Qed.

Lemma sheet_without_cells_aborts_witness :
  main latin1 (world_with_sheet1 sheet_without_cells)
    = (Uncaught IndexError, Some (lit "package xid")).
Proof.
  apply (@sheet_without_cells_aborts latin1 (world_with_sheet1 sheet_without_cells)
           eq_refl eq_refl).
  left. split.
  - repeat constructor.
  - eexists. reflexivity.
Defined.

(** *** Cells outside the header *)

Lemma cell_at_nth (width : nat) (row : list str) (i : nat) :
  cell_at width row i = nth i row [].
Proof.
  unfold cell_at, pad. destruct (Nat.ltb (length row) width); [|reflexivity].
  destruct (Nat.lt_ge_cases i (length row)) as [H|H].
  - now rewrite app_nth1.
  - rewrite app_nth2 by assumption. rewrite (nth_overflow row) by assumption.
    generalize (i - length row)%nat. generalize (width - length row)%nat.
    intros n. induction n as [|n IH]; intros [|k]; simpl; auto.
Qed.

Lemma catalog_row_same_cells (U : UnicodeData) (width : nat) (ix : catalog_columns)
  (row row' : list str) :
  catalog_in_range width ix -> same_cells width row row' ->
  catalog_row U width ix row = catalog_row U width ix row'.
Proof.
  intros Hr Hs. rewrite !catalog_row_eq by assumption.
  unfold entry_of_row. rewrite !cell_at_nth.
  destruct Hr as (H1 & H2 & H3 & H4 & H5 & H6).
  rewrite (Hs _ H1), (Hs _ H2), (Hs _ H3), (Hs _ H4), (Hs _ H5), (Hs _ H6).
  reflexivity.
Qed.

Lemma optional_value_same_cells (U : UnicodeData) (width : nat)
  (row row' : list str) (i : option nat) :
  option_in_range width i -> same_cells width row row' ->
  optional_value U width row i = optional_value U width row' i.
Proof.
  destruct i as [n|]; simpl; [|reflexivity].
  intros Hn Hs. now rewrite !cell_at_nth, (Hs _ Hn).
Qed.

Lemma nvlink_row_same_cells (U : UnicodeData) (width : nat) (ix : nvlink_columns)
  (row row' : list str) :
  nvlink_in_range width ix -> same_cells width row row' ->
  nvlink_row U width ix row = nvlink_row U width ix row'.
Proof.
  intros Hr Hs. rewrite !nvlink_row_eq by assumption.
  destruct Hr as ((H1 & H2 & H3 & H4 & H5 & H6 & H7 & H8) & Ha & Hh & Hl).
  unfold rule_of_row, error_status_text.
  rewrite (@optional_value_same_cells U width row row' _ Ha Hs),
    (@optional_value_same_cells U width row row' _ Hh Hs),
    (@optional_value_same_cells U width row row' _ Hl Hs).
  rewrite !cell_at_nth.
  rewrite (Hs _ H1), (Hs _ H2), (Hs _ H3), (Hs _ H4), (Hs _ H5), (Hs _ H6),
    (Hs _ H7), (Hs _ H8).
  reflexivity.
Qed.

Lemma collect_replace {A B} (body : A -> result (option B)) (l1 l2 : list A)
  (a a' : A) :
  body a = body a' ->
  collect body (l1 ++ a :: l2) = collect body (l1 ++ a' :: l2).
Proof.
  intros H. rewrite !collect_app. simpl. now rewrite H.
Qed.

(** A builder reads a data row only under the columns of the header, and
    reads a missing cell as an empty one: two rows that agree there give
    the same result, so cells beyond the header and empty cells at the end
    of a row change nothing. *)
Theorem only_header_columns_matter (U : UnicodeData) (header : list str)
  (before after : list (list str)) (row row' : list str) :
  same_cells (length header) row row' ->
  build_catalog_entries U (header :: before ++ row :: after)
    = build_catalog_entries U (header :: before ++ row' :: after) /\
  build_nvlink_rules U (header :: before ++ row :: after)
    = build_nvlink_rules U (header :: before ++ row' :: after).
Proof.
  intros Hs. split.
  - unfold build_catalog_entries. cbn [getitem nth_error bind tl].
    destruct (catalog_indices header) as [ix|e] eqn:Eix; cbn [bind]; [|reflexivity].
    rewrite (collect_replace _ before after row row'); [reflexivity|].
    apply catalog_row_same_cells; [now apply catalog_indices_in_range | exact Hs].
  - unfold build_nvlink_rules. cbn [getitem nth_error bind tl].
    destruct (nvlink_indices header) as [ix|e] eqn:Eix; cbn [bind]; [|reflexivity].
    rewrite (collect_replace _ before after row row'); [reflexivity|].
    apply nvlink_row_same_cells; [now apply nvlink_indices_in_range | exact Hs].
Qed.

Lemma only_header_columns_matter_witness :
  build_catalog_entries latin1 [catalog_header; catalog_row_13; catalog_row_79_long]
    = build_catalog_entries latin1 [catalog_header; catalog_row_13; catalog_row_79] /\
  build_catalog_entries latin1 [catalog_header; catalog_row_short]
    = build_catalog_entries latin1
        [catalog_header; catalog_row_short ++ [[]; []]].
Proof.
  split.
  - apply (@only_header_columns_matter latin1 catalog_header [catalog_row_13] []
             catalog_row_79_long catalog_row_79).
    intros i Hi. simpl in Hi.
    do 6 (destruct i as [|i]; [reflexivity|]). lia.
  - apply (@only_header_columns_matter latin1 catalog_header [] []
             catalog_row_short (catalog_row_short ++ [[]; []])).
    intros i Hi. do 4 (destruct i as [|i]; [reflexivity|]). destruct i; reflexivity.
Defined.

(** ** The outcomes of a run *)


(** ** The lines of the output *)

Lemma one_line_app (a b : str) : one_line (a ++ b) = one_line a && one_line b.
Proof. apply forallb_app. Qed.

Lemma escaped_one_line (s : str) : one_line (flat_map escape_char s) = true.
Proof.
  induction s as [|c s IH]; [reflexivity|].
  cbn [flat_map]. rewrite one_line_app, IH, andb_true_r.
  unfold escape_char.
  destruct (N.eqb_spec c BSL); [reflexivity|].
  destruct (N.eqb_spec c DQ); [reflexivity|].
  destruct (N.eqb_spec c NL) as [|Hn]; [reflexivity|].
  cbn [one_line forallb]. apply N.eqb_neq in Hn. now rewrite Hn.
Qed.

Lemma escape_go_string_one_line (s : str) : one_line (escape_go_string s) = true.
Proof.
  unfold escape_go_string. rewrite escaped_char_by_char.
  rewrite !one_line_app, escaped_one_line. reflexivity.
Qed.

Lemma digit_char_lower_bound (d : N) : (48 <= digit_char d)%N.
Proof. unfold digit_char. destruct (N.ltb d 10); lia. Qed.

Lemma digits_fuel_lower_bound (fuel : nat) (base n : N) (acc : str) :
  Forall (fun c => (45 <= c)%N) acc ->
  Forall (fun c => (45 <= c)%N) (digits_fuel fuel base n acc).
Proof.
  revert n acc; induction fuel as [|fuel IH]; intros n acc H; [exact H|].
  rewrite digits_fuel_S.
  assert (H' : Forall (fun c => (45 <= c)%N) (digit_char (n mod base) :: acc)).
  { constructor; [|exact H]. pose proof (digit_char_lower_bound (n mod base)). lia. }
  destruct (N.eqb (n / base) 0); [exact H' | now apply IH].
Qed.

Lemma lower_bound_one_line (s : str) :
  Forall (fun c => (45 <= c)%N) s -> one_line s = true.
Proof.
  intros H. apply forallb_forall. intros c Hc.
  rewrite Forall_forall in H. specialize (H c Hc).
  apply negb_true_iff, N.eqb_neq. unfold NL. lia.
Qed.

Lemma str_of_int_lower_bound (z : Z) : Forall (fun c => (45 <= c)%N) (str_of_int z).
Proof.
  unfold str_of_int, digits.
  destruct (z <? 0)%Z; [constructor; [lia|]|]; now apply digits_fuel_lower_bound.
Qed.

Lemma format_08x_lower_bound (z : Z) : Forall (fun c => (45 <= c)%N) (format_08x z).
Proof.
  assert (Hz : forall w s, Forall (fun c => (45 <= c)%N) s ->
                           Forall (fun c => (45 <= c)%N) (zfill w s)).
  { intros w s H. unfold zfill. apply Forall_app. split; [|exact H].
    apply Forall_forall. intros c Hc. apply repeat_spec in Hc. subst c. lia. }
  unfold format_08x, digits.
  destruct (z <? 0)%Z; [constructor; [lia|]|];
    apply Hz; now apply digits_fuel_lower_bound.
Qed.

Lemma entry_line_one_line (e : entry) : one_line (entry_line e) = true.
Proof.
  unfold entry_line. rewrite !one_line_app.
  rewrite !escape_go_string_one_line.
  rewrite (lower_bound_one_line (str_of_int_lower_bound (code e))).
  reflexivity.
Qed.

Lemma append_optional_one_line (line prefix : str) (v : option str) :
  one_line line = true -> one_line prefix = true ->
  one_line (append_optional line prefix v) = true.
Proof.
  intros Hl Hp. destruct v as [[|c s]|]; simpl; try exact Hl.
  now rewrite !one_line_app, Hl, Hp, escape_go_string_one_line.
Qed.

Lemma rule_line_one_line (r : rule) : one_line (rule_line r) = true.
Proof.
  unfold rule_line. rewrite one_line_app.
  apply andb_true_iff. split; [|reflexivity].
  repeat (apply append_optional_one_line; [|reflexivity]).
  rewrite !one_line_app, !escape_go_string_one_line.
  rewrite (lower_bound_one_line (str_of_int_lower_bound (xid r))).
  rewrite (lower_bound_one_line (format_08x_lower_bound (error_status r))).
  reflexivity.
Qed.

Lemma split_lines_one_line (l : str) : one_line l = true -> split_lines l = [l].
Proof.
  induction l as [|c l IH]; [reflexivity|].
  cbn [one_line forallb]. intros H. apply andb_true_iff in H as [Hc Hl].
  apply negb_true_iff in Hc. cbn [split_lines]. rewrite Hc, (IH Hl). reflexivity.
Qed.

Lemma split_lines_cons (l rest : str) :
  one_line l = true ->
  split_lines (l ++ NL :: rest) = l :: split_lines rest.
Proof.
  induction l as [|c l IH]; [reflexivity|].
  cbn [one_line forallb]. intros H. apply andb_true_iff in H as [Hc Hl].
  apply negb_true_iff in Hc. cbn [app split_lines]. rewrite Hc, (IH Hl).
  reflexivity.
Qed.

Lemma split_lines_join (lines : list str) :
  lines <> [] -> forallb one_line lines = true ->
  split_lines (join [NL] lines) = lines.
Proof.
  induction lines as [|l lines IH]; [contradiction|].
  intros _ H. cbn [forallb] in H. apply andb_true_iff in H as [Hl Hs].
  destruct lines as [|l' lines].
  - simpl. now apply split_lines_one_line.
  - rewrite join_cons by discriminate. cbn [app].
    rewrite split_lines_cons by exact Hl. f_equal.
    apply IH; [discriminate | exact Hs].
Qed.

(** No record line of the output holds a newline character, so each
    record takes exactly one line: split at the newlines, the text
    [write_go] returns is its list of lines again, thirteen lines and one
    for each entry and each rule. *)
Theorem output_lines (now : str) (entries : list entry) (rules : list rule) :
  one_line now = true ->
  Forall (fun e => one_line (entry_line e) = true) entries /\
  Forall (fun r => one_line (rule_line r) = true) rules /\
  split_lines (write_go now entries rules) = write_go_lines now entries rules /\
  length (split_lines (write_go now entries rules))
    = (13 + length entries + length rules)%nat.
Proof.
  intros Hnow.
  assert (He : Forall (fun e => one_line (entry_line e) = true) entries)
    by (apply Forall_forall; intros e _; apply entry_line_one_line).
  assert (Hr : Forall (fun r => one_line (rule_line r) = true) rules)
    by (apply Forall_forall; intros r _; apply rule_line_one_line).
  assert (Hs : split_lines (write_go now entries rules)
               = write_go_lines now entries rules).
  { unfold write_go. apply split_lines_join.
    - unfold write_go_lines. discriminate.
    - unfold write_go_lines. rewrite !forallb_app. cbn [forallb].
      unfold generated_at_line. rewrite !one_line_app, Hnow.
      rewrite !andb_true_r.
      assert (H1 : forallb one_line (List.map entry_line entries) = true).
      { apply forallb_forall. intros l Hl. apply in_map_iff in Hl as (e & <- & _).
        apply entry_line_one_line. }
      assert (H2 : forallb one_line (List.map rule_line rules) = true).
      { apply forallb_forall. intros l Hl. apply in_map_iff in Hl as (r & <- & _).
        apply rule_line_one_line. }
      rewrite H1, H2. reflexivity. }
  split; [exact He|]. split; [exact Hr|]. split; [exact Hs|].
  rewrite Hs. unfold write_go_lines.
  rewrite !length_app, !length_map. simpl. lia.
Qed.

Lemma output_lines_witness :
  split_lines (write_go (lit "2025-01-01T00:00:00") [entry_13; entry_79]
                 [rule_no_action2])
    = write_go_lines (lit "2025-01-01T00:00:00") [entry_13; entry_79]
        [rule_no_action2] /\
  length (split_lines (write_go (lit "2025-01-01T00:00:00") [entry_13; entry_79]
                         [rule_no_action2])) = 16%nat.
Proof.
  destruct (@output_lines (lit "2025-01-01T00:00:00") [entry_13; entry_79]
              [rule_no_action2] eq_refl) as (_ & _ & Hs & Hl).
  split; [exact Hs | exact Hl].
Defined.

(** ** Reading the emitted integers *)

Lemma digit_char_digit_of (base d : N) :
  (base <= 36)%N -> (d < base)%N ->
  digit_of base (digit_char d) /\ digit_value (digit_char d) = d.
Proof.
  intros Hb Hd. unfold digit_of, digit_char, digit_value.
  destruct (N.ltb_spec d 10).
  - destruct (N.leb_spec 48 (48 + d)); [|lia].
    destruct (N.leb_spec (48 + d) 57); [|lia].
    cbn [andb]. repeat split; lia.
  - destruct (N.leb_spec 48 (87 + d)); [|lia].
    destruct (N.leb_spec (87 + d) 57); [lia|].
    destruct (N.leb_spec 97 (87 + d)); [|lia].
    destruct (N.leb_spec (87 + d) 122); [|lia].
    cbn [andb]. repeat split; lia.
Qed.

Lemma scan_digits_prefix (base : N) (s1 s2 : str) (acc : N) (k : nat) :
  Forall (digit_of base) s1 ->
  scan_digits base (s1 ++ s2) false acc k =
  scan_digits base s2 false
    (fold_left (fun a c => (a * base + digit_value c)%N) s1 acc)
    (k + length s1).
Proof.
  revert acc k; induction s1 as [|c s1 IH]; intros acc k H.
  - simpl. now rewrite Nat.add_0_r.
  - inversion H as [|? ? (Hu & _ & Hv) Hs]; subst.
    cbn [app scan_digits fold_left length].
    destruct (N.eqb_spec c 95); [contradiction|].
    destruct (N.ltb_spec (digit_value c) base); [|lia].
    rewrite (IH _ _ Hs), Nat.add_succ_r. reflexivity.
Qed.

Lemma digits_fuel_digit_of (fuel : nat) (base n : N) (acc : str) :
  (2 <= base <= 36)%N ->
  Forall (digit_of base) acc ->
  Forall (digit_of base) (digits_fuel fuel base n acc).
Proof.
  intros Hb. revert n acc; induction fuel as [|fuel IH]; intros n acc H; [exact H|].
  rewrite digits_fuel_S.
  assert (H' : Forall (digit_of base) (digit_char (n mod base) :: acc)).
  { constructor; [|exact H]. apply digit_char_digit_of; [lia|].
    apply N.mod_lt. lia. }
  destruct (N.eqb (n / base) 0); [exact H' | now apply IH].
Qed.

Lemma digits_value_app (base : N) (a b : str) :
  digits_value base (a ++ b)
  = fold_left (fun acc c => (acc * base + digit_value c)%N) b (digits_value base a).
Proof. unfold digits_value. apply fold_left_app. Qed.

Lemma digits_fuel_value (fuel : nat) (base n : N) :
  (2 <= base <= 36)%N -> (n < 2 ^ N.of_nat fuel)%N ->
  digits_value base (digits_fuel fuel base n []) = n.
Proof.
  intros Hb. revert n; induction fuel as [|fuel IH]; intros n Hn.
  - simpl in Hn. simpl. unfold digits_value. simpl. lia.
  - rewrite digits_fuel_S.
    assert (Hd : (n mod base < base)%N) by (apply N.mod_lt; lia).
    destruct (@digit_char_digit_of base (n mod base)%N (proj2 Hb) Hd) as [_ Hv].
    pose proof (N.div_mod n base) as Hdm.
    destruct (N.eqb_spec (n / base) 0) as [Hz|Hz].
    + unfold digits_value. cbn [fold_left]. rewrite Hv. nia.
    + rewrite digits_fuel_acc, digits_value_app, IH.
      * cbn [fold_left]. rewrite Hv. nia.
      * rewrite Nat2N.inj_succ, N.pow_succ_r' in Hn.
        apply N.Div0.div_lt_upper_bound.
        assert (2 ^ N.of_nat fuel * 2 <= base * 2 ^ N.of_nat fuel)%N by nia.
        lia.
Qed.

Lemma digits_value_digits (base n : N) :
  (2 <= base <= 36)%N -> digits_value base (digits base n) = n.
Proof.
  intros Hb. unfold digits. apply digits_fuel_value; [exact Hb|].
  rewrite Nat2N.inj_succ, N2Nat.id.
  destruct (N.eq_dec n 0) as [->|Hn]; [reflexivity|].
  apply N.log2_spec. lia.
Qed.

Lemma digits_nonempty (base n : N) : digits base n <> [].
Proof.
  unfold digits. rewrite digits_fuel_S.
  destruct (N.eqb (n / base) 0); [discriminate|].
  rewrite digits_fuel_acc. intros H. apply app_eq_nil in H as [_ H]. discriminate H.
Qed.

Lemma to_ascii_map_id (U : UnicodeData) (s : str) :
  Forall (fun c => (c < 127)%N) s -> List.map (to_ascii U) s = s.
Proof.
  induction 1 as [|c s Hc _ IH]; [reflexivity|].
  cbn [List.map]. rewrite IH. f_equal. unfold to_ascii.
  destruct (N.ltb_spec c 127); [reflexivity | lia].
Qed.

Lemma digit_of_ascii (base : N) (s : str) :
  Forall (digit_of base) s -> Forall (fun c => (c < 127)%N) s.
Proof. apply Forall_impl. intros c (_ & H & _). exact H. Qed.

Lemma digit_of_first (base : N) (c : char) :
  digit_of base c -> (base <= 36)%N ->
  c_isspace c = false /\ N.eqb c 43 = false /\ N.eqb c 45 = false /\
  N.eqb c 95 = false.
Proof.
  intros (Hu & Ha & Hv) Hb.
  assert (Hc : (48 <= c)%N).
  { unfold digit_value in Hv.
    destruct (N.leb_spec 48 c); [assumption|]. cbn [andb] in Hv.
    destruct (N.leb_spec 97 c); [lia|]. cbn [andb] in Hv.
    destruct (N.leb_spec 65 c); [lia|]. cbn [andb] in Hv. lia. }
  unfold c_isspace.
  destruct (N.leb_spec 9 c); destruct (N.leb_spec c 13);
    destruct (N.eqb_spec c 32); destruct (N.eqb_spec c 43);
    destruct (N.eqb_spec c 45); destruct (N.eqb_spec c 95);
    simpl; auto; lia.
Qed.





Lemma digits_value_zfill (base : N) (width : nat) (s : str) :
  digits_value base (zfill width s) = digits_value base s.
Proof.
  unfold zfill, digits_value. rewrite fold_left_app. f_equal.
  induction (width - length s)%nat as [|k IH]; [reflexivity|].
  cbn [repeat fold_left]. rewrite N.mul_0_l. exact IH.
Qed.

Lemma zfill_digit_of (base : N) (width : nat) (s : str) :
  (2 <= base <= 36)%N -> Forall (digit_of base) s ->
  Forall (digit_of base) (zfill width s).
Proof.
  intros Hb H. unfold zfill. apply Forall_app. split; [|exact H].
  apply Forall_forall. intros c Hc. apply repeat_spec in Hc. subst c.
  change 48%N with (digit_char 0). apply digit_char_digit_of; lia.
Qed.

(** The ErrorStatus literal the emitter writes for an error status that is
    not negative is read back in base 16 as that error status, however
    large it is.  For a negative error status the format puts a minus sign
    behind the prefix 0x, and the text is no hexadecimal literal: [int]
    does not read it. *)
Theorem error_status_literal_read_back (U : UnicodeData) (z : Z) :
  ((0 <= z)%Z -> py_int U 16 (lit "0x" ++ format_08x z) = Some z) /\
  ((z < 0)%Z -> py_int U 16 (lit "0x" ++ format_08x z) = None).
Proof.
  assert (Hb : (2 <= 16 <= 36)%N) by lia.
  unfold format_08x. split; intros Hz.
  - destruct (Z.ltb_spec z 0); [lia|].
    set (t := zfill 8 (digits 16 (Z.to_N z))).
    assert (Ht : Forall (digit_of 16) t).
    { apply zfill_digit_of; [exact Hb|]. unfold digits.
      apply digits_fuel_digit_of; [exact Hb | constructor]. }
    assert (Hv : digits_value 16 t = Z.to_N z).
    { unfold t. rewrite digits_value_zfill. now apply digits_value_digits. }
    assert (Hne : t <> []).
    { unfold t, zfill. intros E. apply app_eq_nil in E as [_ E].
      exact (digits_nonempty _ _ E). }
    unfold py_int.
    rewrite to_ascii_map_id.
    2:{ change (lit "0x" ++ t) with (48%N :: 120%N :: t).
        repeat (constructor; [lia|]). exact (digit_of_ascii Ht). }
    change (lit "0x" ++ t) with (48%N :: 120%N :: t).
    destruct t as [|c t']; [contradiction|].
    inversion Ht as [|? ? Hc _]; subst.
    destruct (digit_of_first Hc (proj2 Hb)) as (_ & _ & _ & Hu).
    unfold PyLong_FromString.
    change (skip_sign (skip_space (48%N :: 120%N :: c :: t')))
      with (false, 48%N :: 120%N :: c :: t').
    cbv beta iota zeta.
    assert (Hp : skip_prefix 16 (48%N :: 120%N :: c :: t') = c :: t').
    { cbn [skip_prefix N.eqb Pos.eqb andb orb]. now rewrite Hu. }
    rewrite Hp. cbn [starts_with_underscore]. rewrite Hu.
    pose proof (scan_digits_prefix [] 0%N 0 Ht) as Hscan.
    rewrite app_nil_r in Hscan. rewrite Hscan. cbn [scan_digits length Nat.add].
    fold (digits_value 16 (c :: t')). rewrite Hv. cbn [skip_space].
    f_equal. apply Z2N.id. lia.
  - destruct (Z.ltb_spec z 0); [|lia]. reflexivity.
Qed.

Lemma error_status_literal_read_back_witness :
  build_nvlink_rules latin1 nvlink_sheet_negative_status = Ok [rule_negative_status] /\
  format_08x (error_status rule_negative_status) = lit "-000001a" /\
  py_int latin1 16 (lit "0x" ++ format_08x (error_status rule_negative_status)) = None /\
  py_int latin1 16 (lit "0x" ++ format_08x (2 ^ 32)) = Some (2 ^ 32)%Z.
Proof.
  split; [reflexivity|]. split; [reflexivity|]. split.
  - apply (proj2 (error_status_literal_read_back latin1 (-26))). lia.
  - apply (proj1 (error_status_literal_read_back latin1 (2 ^ 32))). lia.
Defined.

(** ** Reading an entry line back *)

Lemma expect_app (p s : str) : expect p (p ++ s) = Some s.
Proof.
  induction p as [|c p IH]; [destruct s; reflexivity|].
  simpl. now rewrite N.eqb_refl.
Qed.

Lemma span_app (p : char -> bool) (d rest : str) :
  Forall (fun c => p c = true) d ->
  (forall c r, rest = c :: r -> p c = false) ->
  span p (d ++ rest) = (d, rest).
Proof.
  intros Hd Hrest. induction Hd as [|c d Hc _ IH].
  - destruct rest as [|c r]; [reflexivity|].
    simpl. now rewrite (Hrest c r eq_refl).
  - cbn [app span]. now rewrite Hc, IH.
Qed.

Lemma digit_char_ascii (m : N) : (m < 10)%N -> is_ascii_digit (digit_char m) = true.
Proof.
  intros Hm. unfold is_ascii_digit, digit_char.
  destruct (N.ltb_spec m 10); [|lia].
  apply andb_true_iff. split; apply N.leb_le; lia.
Qed.

Lemma digit_char_hex (m : N) : (m < 16)%N -> is_hex_digit (digit_char m) = true.
Proof.
  intros Hm. unfold is_hex_digit, digit_char.
  destruct (N.ltb_spec m 10).
  - apply orb_true_iff. left. apply andb_true_iff. split; apply N.leb_le; lia.
  - apply orb_true_iff. right. apply andb_true_iff. split; apply N.leb_le; lia.
Qed.

Lemma digits_fuel_all (p : char -> bool) (fuel : nat) (base n : N) (acc : str) :
  (base <> 0)%N ->
  (forall m, (m < base)%N -> p (digit_char m) = true) ->
  Forall (fun c => p c = true) acc ->
  Forall (fun c => p c = true) (digits_fuel fuel base n acc).
Proof.
  intros Hb Hp. revert n acc; induction fuel as [|fuel IH]; intros n acc H;
    [exact H|].
  rewrite digits_fuel_S.
  assert (H' : Forall (fun c => p c = true) (digit_char (n mod base) :: acc)).
  { constructor; [|exact H]. apply Hp. now apply N.mod_lt. }
  destruct (N.eqb (n / base) 0); [exact H' | now apply IH].
Qed.

(** A number written as a minus sign or none and then the digits [d] is
    read back with its sign and its value. *)
Lemma read_number_digits (base : N) (p : char -> bool) (neg : bool)
  (d rest : str) :
  d <> [] -> Forall (fun c => p c = true) d -> p 45%N = false ->
  (forall c r, rest = c :: r -> p c = false) ->
  read_number base p ((if neg then [45%N] else []) ++ d ++ rest)
  = Some (if neg then (- Z.of_N (digits_value base d))%Z
          else Z.of_N (digits_value base d), rest).
Proof.
  intros Hne Hd Hm Hrest. unfold read_number.
  assert (Hs : read_sign ((if neg then [45%N] else []) ++ d ++ rest)
               = (neg, d ++ rest)).
  { destruct neg; [reflexivity|].
    destruct d as [|c d]; [contradiction|].
    inversion Hd as [|? ? Hc _]; subst. cbn [app read_sign].
    destruct (N.eqb_spec c 45) as [->|]; [congruence | reflexivity]. }
  rewrite Hs, (@span_app p d rest Hd Hrest).
  destruct d; [contradiction | reflexivity].
Qed.

Lemma read_int_str_of_int (z : Z) (rest : str) :
  (forall c r, rest = c :: r -> is_ascii_digit c = false) ->
  read_int (str_of_int z ++ rest) = Some (z, rest).
Proof.
  intros Hrest.
  assert (Hb : (2 <= 10 <= 36)%N) by lia.
  assert (Hd : forall n, Forall (fun c => is_ascii_digit c = true) (digits 10 n)).
  { intros n. apply digits_fuel_all;
      [discriminate | apply digit_char_ascii | constructor]. }
  unfold read_int, str_of_int. destruct (Z.ltb_spec z 0) as [Hz|Hz].
  - pose proof (@read_number_digits 10 is_ascii_digit true (digits 10 (Z.to_N (- z)))
               rest (digits_nonempty _ _) (Hd _) eq_refl Hrest) as Hread.
    cbn [app] in Hread. cbn [app]. refine (eq_trans Hread _).
    rewrite digits_value_digits by exact Hb.
    rewrite Z2N.id by lia. repeat f_equal. lia.
  - pose proof (@read_number_digits 10 is_ascii_digit false (digits 10 (Z.to_N z))
               rest (digits_nonempty _ _) (Hd _) eq_refl Hrest) as Hread.
    cbn [app] in Hread. cbn [app]. refine (eq_trans Hread _).
    rewrite digits_value_digits by exact Hb.
    rewrite Z2N.id by lia. reflexivity.
Qed.

Lemma zfill_nonempty (width : nat) (s : str) : s <> [] -> zfill width s <> [].
Proof.
  intros Hne E. unfold zfill in E. apply app_eq_nil in E as [_ E]. contradiction.
Qed.

Lemma read_08x_format (z : Z) (rest : str) :
  (forall c r, rest = c :: r -> is_hex_digit c = false) ->
  read_08x (format_08x z ++ rest) = Some (z, rest).
Proof.
  intros Hrest.
  assert (Hb : (2 <= 16 <= 36)%N) by lia.
  assert (Hd : forall w n, Forall (fun c => is_hex_digit c = true)
                                  (zfill w (digits 16 n))).
  { intros w n. unfold zfill. apply Forall_app. split.
    - apply Forall_forall. intros c Hc. apply repeat_spec in Hc. now subst c.
    - apply digits_fuel_all; [discriminate | apply digit_char_hex | constructor]. }
  unfold read_08x, format_08x. destruct (Z.ltb_spec z 0) as [Hz|Hz].
  - pose proof (@read_number_digits 16 is_hex_digit true
               (zfill 7 (digits 16 (Z.to_N (- z)))) rest
               (zfill_nonempty 7 (digits_nonempty _ _)) (Hd _ _) eq_refl Hrest) as Hread.
    cbn [app] in Hread. cbn [app]. refine (eq_trans Hread _).
    rewrite digits_value_zfill, digits_value_digits by exact Hb.
    rewrite Z2N.id by lia. repeat f_equal. lia.
  - pose proof (@read_number_digits 16 is_hex_digit false
               (zfill 8 (digits 16 (Z.to_N z))) rest
               (zfill_nonempty 8 (digits_nonempty _ _)) (Hd _ _) eq_refl Hrest) as Hread.
    cbn [app] in Hread. cbn [app]. refine (eq_trans Hread _).
    rewrite digits_value_zfill, digits_value_digits by exact Hb.
    rewrite Z2N.id by lia. reflexivity.
Qed.

Lemma read_body_escaped (s rest : str) :
  read_body (flat_map escape_char s ++ DQ :: rest) = Some (s, rest).
Proof.
  induction s as [|c s IH]; [reflexivity|].
  simpl flat_map. unfold escape_char at 1.
  destruct (N.eqb_spec c BSL) as [->|Hb].
  { change (read_body (BSL :: BSL :: (flat_map escape_char s ++ DQ :: rest))
            = Some (BSL :: s, rest)).
    cbn -[flat_map]. now rewrite IH. }
  destruct (N.eqb_spec c DQ) as [->|Hq].
  { change (read_body (BSL :: DQ :: (flat_map escape_char s ++ DQ :: rest))
            = Some (DQ :: s, rest)).
    cbn -[flat_map]. now rewrite IH. }
  destruct (N.eqb_spec c NL) as [->|Hn].
  { change (read_body (BSL :: 110%N :: (flat_map escape_char s ++ DQ :: rest))
            = Some (NL :: s, rest)).
    cbn -[flat_map]. now rewrite IH. }
  change (read_body (c :: (flat_map escape_char s ++ DQ :: rest))
          = Some (c :: s, rest)).
  cbn [read_body].
  destruct (N.eqb_spec c DQ); [contradiction|].
  destruct (N.eqb_spec c NL); [contradiction|].
  destruct (N.eqb_spec c BSL); [contradiction|].
  now rewrite IH.
Qed.

Lemma read_literal_escaped (s rest : str) :
  read_literal (escape_go_string s ++ rest) = Some (s, rest).
Proof.
  unfold escape_go_string. rewrite escaped_char_by_char.
  change (([DQ] ++ flat_map escape_char s ++ [DQ]) ++ rest)
    with (DQ :: ((flat_map escape_char s ++ [DQ]) ++ rest)).
  rewrite <- app_assoc. cbn [read_literal app]. rewrite N.eqb_refl.
  apply read_body_escaped.
Qed.

Lemma entry_line_shape (e : entry) :
  entry_line e =
  ([TAB] ++ lit "{Code: ") ++ str_of_int (code e) ++
  lit ", Mnemonic: " ++ escape_go_string (mnemonic e) ++
  lit ", Description: " ++ escape_go_string (description e) ++
  lit ", ImmediateResolution: " ++ escape_go_string (immediate e) ++
  lit ", InvestigatoryResolution: " ++ escape_go_string (investigatory e) ++
  lit ",},".
Proof.
  unfold entry_line.
  generalize (str_of_int (code e)) (escape_go_string (mnemonic e))
    (escape_go_string (description e)) (escape_go_string (immediate e))
    (escape_go_string (investigatory e)).
  intros a b c d f. repeat rewrite <- app_assoc. reflexivity.
Qed.

(** A line of the table [catalogEntries] determines its entry: read back
    field by field (the code as a decimal literal, the texts as string
    literals), the line gives the entry it was written for, so two entries
    with the same line are equal. *)
Theorem entry_line_read_back (e : entry) :
  parse_entry_line (entry_line e) = Some e /\
  forall e', entry_line e = entry_line e' -> e = e'.
Proof.
  assert (H : forall x, parse_entry_line (entry_line x) = Some x).
  { intros x. rewrite entry_line_shape. unfold parse_entry_line.
    rewrite expect_app. cbn [and_then].
    rewrite read_int_str_of_int.
    2:{ intros c r Hc. injection Hc as <- _. reflexivity. }
    cbn [and_then]. rewrite expect_app. cbn [and_then].
    rewrite read_literal_escaped. cbn [and_then].
    rewrite expect_app. cbn [and_then].
    rewrite read_literal_escaped. cbn [and_then].
    rewrite expect_app. cbn [and_then].
    rewrite read_literal_escaped. cbn [and_then].
    rewrite expect_app. cbn [and_then].
    rewrite read_literal_escaped. cbn [and_then].
    rewrite <- (app_nil_r (lit ",},")), expect_app. cbn [and_then].
    destruct x. reflexivity. }
  split; [apply H|].
  intros e' E. pose proof (H e) as He. rewrite E, H in He. now injection He.
Qed.

Example entry_line_tricky :
  parse_entry_line (entry_line entry_tricky) = Some entry_tricky /\
  parse_entry_line (entry_line entry_79 ++ lit " ") = None.
Proof. split; reflexivity. Qed.

(** ** Reading a rule line back *)

Lemma rule_line_shape (r : rule) :
  rule_line r =
  ([TAB] ++ lit "{Xid: ") ++ str_of_int (xid r) ++
  lit ", Unit: " ++ escape_go_string (unit_ r) ++
  lit ", IntrinfoPatternV1: " ++ escape_go_string (intrinfo_v1 r) ++
  lit ", IntrinfoPatternV2: " ++ escape_go_string (intrinfo_v2 r) ++
  lit ", ErrorStatus: 0x" ++ format_08x (error_status r) ++
  lit ", Resolution: " ++ escape_go_string (resolution r) ++
  lit ", Investigatory: " ++ escape_go_string (rule_investigatory r) ++
  lit ", Severity: " ++ escape_go_string (severity r) ++
  optional_text (lit ", Action2: ") (action2 r) ++
  optional_text (lit ", HwSw: ") (hw_sw r) ++
  optional_text (lit ", LocalRemote: ") (local_remote r) ++
  lit "},".
Proof.
  destruct r as [x u v1 v2 es res inv sev a2 hw lr].
  unfold rule_line.
  cbn [xid unit_ intrinfo_v1 intrinfo_v2 error_status resolution
       rule_investigatory severity action2 hw_sw local_remote].
  generalize (str_of_int x) (escape_go_string u) (escape_go_string v1)
    (escape_go_string v2) (format_08x es) (escape_go_string res)
    (escape_go_string inv) (escape_go_string sev).
  intros sx su s1 s2 se sr si ss.
  destruct a2 as [[|c2 t2]|]; destruct hw as [[|ch th]|];
    destruct lr as [[|cl tl]|];
    cbn [append_optional optional_text];
    repeat rewrite <- app_assoc; reflexivity.
Qed.

Lemma read_optional_text (prefix : str) (v : option str) (rest : str) :
  expect prefix rest = None ->
  read_optional prefix (optional_text prefix v ++ rest)
  = Some (shown_option v, rest).
Proof.
  intros Hrest.
  assert (Habsent : read_optional prefix rest = Some (None, rest))
    by (unfold read_optional; now rewrite Hrest).
  destruct v as [[|c s]|]; cbn [optional_text shown_option app];
    try exact Habsent.
  unfold read_optional. rewrite <- app_assoc, expect_app.
  rewrite read_literal_escaped. reflexivity.
Qed.

Lemma after_action2 (hw lr : option str) :
  expect (lit ", Action2: ")
    (optional_text (lit ", HwSw: ") hw ++
     optional_text (lit ", LocalRemote: ") lr ++ lit "},") = None.
Proof. destruct hw as [[|c s]|]; destruct lr as [[|c' s']|]; reflexivity. Qed.

Lemma after_hw_sw (lr : option str) :
  expect (lit ", HwSw: ") (optional_text (lit ", LocalRemote: ") lr ++ lit "},")
  = None.
Proof. destruct lr as [[|c s]|]; reflexivity. Qed.

Ltac not_a_digit :=
  let c := fresh "c" in
  let r := fresh "r" in
  let H := fresh "H" in
  intros c r H; injection H as <- _; reflexivity.

(** A line of the table [nvlinkRules] determines its rule up to what the
    emitter shows of the optional keys: read back field by field it gives
    the rule it was written for, an optional key with an empty text read as
    an absent one; so two rules with the same line differ at most there. *)
Theorem rule_line_read_back (r : rule) :
  parse_rule_line (rule_line r) = Some (shown_rule r) /\
  forall r', rule_line r = rule_line r' -> shown_rule r = shown_rule r'.
Proof.
  assert (H : forall x, parse_rule_line (rule_line x) = Some (shown_rule x)).
  { intros x. rewrite rule_line_shape. unfold parse_rule_line.
    rewrite expect_app. cbn [and_then].
    rewrite read_int_str_of_int by not_a_digit. cbn [and_then].
    rewrite expect_app. cbn [and_then].
    rewrite read_literal_escaped. cbn [and_then].
    rewrite expect_app. cbn [and_then].
    rewrite read_literal_escaped. cbn [and_then].
    rewrite expect_app. cbn [and_then].
    rewrite read_literal_escaped. cbn [and_then].
    rewrite expect_app. cbn [and_then].
    rewrite read_08x_format by not_a_digit. cbn [and_then].
    rewrite expect_app. cbn [and_then].
    rewrite read_literal_escaped. cbn [and_then].
    rewrite expect_app. cbn [and_then].
    rewrite read_literal_escaped. cbn [and_then].
    rewrite expect_app. cbn [and_then].
    rewrite read_literal_escaped. cbn [and_then].
    rewrite read_optional_text by apply after_action2. cbn [and_then].
    rewrite read_optional_text by apply after_hw_sw. cbn [and_then].
    rewrite read_optional_text by reflexivity. cbn [and_then].
    reflexivity. }
  split; [apply H|].
  intros r' E.
  assert (Hr : Some (shown_rule r) = Some (shown_rule r'))
    by (rewrite <- (H r), <- (H r'), E; reflexivity).
  exact (f_equal (fun o => match o with Some x => x | None => shown_rule r end) Hr).
Qed.

Example rule_line_tricky :
  parse_rule_line (rule_line rule_tricky) = Some (shown_rule rule_tricky) /\
  action2 (shown_rule rule_tricky) = None /\
  local_remote (shown_rule rule_tricky) = Some (lit ", HwSw: ").
Proof. repeat split; reflexivity. Qed.

Lemma entry_line_read_back_witness :
  parse_entry_line (entry_line entry_tricky) = Some entry_tricky /\
  (entry_line entry_tricky = entry_line entry_tricky ->
   entry_tricky = entry_tricky).
Proof.
  destruct (entry_line_read_back entry_tricky) as [Hp Hi].
  split; [exact Hp | exact (Hi entry_tricky)].
Defined.

Lemma rule_line_read_back_witness :
  rule_tricky <> shown_rule rule_tricky /\
  rule_line rule_tricky = rule_line (shown_rule rule_tricky) /\
  parse_rule_line (rule_line rule_tricky) = Some (shown_rule rule_tricky) /\
  shown_rule rule_tricky = shown_rule (shown_rule rule_tricky).
Proof.
  destruct (rule_line_read_back rule_tricky) as [Hp Hi].
  split; [discriminate|]. split; [reflexivity|]. split; [exact Hp|].
  apply Hi. reflexivity.
Defined.
